(** * Rparadox: the R / pxlib marshalling layer of [src/interface.c]

    A shallow embedding of the [.Call] entry points of the package and of
    the single-value decoder [px_to_sexp], followed by the properties of
    the session life cycle, of the field type mapper and of the value
    decoder that the specification states.

    Conventions of the embedding:
    - a C [int] or [long] is a [Z]; the one narrowing conversion the code
      performs ([long] to [int], in [ScalarInteger] and [ScalarLogical]) is
      written out as a 32-bit wrap-around;
    - a C [double] is a binary64 float ([PrimFloat.float]), so that
      division, subtraction and the comparisons round and compare as the
      compiled code does;
    - a [char *] is [None] for [NULL] and otherwise the address of the
      block together with the bytes stored there;
    - everything the code does besides computing a value (releasing backend
      buffers, calling the backend, clearing an external pointer, warning,
      raising an R error, reading through a bad pointer) is an effect of a
      state-and-exit monad [M] over a [world]. *)

From Stdlib Require Import ZArith List Bool Lia.
From Stdlib.Strings Require Import Byte String.
From Stdlib Require Import Floats Uint63.
From stdpp Require Import base option list gmap strings.

Local Open Scope Z_scope.

(** ** C data *)

Definition double := PrimFloat.float.

(** [(double) z] for a [long] [z]: the nearest binary64 value. *)
Definition double_of_long (z : Z) : double :=
  SF2Prim (binary_normalize prec emax z 0 false).

(** Conversion of a [long] to a 32-bit [int] keeps the low 32 bits. *)
Definition int_of_long (z : Z) : Z :=
  (z + 2 ^ 31) mod 2 ^ 32 - 2 ^ 31.

(** Width of [unsigned long] on the LP64 platforms R is built for. *)
Definition ULONG_BITS : Z := 64.

(** [(unsigned long) z] for a [long] [z]. *)
Definition ulong_of_long (z : Z) : Z := z mod 2 ^ ULONG_BITS.

Definition addr := positive.

#[global] Instance byte_eq_decision : EqDecision byte := Byte.byte_eq_dec.

(** A block handed out by the backend allocator. *)
Record buffer := Buffer { buf_addr : addr; buf_bytes : list byte }.

(** A [char *]: [None] is [NULL]. *)
Definition char_ptr := option buffer.

(** The bytes of the C string that starts a block, up to its terminator;
    [None] when the block holds no zero byte (a scan would leave it). *)
Fixpoint c_string (bs : list byte) : option (list byte) :=
  match bs with
  | [] => None
  | b :: bs' =>
      if Byte.eqb b x00 then Some []
      else match c_string bs' with
           | Some s => Some (b :: s)
           | None => None
           end
  end.

(** [strcmp] on two terminated strings, bytes compared as unsigned. *)
Fixpoint strcmp_bytes (a b : list byte) : Z :=
  match a, b with
  | [], [] => 0
  | [], _ :: _ => -1
  | _ :: _, [] => 1
  | x :: a', y :: b' =>
      match N.compare (Byte.to_N x) (Byte.to_N y) with
      | Eq => strcmp_bytes a' b'
      | Lt => -1
      | Gt => 1
      end
  end.

(** ** The backend's types (pxlib)

    [paradox.h], which declares them, is not among the sources. *)

(** Modelled from the spec: the field type codes of [paradox.h], "declared
    type code (enum over the legacy type set)".  The code uses them only
    as the case labels of its [switch] statements, so they are an
    enumeration; [pxfOther] stands for every code that is none of the
    named ones and carries that code. *)
Inductive px_fieldtype :=
| pxfAlpha | pxfDate | pxfShort | pxfLong | pxfCurrency | pxfNumber
| pxfLogical | pxfMemoBLOb | pxfBLOb | pxfFmtMemoBLOb | pxfOLE
| pxfGraphic | pxfTime | pxfTimestamp | pxfAutoInc | pxfBCD | pxfBytes
| pxfOther (code : Z).

(** Modelled from the spec: [pxval_t] of [paradox.h], "a tagged union
    carrying either a signed integer, a double, a byte/string buffer with
    explicit length, or an explicit is-null flag", with the member names
    the code reads.  The members of the union are independent fields
    here, which covers every content the union can have (whatever was
    stored, each member reads as some value), and each branch of the
    decoder reads only its own member. *)
Record pxval_t := PxVal {
  isnull : bool;
  lval : Z;
  dval : double;
  str_val : char_ptr;
  str_len : Z
}.

(** Modelled from the spec: [pxfield_t] of [paradox.h], "name (string),
    declared type code, declared byte size". *)
Record pxfield_t := PxField {
  px_fname : list byte;
  px_ftype : px_fieldtype;
  px_flen : Z
}.

(** Modelled from the spec: the header of [paradox.h], "a header struct
    exposing encryption checksum and codepage number", with the record
    count, the field count and the field descriptors the backend reports
    from it. *)
Record pxhead_t := PxHead {
  px_encryption : Z;
  px_doscodepage : Z;
  px_numrecords : Z;
  px_numfields : Z;
  px_fields : option (list pxfield_t)
}.

(** Modelled from the spec: [pxdoc_t] of [paradox.h], the backend's
    document.  The header is [None] while no file is open; [px_records]
    is what "retrieve_record(doc, index) -> raw value array | null"
    yields for a record number ([None] for null). *)
Record pxdoc_t := PxDoc {
  px_head : option pxhead_t;
  px_records : Z -> option (list pxval_t)
}.

(** ** R objects *)

Inductive SEXPTYPE :=
| NILSXP | CHARSXP | LGLSXP | INTSXP | REALSXP | STRSXP | VECSXP
| EXTPTRSXP | RAWSXP.

(** A cell of a real vector: R's [NA_REAL] is a NaN with a payload of its
    own, which binary64 arithmetic in Rocq does not tell apart from other
    NaNs, so it is a separate constructor. *)
Inductive Rdouble :=
| NA_REAL
| Rdbl (d : double).

#[warnings="-register-all"]
Inductive SEXP :=
| R_NilValue
| NA_STRING
| CharSxp (s : list byte)
| LglVec (xs : list Z)
| IntVec (xs : list Z)
| RealVec (xs : list Rdouble)
| StrVec (xs : list SEXP)
| ListVec (xs : list SEXP)
| ExtPtr (id : positive)
| RawVec (bytes : list byte).

Definition TYPEOF (x : SEXP) : SEXPTYPE :=
  match x with
  | R_NilValue => NILSXP
  | NA_STRING | CharSxp _ => CHARSXP
  | LglVec _ => LGLSXP
  | IntVec _ => INTSXP
  | RealVec _ => REALSXP
  | StrVec _ => STRSXP
  | ListVec _ => VECSXP
  | ExtPtr _ => EXTPTRSXP
  | RawVec _ => RAWSXP
  end.

Definition Rf_isNull (x : SEXP) : bool :=
  match x with R_NilValue => true | _ => false end.

Definition NA_INTEGER : Z := - 2 ^ 31.
Definition NA_LOGICAL : Z := - 2 ^ 31.

Definition ScalarInteger (x : Z) : SEXP := IntVec [int_of_long x].

Definition ScalarReal (x : double) : SEXP := RealVec [Rdbl x].

(** [ScalarLogical] keeps [NA_LOGICAL] and maps every other non-zero
    value to [TRUE]. *)
Definition ScalarLogical (x : Z) : SEXP :=
  let i := int_of_long x in
  LglVec [if i =? NA_LOGICAL then NA_LOGICAL else if i =? 0 then 0 else 1].

(** The coercions the column fill applies to a decoded scalar.  Only the
    first case of each arises (lemma [px_to_sexp_fits_column]); the
    other cases stand for R's general coercion, which is not spelled out. *)
Definition asInteger (x : SEXP) : Z :=
  match x with IntVec (n :: _) => n | _ => NA_INTEGER end.

Definition asReal (x : SEXP) : Rdouble :=
  match x with RealVec (d :: _) => d | _ => NA_REAL end.

Definition asLogical (x : SEXP) : Z :=
  match x with LglVec (b :: _) => b | _ => NA_LOGICAL end.

(** ** Effects *)

Inductive r_error :=
| ErrFilename            (* "Filename must be a single, non-NA character string." *)
| ErrPassword            (* "Password must be NULL or a single, non-NA character string." *)
| ErrPXNew               (* "Failed to allocate new pxdoc_t object via PX_new()." *)
| ErrPasswordProtected   (* "File is password protected. Provide 'password' argument." *)
| ErrIncorrectPassword   (* "Incorrect password." *)
| ErrFieldDefinitions    (* "Could not retrieve field definitions from Paradox file." *)
| ErrRetrieveRecord (n : Z)  (* "Failed to retrieve record #%d." *)
| ErrClosedOrInvalid     (* "The Paradox file connection is closed or invalid. ..." *)
| ErrEmbeddedNul         (* R: "embedded nul in string" *)
| ErrNegativeLength.     (* R: "negative length vectors are not allowed" *)

Inductive r_warning :=
| WarnOpenFailed (filename : list byte)
| WarnUnhandledFieldType (t : px_fieldtype)
| WarnUnhandledColumn (j i : Z).

(** What C leaves undefined and the code can reach. *)
Inductive fault :=
| NullDereference
| ReadOutOfBounds
| UseAfterDelete.

Inductive backend_call :=
| CallPXnew (d : positive)
| CallPXopen (d : positive) (filename : list byte) (status : Z)
| CallPXclose (d : positive)
| CallPXdelete (d : positive).

Record world := World {
  (** the address field of each R external pointer object *)
  extptr_addr : gmap positive (option positive);
  (** the backend documents between [PX_new] and [PX_delete] *)
  pxdocs : gmap positive pxdoc_t;
  (** what the backend finds on disk under a file name *)
  files : list byte -> option pxdoc_t;
  (** whether [PX_new] finds memory *)
  px_new_succeeds : bool;
  (** the calls made to the backend, oldest first *)
  calls : list backend_call;
  (** the buffers passed to [pxdoc->free], oldest first *)
  freed : list addr;
  (** the warnings signalled, oldest first *)
  warnings : list r_warning
}.

Definition set_extptr_addr (f : gmap positive (option positive) -> gmap positive (option positive))
    (w : world) : world :=
  World (f (extptr_addr w)) (pxdocs w) (files w) (px_new_succeeds w)
        (calls w) (freed w) (warnings w).

Definition set_pxdocs (f : gmap positive pxdoc_t -> gmap positive pxdoc_t)
    (w : world) : world :=
  World (extptr_addr w) (f (pxdocs w)) (files w) (px_new_succeeds w)
        (calls w) (freed w) (warnings w).

Definition log_call (c : backend_call) (w : world) : world :=
  World (extptr_addr w) (pxdocs w) (files w) (px_new_succeeds w)
        (calls w ++ [c]) (freed w) (warnings w).

Definition log_free (a : addr) (w : world) : world :=
  World (extptr_addr w) (pxdocs w) (files w) (px_new_succeeds w)
        (calls w) (freed w ++ [a]) (warnings w).

Definition log_warning (x : r_warning) (w : world) : world :=
  World (extptr_addr w) (pxdocs w) (files w) (px_new_succeeds w)
        (calls w) (freed w) (warnings w ++ [x]).

(** How a call ends: it returns, it leaves through [Rf_error] (a long
    jump to R's top level), or it has no defined behaviour. *)
Inductive outcome (A : Type) :=
| Done (a : A)
| Raised (e : r_error)
| Undefined (f : fault).
Arguments Done {A} a.
Arguments Raised {A} e.
Arguments Undefined {A} f.

Definition M (A : Type) : Type := world -> outcome A * world.

#[global] Instance M_ret : MRet M := fun A a w => (Done a, w).

#[global] Instance M_bind : MBind M := fun A B k m w =>
  match m w with
  | (Done a, w') => k a w'
  | (Raised e, w') => (Raised e, w')
  | (Undefined f, w') => (Undefined f, w')
  end.

Definition Rf_error {A} (e : r_error) : M A := fun w => (Raised e, w).

Definition undefined {A} (f : fault) : M A := fun w => (Undefined f, w).

Definition Rf_warning (x : r_warning) : M unit :=
  fun w => (Done tt, log_warning x w).

Definition modify (f : world -> world) : M unit := fun w => (Done tt, f w).

Definition gets {A} (f : world -> A) : M A := fun w => (Done (f w), w).

(** [for (i = start; i < start + n; i++) body], threading the local [a]. *)
Fixpoint for_loop {A} (n : nat) (start : nat) (body : nat -> A -> M A) (a : A) : M A :=
  match n with
  | O => mret a
  | S n' => a' ← body start a; for_loop n' (S start) body a'
  end.

(** ** The R and backend primitives the code calls *)

(** Modelled from the spec: [pxdoc->free(pxdoc, p)], the backend's
    release call for a buffer; releasing [NULL] does nothing. *)
Definition pxdoc_free (p : char_ptr) : M unit :=
  match p with
  | None => mret tt
  | Some b => modify (log_free (buf_addr b))
  end.

(** R's [mkChar(p)] scans to the terminator. *)
Definition mkChar (p : char_ptr) : M SEXP :=
  match p with
  | None => undefined NullDereference
  | Some b =>
      match c_string (buf_bytes b) with
      | None => undefined ReadOutOfBounds
      | Some s => mret (CharSxp s)
      end
  end.

(** R's [mkCharLen(p, len)] reads [len] bytes and raises an error when
    one of them is zero (R strings hold no zero byte); a negative length
    is refused by the allocation. *)
Definition mkCharLen (p : char_ptr) (len : Z) : M SEXP :=
  if len <? 0 then Rf_error ErrNegativeLength
  else if len =? 0 then mret (CharSxp [])
  else match p with
       | None => undefined NullDereference
       | Some b =>
           if Z.of_nat (length (buf_bytes b)) <? len then undefined ReadOutOfBounds
           else
             let s := take (Z.to_nat len) (buf_bytes b) in
             if existsb (Byte.eqb x00) s then Rf_error ErrEmbeddedNul
             else mret (CharSxp s)
       end.

(** C's [strcmp(p, lit)] for a string literal [lit]. *)
Definition strcmp (p : char_ptr) (lit : list byte) : M Z :=
  match p with
  | None => undefined NullDereference
  | Some b =>
      match c_string (buf_bytes b) with
      | None => undefined ReadOutOfBounds
      | Some s => mret (strcmp_bytes s lit)
      end
  end.

(** The vector [allocVector(type, n)] returns.  R fills lists with
    [R_NilValue] and character vectors with the empty string; the cells of
    the other vectors are not initialised, and stand as zeros here. *)
Definition fresh_vector (type : SEXPTYPE) (n : nat) : SEXP :=
  match type with
  | VECSXP => ListVec (replicate n R_NilValue)
  | STRSXP => StrVec (replicate n (CharSxp []))
  | INTSXP => IntVec (replicate n 0)
  | REALSXP => RealVec (replicate n (Rdbl 0%float))
  | LGLSXP => LglVec (replicate n 0)
  | RAWSXP => RawVec (replicate n x00)
  | _ => R_NilValue
  end.

Definition allocVector (type : SEXPTYPE) (n : Z) : M SEXP :=
  if n <? 0 then Rf_error ErrNegativeLength
  else mret (fresh_vector type (Z.to_nat n)).

(** [memcpy(RAW(raw_vec), p, len)] for [0 < len]: the bytes now in the
    raw vector. *)
Definition memcpy_raw (p : char_ptr) (len : Z) : M SEXP :=
  match p with
  | None => undefined NullDereference
  | Some b =>
      if Z.of_nat (length (buf_bytes b)) <? len then undefined ReadOutOfBounds
      else mret (RawVec (take (Z.to_nat len) (buf_bytes b)))
  end.

(** ** [px_to_sexp] (interface.c, lines 365-451) *)

Definition BCD_BLANK : list byte :=
  list_byte_of_string "-??????????????????????????.??????".

Definition PARADOX_DATE_UPPER_BOUND : Z := 3000000.

Definition px_to_sexp (val : pxval_t) (px_ftype : px_fieldtype) : M SEXP :=
  if isnull val then mret R_NilValue
  else
    match px_ftype with
    | pxfAlpha =>
        match str_val val with
        | None => mret NA_STRING
        | Some _ =>
            r_string ← mkChar (str_val val);
            pxdoc_free (str_val val);;
            mret r_string
        end
    | pxfBCD =>
        c ← strcmp (str_val val) BCD_BLANK;
        if c =? 0 then
          pxdoc_free (str_val val);;
          mret R_NilValue
        else
          r_string ← mkChar (str_val val);
          pxdoc_free (str_val val);;
          mret r_string
    | pxfMemoBLOb | pxfFmtMemoBLOb =>
        match str_val val with
        | None => mret R_NilValue
        | Some _ =>
            memo_string ← mkCharLen (str_val val) (str_len val);
            pxdoc_free (str_val val);;
            mret memo_string
        end
    | pxfBytes =>
        r_string ← mkCharLen (str_val val) (str_len val);
        pxdoc_free (str_val val);;
        mret r_string
    | pxfBLOb | pxfGraphic | pxfOLE =>
        if str_len val =? 0 then
          match str_val val with
          | Some _ => pxdoc_free (str_val val)
          | None => mret tt
          end;;
          mret R_NilValue
        else
          _ ← allocVector RAWSXP (str_len val);
          raw_vec ← memcpy_raw (str_val val) (str_len val);
          pxdoc_free (str_val val);;
          mret raw_vec
    | pxfShort | pxfLong | pxfAutoInc =>
        mret (ScalarInteger (lval val))
    | pxfNumber | pxfCurrency =>
        mret (ScalarReal (dval val))
    | pxfLogical =>
        mret (ScalarLogical (lval val))
    | pxfDate =>
        let date_val := lval val in
        if (date_val <=? 0) || (date_val >? PARADOX_DATE_UPPER_BOUND) then
          mret R_NilValue
        else mret (ScalarReal (double_of_long date_val - 719163)%float)
    | pxfTime =>
        if lval val <? 0 then mret R_NilValue
        else mret (ScalarReal (double_of_long (lval val) / 1000)%float)
    | pxfTimestamp =>
        let paradox_seconds := (dval val / 1000)%float in
        if (dval val =? 0)%float || (paradox_seconds <? 0)%float then
          mret R_NilValue
        else mret (ScalarReal (paradox_seconds - 719163 * 86400)%float)
    | pxfOther _ =>
        Rf_warning (WarnUnhandledFieldType px_ftype);;
        mret R_NilValue
    end.

(** ** The backend calls

    The backend (pxlib's [paradox.c]) is not among the sources; the spec
    lists what the code consumes from it: "new_document(), open(doc, path)
    -> status, close(doc), delete(doc), ..., record_count(doc),
    field_count(doc), fields(doc) -> descriptor list, retrieve_record(doc,
    index) -> raw value array | null".  Every call on a document that has
    been deleted is a use of released memory. *)

(** Modelled from the spec: [PX_new()], "new_document()": a document with
    no file, or [NULL] when there is no memory. *)
Definition PX_new : M (option positive) := fun w =>
  if px_new_succeeds w then
    let d := fresh (dom (pxdocs w)) in
    (Done (Some d),
     log_call (CallPXnew d) (set_pxdocs <[d := PxDoc None (fun _ => None)]> w))
  else (Done None, w).

(** Modelled from the spec: [PX_open_file(pxdoc, filename)], "open(doc,
    path) -> status": 0 and the file's content in the document, or a
    non-zero status. *)
Definition PX_open_file (d : positive) (filename : list byte) : M Z := fun w =>
  match pxdocs w !! d with
  | None => (Undefined UseAfterDelete, w)
  | Some _ =>
      match files w filename with
      | Some doc =>
          (Done 0, log_call (CallPXopen d filename 0) (set_pxdocs <[d := doc]> w))
      | None => (Done (-1), log_call (CallPXopen d filename (-1)) w)
      end
  end.

(** Modelled from the spec: [PX_close(pxdoc)], "close(doc)": the
    document is left without file and header. *)
Definition PX_close (d : positive) : M unit := fun w =>
  match pxdocs w !! d with
  | None => (Undefined UseAfterDelete, w)
  | Some doc =>
      (Done tt,
       log_call (CallPXclose d)
         (set_pxdocs <[d := PxDoc None (fun _ => None)]> w))
  end.

(** Modelled from the spec: [PX_delete(pxdoc)], "delete(doc)": the
    document is released. *)
Definition PX_delete (d : positive) : M unit := fun w =>
  match pxdocs w !! d with
  | None => (Undefined UseAfterDelete, w)
  | Some _ => (Done tt, log_call (CallPXdelete d) (set_pxdocs (delete d) w))
  end.

(** [pxdoc->px_head->field] *)
Definition px_head_field {A} (d : positive) (field : pxhead_t -> A) : M A := fun w =>
  match pxdocs w !! d with
  | None => (Undefined UseAfterDelete, w)
  | Some doc =>
      match px_head doc with
      | None => (Undefined NullDereference, w)
      | Some h => (Done (field h), w)
      end
  end.

(** Modelled from the spec: [PX_get_num_records], [PX_get_num_fields] and
    [PX_get_fields], "record_count(doc), field_count(doc), fields(doc) ->
    descriptor list", read from the header; without a header (which the
    spec does not cover) they answer -1, -1 and [NULL]. *)
Definition PX_get {A} (d : positive) (field : pxhead_t -> A) (none : A) : M A := fun w =>
  match pxdocs w !! d with
  | None => (Undefined UseAfterDelete, w)
  | Some doc =>
      match px_head doc with
      | None => (Done none, w)
      | Some h => (Done (field h), w)
      end
  end.

Definition PX_get_num_records (d : positive) : M Z := PX_get d px_numrecords (-1).
Definition PX_get_num_fields (d : positive) : M Z := PX_get d px_numfields (-1).
Definition PX_get_fields (d : positive) : M (option (list pxfield_t)) :=
  PX_get d px_fields None.

(** Modelled from the spec: [PX_retrieve_record(pxdoc, recno)],
    "retrieve_record(doc, index) -> raw value array | null". *)
Definition PX_retrieve_record (d : positive) (recno : Z) : M (option (list pxval_t)) := fun w =>
  match pxdocs w !! d with
  | None => (Undefined UseAfterDelete, w)
  | Some doc => (Done (px_records doc recno), w)
  end.

(** ** R's external pointers

    An external pointer is an R object with an address field; every copy
    of the handle R code holds is the same object, so the field is kept
    in the world under the object's identity. *)

Definition R_ExternalPtrAddr (id : positive) : M (option positive) :=
  gets (fun w => default None (extptr_addr w !! id)).

Definition R_ClearExternalPtr (id : positive) : M unit :=
  modify (set_extptr_addr <[id := None]>).

Definition R_MakeExternalPtr (d : positive) : M SEXP := fun w =>
  let id := fresh (dom (extptr_addr w)) in
  (Done (ExtPtr id), set_extptr_addr <[id := Some d]> w).

(** ** The session functions (interface.c, lines 38-162 and 462-468)

    R runs [pxdoc_finalizer] on a handle when its owner is collected or
    the session ends; here it is a call like any other.  The class
    attribute [pxlib_open_file_c] sets on the handle, the cached class
    vectors and the protection of objects from the collector have no
    bearing on what follows and are left out. *)

Definition pxdoc_finalizer (extptr : SEXP) : M unit :=
  match extptr with
  | ExtPtr id =>
      pxdoc ← R_ExternalPtrAddr id;
      match pxdoc with
      | Some d =>
          PX_delete d;;
          R_ClearExternalPtr id
      | None => mret tt
      end
  | _ => mret tt
  end.

Definition check_pxdoc_ptr (pxdoc_extptr : SEXP) : M (option positive) :=
  match pxdoc_extptr with
  | ExtPtr id =>
      a ← R_ExternalPtrAddr id;
      match a with
      | None => Rf_error ErrClosedOrInvalid
      | Some _ => R_ExternalPtrAddr id
      end
  | _ => Rf_error ErrClosedOrInvalid
  end.

Definition pxlib_close_file_c (pxdoc_extptr : SEXP) : M SEXP :=
  pxdoc ← check_pxdoc_ptr pxdoc_extptr;
  match pxdoc, pxdoc_extptr with
  | Some d, ExtPtr id =>
      PX_delete d;;
      R_ClearExternalPtr id
  | _, _ => mret tt
  end;;
  mret R_NilValue.

(** An argument that is a character vector of length one whose element
    is not [NA_STRING]: its string. *)
Definition single_string (x : SEXP) : option (list byte) :=
  match x with
  | StrVec [CharSxp s] => Some s
  | _ => None
  end.

Section Session.

(** Modelled from the spec: [px_passwd_checksum] of [px_crypt.c], which is
    not among the sources, "computes a deterministic checksum" from the
    password: any function, a parameter of the open function. *)
Variable px_passwd_checksum : list byte -> Z.

Definition pxlib_open_file_c (filename_sexp password_sexp : SEXP) : M SEXP :=
  match single_string filename_sexp with
  | None => Rf_error ErrFilename
  | Some filename =>
      password ←
        (if Rf_isNull password_sexp then mret None
         else match single_string password_sexp with
              | None => Rf_error ErrPassword
              | Some p => mret (Some p)
              end);
      pxdoc ← PX_new;
      match pxdoc with
      | None => Rf_error ErrPXNew
      | Some d =>
          status ← PX_open_file d filename;
          if negb (status =? 0) then
            PX_delete d;;
            Rf_warning (WarnOpenFailed filename);;
            mret R_NilValue
          else
            encryption ← px_head_field d px_encryption;
            (if negb (encryption =? 0) then
               match password with
               | None =>
                   PX_close d;;
                   PX_delete d;;
                   Rf_error ErrPasswordProtected
               | Some pw =>
                   let checksum := px_passwd_checksum pw in
                   if negb (ulong_of_long checksum =? encryption) then
                     PX_close d;;
                     PX_delete d;;
                     Rf_error ErrIncorrectPassword
                   else mret tt
               end
             else mret tt);;
            R_MakeExternalPtr d
      end
  end.

End Session.

(** ** [pxlib_get_data_c] (interface.c, lines 222-355) *)

(** The [switch] of step 1. *)
Definition column_type (t : px_fieldtype) : SEXPTYPE :=
  match t with
  | pxfBLOb | pxfOLE | pxfGraphic | pxfBytes => VECSXP
  | pxfShort | pxfLong | pxfAutoInc => INTSXP
  | pxfNumber | pxfCurrency | pxfDate | pxfTime | pxfTimestamp => REALSXP
  | pxfLogical => LGLSXP
  | pxfAlpha | pxfMemoBLOb | pxfFmtMemoBLOb | pxfBCD | pxfOther _ => STRSXP
  end.

(** [a[j]] for a C array [a]. *)
Definition index {A} (a : list A) (j : nat) : M A :=
  match a !! j with
  | Some x => mret x
  | None => undefined ReadOutOfBounds
  end.

Definition VECTOR_ELT (x : SEXP) (j : nat) : M SEXP :=
  match x with
  | ListVec xs => index xs j
  | _ => undefined ReadOutOfBounds
  end.

Definition SET_VECTOR_ELT (x : SEXP) (j : nat) (v : SEXP) : SEXP :=
  match x with
  | ListVec xs => ListVec (<[j := v]> xs)
  | _ => x
  end.

(** Step 1: one column per field. *)
Definition alloc_columns (fields : list pxfield_t) (num_fields num_records : Z)
    (data_list : SEXP) : M SEXP :=
  for_loop (Z.to_nat num_fields) 0 (fun j data_list =>
    f ← index fields j;
    column ← allocVector (column_type (px_ftype f)) num_records;
    mret (SET_VECTOR_ELT data_list j column)) data_list.

(** The column of a field, as step 1 allocates it. *)
Definition fresh_column (num_records : Z) (f : pxfield_t) : SEXP :=
  fresh_vector (column_type (px_ftype f)) (Z.to_nat num_records).

(** The [switch] on [TYPEOF(column)] of step 2: the column with the
    decoded value at position [i].  The value is one [px_to_sexp]
    returned, of the kind the column takes (lemma
    [px_to_sexp_fits_column]); what R's [SET_STRING_ELT] and coercions
    do with a value of another kind is not spelled out. *)
Definition store_value (column : SEXP) (i j : nat) (r_val : SEXP) : M SEXP :=
  match column with
  | ListVec xs => mret (ListVec (<[i := r_val]> xs))
  | StrVec xs =>
      mret (StrVec (<[i := if Rf_isNull r_val then NA_STRING else r_val]> xs))
  | IntVec xs =>
      mret (IntVec (<[i := if Rf_isNull r_val then NA_INTEGER else asInteger r_val]> xs))
  | RealVec xs =>
      mret (RealVec (<[i := if Rf_isNull r_val then NA_REAL else asReal r_val]> xs))
  | LglVec xs =>
      mret (LglVec (<[i := if Rf_isNull r_val then NA_LOGICAL else asLogical r_val]> xs))
  | _ =>
      Rf_warning (WarnUnhandledColumn (Z.of_nat j + 1) (Z.of_nat i + 1));;
      mret column
  end.

(** The inner loop of step 2, over the values of record [i].  (The
    [FREE_PXVAL] that ends its body and the [pxdoc->free] that follows
    the loop are the per-value and per-array release calls of the
    backend: they release the value structures and their array, not the
    buffers, and the model does not track them.) *)
Definition fill_record (fields : list pxfield_t) (num_fields : Z)
    (record_values : list pxval_t) (i : nat) (data_list : SEXP) : M SEXP :=
  for_loop (Z.to_nat num_fields) 0 (fun j data_list =>
    val ← index record_values j;
    f ← index fields j;
    r_val ← px_to_sexp val (px_ftype f);
    column ← VECTOR_ELT data_list j;
    column' ← store_value column i j r_val;
    mret (SET_VECTOR_ELT data_list j column')) data_list.

(** The body of the outer loop of step 2. *)
Definition fill_step (d : positive) (fields : list pxfield_t) (num_fields : Z)
    (i : nat) (data_list : SEXP) : M SEXP :=
  record_values ← PX_retrieve_record d (Z.of_nat i);
  match record_values with
  | None => Rf_error (ErrRetrieveRecord (Z.of_nat i + 1))
  | Some record_values => fill_record fields num_fields record_values i data_list
  end.

Definition fill_records (d : positive) (fields : list pxfield_t)
    (num_fields num_records : Z) (data_list : SEXP) : M SEXP :=
  for_loop (Z.to_nat num_records) 0 (fill_step d fields num_fields) data_list.

(** Step 3: the column names. *)
Definition column_names (fields : list pxfield_t) (num_fields : Z) : M (list SEXP) :=
  for_loop (Z.to_nat num_fields) 0 (fun j col_names =>
    f ← index fields j;
    mret (<[j := CharSxp (px_fname f)]> col_names))
    (replicate (Z.to_nat num_fields) (CharSxp [])).

Definition attributes := list (string * SEXP).

Definition mkString (s : string) : SEXP := StrVec [CharSxp (list_byte_of_string s)].

Definition class_hms : SEXP :=
  StrVec [CharSxp (list_byte_of_string "hms"); CharSxp (list_byte_of_string "difftime")].

Definition class_posixct : SEXP :=
  StrVec [CharSxp (list_byte_of_string "POSIXct"); CharSxp (list_byte_of_string "POSIXt")].

(** The [switch] of step 4: the attributes set on a column. *)
Definition column_attributes (t : px_fieldtype) : attributes :=
  match t with
  | pxfDate => [("class"%string, mkString "Date")]
  | pxfTime => [("class"%string, class_hms); ("units"%string, mkString "secs")]
  | pxfTimestamp => [("class"%string, class_posixct); ("tzone"%string, mkString "UTC")]
  | _ => []
  end.

(** Step 4, over all columns. *)
Definition all_column_attributes (fields : list pxfield_t) (num_fields : Z)
    : M (list attributes) :=
  for_loop (Z.to_nat num_fields) 0 (fun j attrs =>
    f ← index fields j;
    mret (<[j := column_attributes (px_ftype f)]> attrs))
    (replicate (Z.to_nat num_fields) []).

(** What [pxlib_get_data_c] returns when it is not [R_NilValue]: the list
    of columns, its [names] attribute and the attributes of each column. *)
Record dataset := Dataset {
  ds_columns : SEXP;
  ds_names : list SEXP;
  ds_attributes : list attributes
}.

(** [None] is [R_NilValue]. *)
Definition pxlib_get_data_c (pxdoc_extptr : SEXP) : M (option dataset) :=
  pxdoc ← check_pxdoc_ptr pxdoc_extptr;
  match pxdoc with
  | None => undefined NullDereference
  | Some d =>
      num_records ← PX_get_num_records d;
      num_fields ← PX_get_num_fields d;
      if num_records <=? 0 then mret None
      else
        fields ← PX_get_fields d;
        match fields with
        | None => Rf_error ErrFieldDefinitions
        | Some fields =>
            data_list ← allocVector VECSXP num_fields;
            data_list ← alloc_columns fields num_fields num_records data_list;
            data_list ← fill_records d fields num_fields num_records data_list;
            col_names ← column_names fields num_fields;
            attrs ← all_column_attributes fields num_fields;
            mret (Some (Dataset data_list col_names attrs))
        end
  end.

(** ** Sample inputs *)

Definition empty_world : world := World ∅ ∅ (fun _ => None) true [] [] [].

(** A value whose null flag is set, and one with a buffer attached all
    the same. *)
Definition null_value : pxval_t := PxVal true 0 0%float None 0.

Definition null_with_buffer : pxval_t :=
  PxVal true 0 0%float (Some (Buffer 7%positive [x41; x00])) 1.

Definition date_value (n : Z) : pxval_t := PxVal false n 0%float None 0.

Definition timestamp_value (ms : double) : pxval_t := PxVal false 0 ms None 0.

Definition string_value (a : addr) (bytes : list byte) (len : Z) : pxval_t :=
  PxVal false 0 0%float (Some (Buffer a bytes)) len.

(** The blank BCD pattern as the backend stores it, terminator included. *)
Definition BCD_BLANK_terminated : list byte := BCD_BLANK ++ [x00].

Definition null_pointer_value : pxval_t := PxVal false 0 0%float None 0.

(** The field types whose values carry a buffer of the backend. *)
Definition carries_buffer (t : px_fieldtype) : bool :=
  match t with
  | pxfAlpha | pxfBCD | pxfMemoBLOb | pxfFmtMemoBLOb | pxfBytes
  | pxfBLOb | pxfGraphic | pxfOLE => true
  | _ => false
  end.

(** ** An exhaustive check of the date subtraction

    [date_exact_at i] compares, for a day count [i], the double
    subtraction the date branch performs with the conversion of the
    integer difference; [all_from P n i] runs a check over [n] successive
    machine integers from [i]. *)
Definition date_offset : int := 719163%uint63.

Definition date_exact_at (i : int) : bool :=
  PrimFloat.Leibniz.eqb (of_uint63 i - 719163)%float
    (if (date_offset <=? i)%uint63 then of_uint63 (i - date_offset)
     else (- of_uint63 (date_offset - i))%float).

Fixpoint all_from (P : int -> bool) (n : nat) (i : int) : bool :=
  match n with
  | O => true
  | S n' => if P i then all_from P n' (i + 1)%uint63 else false
  end.

(** What the decoder needs of a buffer to read it within bounds and to
    have R accept what it read: a terminator for the two types read as C
    strings; for the types read by length, a length within the block and,
    where the bytes become a character string, no zero byte among them. *)
Definition readable (t : px_fieldtype) (val : pxval_t) (b : buffer) : Prop :=
  match t with
  | pxfAlpha | pxfBCD => is_Some (c_string (buf_bytes b))
  | pxfMemoBLOb | pxfFmtMemoBLOb | pxfBytes =>
      0 <= str_len val <= Z.of_nat (length (buf_bytes b)) /\
      existsb (Byte.eqb x00) (take (Z.to_nat (str_len val)) (buf_bytes b)) = false
  | pxfBLOb | pxfGraphic | pxfOLE =>
      0 <= str_len val <= Z.of_nat (length (buf_bytes b))
  | _ => False
  end.

(** Whether a decoded value is of the kind the column of type [type]
    takes. *)
Definition fits_column (t : px_fieldtype) (r : SEXP) : Prop :=
  r = R_NilValue \/
  match column_type t with
  | INTSXP => exists n, r = IntVec [n]
  | REALSXP => exists d, r = RealVec [Rdbl d]
  | LGLSXP => exists b, r = LglVec [b]
  | STRSXP => r = NA_STRING \/ exists s, r = CharSxp s
  | VECSXP => (exists bytes, r = RawVec bytes) \/ (t = pxfBytes /\ exists s, r = CharSxp s)
  | _ => False
  end.

(** A handle on a file of one record with one inline binary field, whose
    three bytes have a zero in the middle. *)
Definition bytes_field_world : world :=
  World {[1%positive := Some 1%positive]}
        {[1%positive :=
            PxDoc (Some (PxHead 0 866 1 1 (Some [PxField [x42] pxfBytes 3])))
                  (fun i => if i =? 0
                            then Some [string_value 7%positive [x41; x00; x42] 3]
                            else None)]}
        (fun _ => None) true [] [] [].

(** The same with three non-zero bytes. *)
Definition plain_bytes_field_world : world :=
  World {[1%positive := Some 1%positive]}
        {[1%positive :=
            PxDoc (Some (PxHead 0 866 1 1 (Some [PxField [x42] pxfBytes 3])))
                  (fun i => if i =? 0
                            then Some [string_value 7%positive [x41; x42; x43] 3]
                            else None)]}
        (fun _ => None) true [] [] [].

(** A handle that has been closed: its address is cleared. *)
Definition closed_handle_world : world :=
  World {[1%positive := None]} ∅ (fun _ => None) true [] [] [].

(** A handle on an open document. *)
Definition open_handle_world : world :=
  World {[1%positive := Some 1%positive]}
        {[1%positive := PxDoc (Some (PxHead 0 866 0 0 (Some []))) (fun _ => None)]}
        (fun _ => None) true [CallPXnew 1; CallPXopen 1 [x41] 0] [] [].

(** A disk on which every name is a file encrypted with checksum 5. *)
Definition encrypted_disk : world :=
  World ∅ ∅
        (fun _ => Some (PxDoc (Some (PxHead 5 866 0 0 (Some []))) (fun _ => None)))
        true [] [] [].

(** A field whose type code is none of the known ones. *)
Definition unknown_field : pxfield_t := PxField [x58] (pxfOther 99) 1.

(** A handle on a file with one such field and one record, whose value
    has its null flag set. *)
Definition unknown_type_world : world :=
  World {[1%positive := Some 1%positive]}
        {[1%positive :=
            PxDoc (Some (PxHead 0 866 1 1 (Some [unknown_field])))
                  (fun i => if i =? 0 then Some [null_value] else None)]}
        (fun _ => None) true [] [] [].

(** A handle on a file of two records with one long-integer field, whose
    second record cannot be retrieved. *)
Definition second_record_lost_world : world :=
  World {[1%positive := Some 1%positive]}
        {[1%positive :=
            PxDoc (Some (PxHead 0 866 2 1 (Some [PxField [x59] pxfLong 4])))
                  (fun i => if i =? 0 then Some [date_value 7] else None)]}
        (fun _ => None) true [] [] [].

(** * The rest of the package

    The code page and metadata entry points of [interface.c], the
    encoding negotiation of [px_encode.c], and the vocabulary in which
    the further properties of the decoder, the sessions and the dataset
    are stated. *)

(** ** Vocabulary for the decoder *)

(** The field types decoded from the integer or the real member. *)
Definition is_scalar (t : px_fieldtype) : bool :=
  match t with
  | pxfShort | pxfLong | pxfAutoInc | pxfNumber | pxfCurrency | pxfLogical
  | pxfDate | pxfTime | pxfTimestamp => true
  | _ => false
  end.

(** The buffers the decoder hands back to the backend for a value. *)
Definition released (val : pxval_t) (t : px_fieldtype) : list addr :=
  if isnull val then []
  else if carries_buffer t then
    match str_val val with
    | Some b => [buf_addr b]
    | None => []
    end
  else [].

(** The warnings the decoder signals for a value. *)
Definition warned (val : pxval_t) (t : px_fieldtype) : list r_warning :=
  if isnull val then []
  else match t with
       | pxfOther _ => [WarnUnhandledFieldType t]
       | _ => []
       end.

(** The value the decoder returns, when it returns. *)
Definition px_value (val : pxval_t) (t : px_fieldtype) : option SEXP :=
  match fst (px_to_sexp val t empty_world) with
  | Done r => Some r
  | _ => None
  end.

(** [time_exact_at k] compares, for a count [k] of whole seconds, the
    double division the time branch performs on [1000 * k] milliseconds
    with the conversion of [k]. *)
Definition time_exact_at (k : int) : bool :=
  PrimFloat.Leibniz.eqb (of_uint63 (k * 1000) / 1000)%float (of_uint63 k).

(** The number of cells of a vector. *)
Definition LENGTH (x : SEXP) : nat :=
  match x with
  | LglVec xs | IntVec xs => length xs
  | RealVec xs => length xs
  | StrVec xs | ListVec xs => length xs
  | RawVec bytes | CharSxp bytes => length bytes
  | _ => 0
  end.

(** Sample values for the properties below. *)
Definition time_value (ms : Z) : pxval_t := PxVal false ms 0%float None 0.

Definition logical_value (n : Z) : pxval_t := PxVal false n 0%float None 0.

(** ** Cells of a column *)

(** What a cell of a column can hold: an R object in a list or a
    character vector, a C [int] in an integer or a logical vector, a
    double in a real vector. *)
Inductive cell :=
| CellSexp (x : SEXP)
| CellInt (n : Z)
| CellReal (d : Rdouble)
| CellLgl (b : Z).

(** The cell at position [i] of a column. *)
Definition column_cell (column : SEXP) (i : nat) : option cell :=
  match column with
  | ListVec xs | StrVec xs => CellSexp <$> xs !! i
  | IntVec xs => CellInt <$> xs !! i
  | RealVec xs => CellReal <$> xs !! i
  | LglVec xs => CellLgl <$> xs !! i
  | _ => None
  end.

(** The cell step 2 writes into a column of type [type] for a decoded
    value. *)
Definition stored_cell (type : SEXPTYPE) (r_val : SEXP) : cell :=
  match type with
  | STRSXP => CellSexp (if Rf_isNull r_val then NA_STRING else r_val)
  | INTSXP => CellInt (if Rf_isNull r_val then NA_INTEGER else asInteger r_val)
  | REALSXP => CellReal (if Rf_isNull r_val then NA_REAL else asReal r_val)
  | LGLSXP => CellLgl (if Rf_isNull r_val then NA_LOGICAL else asLogical r_val)
  | _ => CellSexp r_val
  end.

(** ** [pxlib_get_codepage_c] (interface.c, lines 174-185) *)

(** The character of the decimal digit [d]. *)
Definition digit (d : Z) : byte := default x30 (Byte.of_N (48 + Z.to_N d)).

(** The decimal digits of [n], for [0 <= n], in front of [acc]; [fuel]
    bounds their number. *)
Fixpoint decimal (fuel : nat) (n : Z) (acc : list byte) : list byte :=
  match fuel with
  | O => acc
  | S fuel' =>
      let acc' := digit (n mod 10) :: acc in
      if n <? 10 then acc' else decimal fuel' (n / 10) acc'
  end.

(** What the conversion [%d] prints for an [int], which has at most ten
    digits. *)
Definition printf_d (n : Z) : list byte :=
  if n <? 0 then x2d :: decimal 10 (- n) [] else decimal 10 n [].

(** The content of [buffer] after [snprintf(buffer, size, "CP%d", n)]: at
    most [size - 1] bytes of the text, and the terminator. *)
Definition snprintf_CP (size : nat) (n : Z) : list byte :=
  take (size - 1) ([x43; x50] ++ printf_d n) ++ [x00].

(** R's [mkString(buffer)] for a local array. *)
Definition mkString_buffer (buffer : list byte) : M SEXP :=
  match c_string buffer with
  | Some s => mret (StrVec [CharSxp s])
  | None => undefined ReadOutOfBounds
  end.

Definition pxlib_get_codepage_c (pxdoc_extptr : SEXP) : M SEXP :=
  pxdoc ← check_pxdoc_ptr pxdoc_extptr;
  match pxdoc with
  | None => undefined NullDereference
  | Some d =>
      codepage ← px_head_field d (fun h => int_of_long (px_doscodepage h));
      if 0 <? codepage then mkString_buffer (snprintf_CP 30 codepage)
      else mret R_NilValue
  end.

(** Reading a code page name back: the value of a digit, and the number
    a string of digits denotes. *)
Definition digit_value (b : byte) : Z := Z.of_N (Byte.to_N b) - 48.

Definition is_digit (b : byte) : bool :=
  (0 <=? digit_value b) && (digit_value b <=? 9).

Definition read_decimal (s : list byte) : Z :=
  fold_left (fun acc b => 10 * acc + digit_value b) s 0.

(** ** [pxlib_get_metadata_c] (interface.c, lines 481-548) *)

Definition names_metadata : SEXP :=
  StrVec [CharSxp (list_byte_of_string "num_records");
          CharSxp (list_byte_of_string "num_fields");
          CharSxp (list_byte_of_string "fields")].

Definition names_fields : SEXP :=
  StrVec [CharSxp (list_byte_of_string "name");
          CharSxp (list_byte_of_string "type");
          CharSxp (list_byte_of_string "size")].

Definition SET_STRING_ELT (x : SEXP) (i : nat) (v : SEXP) : SEXP :=
  match x with
  | StrVec xs => StrVec (<[i := v]> xs)
  | _ => x
  end.

(** [INTEGER(x)[i] = v] *)
Definition SET_INTEGER (x : SEXP) (i : nat) (v : Z) : SEXP :=
  match x with
  | IntVec xs => IntVec (<[i := v]> xs)
  | _ => x
  end.

(** What [pxlib_get_metadata_c] returns: the list of the record count,
    the field count and the list of the three columns of the field
    table; the [names] attribute of the list; the [names], [row.names]
    and [class] attributes of the field table. *)
Record metadata := Metadata {
  md_list : SEXP;
  md_names : SEXP;
  md_fields_names : SEXP;
  md_fields_row_names : SEXP;
  md_fields_class : SEXP
}.

Section Metadata.

(** Modelled from the spec: the numeric value of a field type in
    [paradox.h], the "declared type code" the field table reports. *)
Variable px_ftype_code : px_fieldtype -> Z.

(** The loop over the fields; [fields] is the pointer the backend
    returned. *)
Definition metadata_columns (fields : option (list pxfield_t)) (num_fields : Z)
    (cols : SEXP * SEXP * SEXP) : M (SEXP * SEXP * SEXP) :=
  for_loop (Z.to_nat num_fields) 0 (fun i '(name_col, type_col, size_col) =>
    f ← match fields with
        | None => undefined NullDereference
        | Some fields => index fields i
        end;
    mret (SET_STRING_ELT name_col i (CharSxp (px_fname f)),
          SET_INTEGER type_col i (px_ftype_code (px_ftype f)),
          SET_INTEGER size_col i (px_flen f))) cols.

(** The two vectors of names are built on the first call and kept; they
    are the same on every call, and stand here as constants. *)
Definition pxlib_get_metadata_c (pxdoc_extptr : SEXP) : M metadata :=
  pxdoc ← check_pxdoc_ptr pxdoc_extptr;
  match pxdoc with
  | None => undefined NullDereference
  | Some d =>
      num_fields ← PX_get_num_fields d;
      fields ← PX_get_fields d;
      (match fields with
       | None => if 0 <? num_fields then Rf_error ErrFieldDefinitions else mret tt
       | Some _ => mret tt
       end);;
      result_list ← allocVector VECSXP 3;
      num_records ← PX_get_num_records d;
      let result_list := SET_VECTOR_ELT result_list 0 (ScalarInteger num_records) in
      let result_list := SET_VECTOR_ELT result_list 1 (ScalarInteger num_fields) in
      fields_df ← allocVector VECSXP 3;
      name_col ← allocVector STRSXP num_fields;
      type_col ← allocVector INTSXP num_fields;
      size_col ← allocVector INTSXP num_fields;
      '(name_col, type_col, size_col) ←
        metadata_columns fields num_fields (name_col, type_col, size_col);
      let fields_df := SET_VECTOR_ELT fields_df 0 name_col in
      let fields_df := SET_VECTOR_ELT fields_df 1 type_col in
      let fields_df := SET_VECTOR_ELT fields_df 2 size_col in
      let row_names := IntVec [NA_INTEGER; - num_fields] in
      let result_list := SET_VECTOR_ELT result_list 2 fields_df in
      mret (Metadata result_list names_metadata names_fields row_names
                     (mkString "data.frame"))
  end.

End Metadata.

(** ** Sessions *)

(** The calls R code can make into the package, and the finalizer R
    runs. *)
Inductive api_call :=
| CallOpen (filename password : SEXP)
| CallClose (handle : SEXP)
| CallFinalizer (handle : SEXP)
| CallGetCodepage (handle : SEXP)
| CallGetMetadata (handle : SEXP)
| CallGetData (handle : SEXP).

Section Calls.

Variable px_passwd_checksum : list byte -> Z.
Variable px_ftype_code : px_fieldtype -> Z.

(** A call, its result dropped. *)
Definition run_call (c : api_call) : M unit :=
  match c with
  | CallOpen filename password =>
      pxlib_open_file_c px_passwd_checksum filename password;; mret tt
  | CallClose handle => pxlib_close_file_c handle;; mret tt
  | CallFinalizer handle => pxdoc_finalizer handle
  | CallGetCodepage handle => pxlib_get_codepage_c handle;; mret tt
  | CallGetMetadata handle => pxlib_get_metadata_c px_ftype_code handle;; mret tt
  | CallGetData handle => pxlib_get_data_c handle;; mret tt
  end.

(** The worlds a session reaches from [w0]: after each call R goes on,
    whether the call returned or raised an error. *)
Inductive reachable (w0 : world) : world -> Prop :=
| reachable_start : reachable w0 w0
| reachable_call (c : api_call) (w w' : world) (o : outcome unit) :
    reachable w0 w ->
    run_call c w = (o, w') ->
    (forall f, o <> Undefined f) ->
    reachable w0 w'.

End Calls.

(** Every address held by a handle is a document of the backend with a
    header, and no two handles hold the same address. *)
Definition handles_live (w : world) : Prop :=
  forall id d,
    extptr_addr w !! id = Some (Some d) ->
    (exists doc, pxdocs w !! d = Some doc /\ is_Some (px_head doc)) /\
    (forall id', extptr_addr w !! id' = Some (Some d) -> id' = id).

(** Every document of the backend is held by a handle. *)
Definition documents_held (w : world) : Prop :=
  forall d, is_Some (pxdocs w !! d) ->
    exists id, extptr_addr w !! id = Some (Some d).

(** What a call does to the handles and the documents: nothing, or it
    adds a new handle on a new document, or it releases the document of
    a live handle and clears the handle. *)
Inductive session_step (w w' : world) : Prop :=
| step_same :
    extptr_addr w' = extptr_addr w -> pxdocs w' = pxdocs w ->
    session_step w w'
| step_opened (doc : pxdoc_t) :
    is_Some (px_head doc) ->
    extptr_addr w'
    = <[fresh (dom (extptr_addr w)) := Some (fresh (dom (pxdocs w)))]>
        (extptr_addr w) ->
    pxdocs w' = <[fresh (dom (pxdocs w)) := doc]> (pxdocs w) ->
    session_step w w'
| step_released (id d : positive) :
    extptr_addr w !! id = Some (Some d) ->
    extptr_addr w' = <[id := None]> (extptr_addr w) ->
    pxdocs w' = delete d (pxdocs w) ->
    session_step w w'.

(** What the backend finds on disk has a header once it is open. *)
Definition files_have_headers (w : world) : Prop :=
  forall filename doc, files w filename = Some doc -> is_Some (px_head doc).

(** The calls that take part in a session's bookkeeping of documents. *)
Definition is_session_call (c : api_call) : bool :=
  match c with
  | CallOpen _ _ | CallClose _ | CallFinalizer _ | CallGetCodepage _ => true
  | _ => false
  end.

(** Whether a password argument is accepted for an encryption value. *)
Definition accepted (px_passwd_checksum : list byte -> Z) (encryption : Z)
    (password : option (list byte)) : bool :=
  (encryption =? 0) ||
  match password with
  | Some pw => ulong_of_long (px_passwd_checksum pw) =? encryption
  | None => false
  end.

(** The argument R passes for a password, or for none. *)
Definition password_sexp (password : option (list byte)) : SEXP :=
  match password with
  | Some pw => StrVec [CharSxp pw]
  | None => R_NilValue
  end.

(** The document a handle argument stands for: the address of an
    external pointer when it is not [NULL]. *)
Definition live_handle (w : world) (x : SEXP) : option positive :=
  match x with
  | ExtPtr id => default None (extptr_addr w !! id)
  | _ => None
  end.

(** The world after the document [d] of the handle [id] was released. *)
Definition released_world (id d : positive) (w : world) : world :=
  set_extptr_addr <[id := None]>
    (log_call (CallPXdelete d) (set_pxdocs (delete d) w)).

(** What a read-only call leaves as it is: the handles, the documents,
    the disk, and the log of backend calls. *)
Definition same_session (w w' : world) : Prop :=
  extptr_addr w' = extptr_addr w /\ pxdocs w' = pxdocs w /\
  files w' = files w /\ px_new_succeeds w' = px_new_succeeds w /\
  calls w' = calls w.

(** ** The effects of fetching a dataset *)

(** The world after some buffers were released and some warnings
    signalled. *)
Definition log_effects (frees : list addr) (warns : list r_warning) (w : world)
    : world :=
  World (extptr_addr w) (pxdocs w) (files w) (px_new_succeeds w) (calls w)
        (freed w ++ frees) (warnings w ++ warns).

(** The releases and the warnings of the values of a record, in field
    order. *)
Definition record_released (fields : list pxfield_t) (row : list pxval_t)
    : list addr :=
  concat (zip_with (fun val f => released val (px_ftype f)) row fields).

Definition record_warned (fields : list pxfield_t) (row : list pxval_t)
    : list r_warning :=
  concat (zip_with (fun val f => warned val (px_ftype f)) row fields).

(** [col'] is the column [col] of a field of type [t] after the decoded
    value [r] was stored at position [i]. *)
Definition cell_set (t : px_fieldtype) (i : nat) (r : SEXP) (col col' : SEXP)
    : Prop :=
  TYPEOF col' = TYPEOF col /\ LENGTH col' = LENGTH col /\
  column_cell col' i = Some (stored_cell (column_type t) r) /\
  forall i', i' <> i -> column_cell col' i' = column_cell col i'.

(** The document [doc] holds a file with the fields [fields] and the
    records [rows]: the header reports them, and the backend retrieves
    record [i] as the values of [rows !! i], one per field. *)
Definition holds_file (doc : pxdoc_t) (fields : list pxfield_t)
    (rows : list (list pxval_t)) : Prop :=
  (exists h, px_head doc = Some h /\ px_fields h = Some fields /\
             px_numfields h = Z.of_nat (length fields) /\
             px_numrecords h = Z.of_nat (length rows)) /\
  (forall i row, rows !! i = Some row ->
     px_records doc (Z.of_nat i) = Some row /\ length row = length fields).

(** Every value of every record converts: the decoder returns on it. *)
Definition convertible (fields : list pxfield_t) (rows : list (list pxval_t))
    : Prop :=
  forall i row j val f,
    rows !! i = Some row -> row !! j = Some val -> fields !! j = Some f ->
    is_Some (px_value val (px_ftype f)).

(** A handle on a file of two fields, fixed text and long integer, and
    two records; the text of the second record is flagged null. *)
Definition two_fields : list pxfield_t :=
  [PxField [x41] pxfAlpha 3; PxField [x42] pxfLong 4].

Definition two_rows : list (list pxval_t) :=
  [[string_value 7%positive [x68; x69; x00] 2; date_value 5];
   [null_value; date_value 6]].

Definition two_by_two_doc : pxdoc_t :=
  PxDoc (Some (PxHead 0 866 2 2 (Some two_fields)))
        (fun i => two_rows !! Z.to_nat i).

Definition two_by_two_world : world :=
  World {[1%positive := Some 1%positive]} {[1%positive := two_by_two_doc]}
        (fun _ => None) true [] [] [].

(** ** The encoding negotiation (px_encode.c) *)

Module Encode.

(** [Riconv_t]: a conversion descriptor; [None] is [(Riconv_t)-1]. *)
Definition Riconv_t := option positive.

(** The members of [pxdoc_t] that [px_encode.c] uses; a [NULL] encoding
    name is [None]. *)
Record pxdoc_t := PxDoc {
  px_head : option pxhead_t;
  targetencoding : option (list byte);
  inputencoding : option (list byte);
  out_iconvcd : Riconv_t;
  in_iconvcd : Riconv_t
}.

(** Modelled from the spec: the transcoding primitive, "open(target_encoding,
    source_encoding) -> conversion handle | failure, close(conversion
    handle)": the pairs of encodings it converts between, the descriptors
    that are open, and the log of the opens made. *)
Record iconv_world := IconvWorld {
  supported : list byte -> list byte -> bool;
  open_cds : gset positive;
  opened : list (positive * list byte * list byte)
}.

Definition Riconv_open (tocode fromcode : list byte) (s : iconv_world)
    : Riconv_t * iconv_world :=
  if supported s tocode fromcode then
    let cd := fresh (open_cds s) in
    (Some cd,
     IconvWorld (supported s) ({[cd]} ∪ open_cds s)
       (opened s ++ [(cd, tocode, fromcode)]))
  else (None, s).

(** Closing a descriptor that is not open is a use of released memory. *)
Definition Riconv_close (cd : positive) (s : iconv_world) : outcome iconv_world :=
  if decide (cd ∈ open_cds s) then
    Done (IconvWorld (supported s) (open_cds s ∖ {[cd]}) (opened s))
  else Undefined UseAfterDelete.

Definition px_init_targetencoding (pxdoc : pxdoc_t) : pxdoc_t :=
  PxDoc (px_head pxdoc) (targetencoding pxdoc) (inputencoding pxdoc)
        None (in_iconvcd pxdoc).

Definition px_init_inputencoding (pxdoc : pxdoc_t) : pxdoc_t :=
  PxDoc (px_head pxdoc) (targetencoding pxdoc) (inputencoding pxdoc)
        (out_iconvcd pxdoc) None.

(** [Riconv_open] reads its arguments as C strings. *)
Definition px_set_targetencoding (pxdoc : pxdoc_t) (s : iconv_world)
    : outcome (Z * pxdoc_t * iconv_world) :=
  match targetencoding pxdoc with
  | Some encoding =>
      match px_head pxdoc with
      | None => Undefined NullDereference
      | Some h =>
          let buffer := snprintf_CP 30 (int_of_long (px_doscodepage h)) in
          match match out_iconvcd pxdoc with
                | Some cd => Riconv_close cd s
                | None => Done s
                end with
          | Done s1 =>
              match c_string buffer with
              | None => Undefined ReadOutOfBounds
              | Some name =>
                  let '(cd, s2) := Riconv_open encoding name s1 in
                  let pxdoc' := PxDoc (px_head pxdoc) (targetencoding pxdoc)
                                  (inputencoding pxdoc) cd (in_iconvcd pxdoc) in
                  match cd with
                  | None => Done (-1, pxdoc', s2)
                  | Some _ => Done (0, pxdoc', s2)
                  end
              end
          | Raised e => Raised e
          | Undefined f => Undefined f
          end
      end
  | None => Done (-1, pxdoc, s)
  end.

Definition px_set_inputencoding (pxdoc : pxdoc_t) (s : iconv_world)
    : outcome (Z * pxdoc_t * iconv_world) :=
  match inputencoding pxdoc with
  | Some encoding =>
      match px_head pxdoc with
      | None => Undefined NullDereference
      | Some h =>
          let buffer := snprintf_CP 30 (int_of_long (px_doscodepage h)) in
          match match in_iconvcd pxdoc with
                | Some cd => Riconv_close cd s
                | None => Done s
                end with
          | Done s1 =>
              match c_string buffer with
              | None => Undefined ReadOutOfBounds
              | Some name =>
                  let '(cd, s2) := Riconv_open name encoding s1 in
                  let pxdoc' := PxDoc (px_head pxdoc) (targetencoding pxdoc)
                                  (inputencoding pxdoc) (out_iconvcd pxdoc) cd in
                  match cd with
                  | None => Done (-1, pxdoc', s2)
                  | Some _ => Done (0, pxdoc', s2)
                  end
              end
          | Raised e => Raised e
          | Undefined f => Undefined f
          end
      end
  | None => Done (-1, pxdoc, s)
  end.

(** The descriptors a document holds. *)
Definition cds_of (cd : Riconv_t) : gset positive :=
  match cd with
  | Some cd => {[cd]}
  | None => ∅
  end.

(** The open descriptors are those the document holds, and its two
    descriptors differ. *)
Definition owns (pxdoc : pxdoc_t) (s : iconv_world) : Prop :=
  open_cds s = cds_of (out_iconvcd pxdoc) ∪ cds_of (in_iconvcd pxdoc) /\
  (forall cd, out_iconvcd pxdoc = Some cd -> in_iconvcd pxdoc <> Some cd).

(** The name of the header's code page as the setters format it. *)
Definition codepage_name (h : pxhead_t) : list byte :=
  [x43; x50] ++ printf_d (int_of_long (px_doscodepage h)).

(** A document after initialisation, with a UTF-8 target, and a
    transcoder that knows every pair of encodings. *)
Definition utf8 : list byte := list_byte_of_string "UTF-8".

Definition sample_doc : pxdoc_t :=
  px_init_inputencoding
    (px_init_targetencoding
       (PxDoc (Some (PxHead 0 866 0 0 (Some []))) (Some utf8) None
              (Some 1%positive) (Some 1%positive))).

Definition sample_iconv : iconv_world := IconvWorld (fun _ _ => true) ∅ [].

End Encode.

(** * Properties *)

(** Unfolds the monad so that a run of the code computes. *)
Ltac run :=
  unfold mbind, M_bind, mret, M_ret, Rf_error, Rf_warning, undefined, modify, gets;
  simpl.

(** Case analysis on an innermost scrutinee of the goal. *)
Ltac case_inner :=
  match goal with
  | |- context [match ?x with _ => _ end] =>
      lazymatch x with
      | context [match _ with _ => _ end] => fail
      | _ => destruct x eqn:?
      end
  end.

Ltac run_cases := run; repeat (case_inner; run).

(** ** Sequences and loops *)

(** Running a sequence: the first part returns, or leaves. *)
Lemma bind_Done {A B} (m : M A) (k : A -> M B) (w w' : world) (a : A) :
  m w = (Done a, w') -> (m ≫= k) w = k a w'.
Proof. intros H. unfold mbind, M_bind. rewrite H. reflexivity. Qed.

Lemma bind_Raised {A B} (m : M A) (k : A -> M B) (w w' : world) (e : r_error) :
  m w = (Raised e, w') -> (m ≫= k) w = (Raised e, w').
Proof. intros H. unfold mbind, M_bind. rewrite H. reflexivity. Qed.

Lemma bind_Undefined {A B} (m : M A) (k : A -> M B) (w w' : world) (f : fault) :
  m w = (Undefined f, w') -> (m ≫= k) w = (Undefined f, w').
Proof. intros H. unfold mbind, M_bind. rewrite H. reflexivity. Qed.

(** A sequence that returns: both parts return. *)
Lemma bind_Done_inv {A B} (m : M A) (k : A -> M B) (w w' : world) (b : B) :
  (m ≫= k) w = (Done b, w') ->
  exists a w1, m w = (Done a, w1) /\ k a w1 = (Done b, w').
Proof.
  unfold mbind, M_bind. destruct (m w) as [[a | e | f] w1]; try discriminate.
  intros H. exists a, w1. split; [reflexivity | exact H].
Qed.

Section ForLoop.

Context {A : Type} (body : nat -> A -> M A).

(** A loop whose body returns and keeps an invariant returns and ends in
    the invariant. *)
Lemma for_loop_invariant (Inv : nat -> A -> world -> Prop) (n start : nat)
    (a : A) (w : world) :
  (forall k a w, (start <= k < start + n)%nat -> Inv k a w ->
     exists a' w', body k a w = (Done a', w') /\ Inv (S k) a' w') ->
  Inv start a w ->
  exists a' w',
    for_loop n start body a w = (Done a', w') /\ Inv (start + n)%nat a' w'.
Proof.
  revert start a w. induction n as [| n IH]; intros start a w Hbody Hinv.
  - exists a, w. rewrite Nat.add_0_r. split; [reflexivity | exact Hinv].
  - destruct (Hbody start a w ltac:(lia) Hinv) as (a1 & w1 & Hrun & Hinv1).
    destruct (IH (S start) a1 w1) as (a' & w' & Hloop & Hinv').
    + intros k a0 w0 Hk. apply Hbody. lia.
    + exact Hinv1.
    + exists a', w'. split.
      * simpl. rewrite (bind_Done _ _ _ _ _ Hrun). exact Hloop.
      * replace (start + S n)%nat with (S start + n)%nat by lia. exact Hinv'.
Qed.

(** A loop leaves through the error of the first iteration that raises. *)
Lemma for_loop_raises (Inv : nat -> A -> world -> Prop) (n m start : nat)
    (a : A) (w : world) (e : r_error) :
  (m < n)%nat ->
  (forall k a w, (start <= k < start + m)%nat -> Inv k a w ->
     exists a' w', body k a w = (Done a', w') /\ Inv (S k) a' w') ->
  (forall a w, Inv (start + m)%nat a w -> body (start + m)%nat a w = (Raised e, w)) ->
  Inv start a w ->
  exists a' w',
    Inv (start + m)%nat a' w' /\ for_loop n start body a w = (Raised e, w').
Proof.
  revert n start a w. induction m as [| m IH]; intros n start a w Hlt Hbody Hraise Hinv.
  - destruct n as [| n]; [lia |]. rewrite Nat.add_0_r in *.
    exists a, w. split; [exact Hinv |].
    simpl. apply bind_Raised. apply Hraise, Hinv.
  - destruct n as [| n]; [lia |].
    destruct (Hbody start a w ltac:(lia) Hinv) as (a1 & w1 & Hrun & Hinv1).
    destruct (IH n (S start) a1 w1) as (a' & w' & Hinv' & Hloop).
    + lia.
    + intros k a0 w0 Hk. apply Hbody. lia.
    + replace (S start + m)%nat with (start + S m)%nat by lia. exact Hraise.
    + exact Hinv1.
    + exists a', w'. split.
      * replace (start + S m)%nat with (S start + m)%nat by lia. exact Hinv'.
      * simpl. rewrite (bind_Done _ _ _ _ _ Hrun). exact Hloop.
Qed.

(** A loop with an iteration that cannot return does not return. *)
Lemma for_loop_not_done (Q : world -> Prop) (n start i : nat) (a : A) (w : world) :
  (forall k a w a' w', Q w -> body k a w = (Done a', w') -> Q w') ->
  (forall a w a' w', Q w -> body i a w <> (Done a', w')) ->
  (start <= i < start + n)%nat ->
  Q w ->
  forall a' w', for_loop n start body a w <> (Done a', w').
Proof.
  intros Hkeep Hfail. revert start a w.
  induction n as [| n IH]; intros start a w Hi HQ a' w'; [lia |].
  simpl. unfold mbind, M_bind.
  destruct (body start a w) as [[a1 | e | f] w1] eqn:Hrun; try discriminate.
  destruct (decide (start = i)) as [-> | Hne].
  - exfalso. exact (Hfail a w a1 w1 HQ Hrun).
  - apply IH; [lia |]. exact (Hkeep start a w a1 w1 HQ Hrun).
Qed.

(** What every returning iteration keeps, the returning loop keeps. *)
Lemma for_loop_keeps (Q : world -> Prop) (n start : nat) (a a' : A) (w w' : world) :
  (forall k a w a' w', Q w -> body k a w = (Done a', w') -> Q w') ->
  Q w ->
  for_loop n start body a w = (Done a', w') ->
  Q w'.
Proof.
  intros Hkeep. revert start a w.
  induction n as [| n IH]; intros start a w HQ Hrun.
  - simpl in Hrun. injection Hrun as _ <-. exact HQ.
  - simpl in Hrun. apply bind_Done_inv in Hrun as (a1 & w1 & Hstep & Hrest).
    apply (IH (S start) a1 w1); [| exact Hrest].
    exact (Hkeep start a w a1 w1 HQ Hstep).
Qed.

End ForLoop.

Lemma index_run {A} (a : list A) (j : nat) (x : A) (w : world) :
  a !! j = Some x -> index a j w = (Done x, w).
Proof. intros H. unfold index. rewrite H. reflexivity. Qed.

Lemma allocVector_run (type : SEXPTYPE) (n : Z) (w : world) :
  0 <= n -> allocVector type n w = (Done (fresh_vector type (Z.to_nat n)), w).
Proof.
  intros H. unfold allocVector. destruct (Z.ltb_spec n 0); [lia | reflexivity].
Qed.

(** ** The value decoder *)

(** [px_to_sexp] touches the log of releases and the log of warnings and
    nothing else of the world. *)
Lemma px_to_sexp_frame (val : pxval_t) (t : px_fieldtype) (w : world) :
  let w' := snd (px_to_sexp val t w) in
  extptr_addr w' = extptr_addr w /\ pxdocs w' = pxdocs w /\
  files w' = files w /\ px_new_succeeds w' = px_new_succeeds w /\
  calls w' = calls w.
Proof.
  unfold px_to_sexp, mkChar, mkCharLen, strcmp, allocVector, memcpy_raw, pxdoc_free.
  destruct (isnull val); [run; auto |].
  destruct t; run_cases; auto.
Qed.

(** C7. A value whose explicit null flag is set decodes to the absent
    marker [R_NilValue], whatever the field type and whatever else the
    value holds; nothing else happens. *)
Theorem null_flag_decodes_to_absent (val : pxval_t) (t : px_fieldtype) (w : world) :
  isnull val = true ->
  px_to_sexp val t w = (Done R_NilValue, w).
Proof.
  intros Hnull. unfold px_to_sexp. rewrite Hnull. reflexivity.
Qed.

Lemma null_flag_decodes_to_absent_witness :
  px_to_sexp null_with_buffer pxfBytes empty_world = (Done R_NilValue, empty_world).
Proof.
  apply (null_flag_decodes_to_absent null_with_buffer pxfBytes empty_world).
  reflexivity.
Defined.

(** *** The date subtraction is exact

    The conversion of a machine integer is the primitive one; a negative
    integer converts to the opposite of its absolute value. *)
Lemma double_of_long_uint63 (n : int) : double_of_long (Uint63.to_Z n) = of_uint63 n.
Proof.
  unfold double_of_long. rewrite <- of_uint63_spec. apply SF2Prim_Prim2SF.
Qed.

Lemma double_of_long_nonneg (z : Z) :
  0 <= z < 2 ^ 63 -> double_of_long z = of_uint63 (Uint63.of_Z z).
Proof.
  intros H.
  rewrite <- double_of_long_uint63, Uint63.of_Z_spec, Z.mod_small; [reflexivity |].
  change wB with (2 ^ 63). lia.
Qed.

Lemma binary_normalize_opp (p : positive) :
  binary_normalize prec emax (Zneg p) 0 false
  = SFopp (binary_normalize prec emax (Zpos p) 0 false).
Proof.
  unfold binary_normalize, binary_round.
  destruct (shl_align _ _ _) as [mz ez].
  unfold binary_round_aux.
  destruct (shr_fexp prec emax (Z.pos mz) ez loc_Exact) as [mrs e'].
  destruct (shr_fexp _ _ _ _ _) as [mrs' e''].
  destruct (shr_m mrs'); try reflexivity.
  destruct (e'' <=? emax - prec); reflexivity.
Qed.

Lemma double_of_long_neg (z : Z) :
  0 < z < 2 ^ 63 -> double_of_long (- z) = (- double_of_long z)%float.
Proof.
  intros H. destruct z as [| p | p]; try lia.
  change (- Z.pos p) with (Z.neg p).
  unfold double_of_long at 1. rewrite binary_normalize_opp.
  rewrite (double_of_long_nonneg (Z.pos p)) by lia.
  replace (binary_normalize prec emax (Z.pos p) 0 false)
    with (Prim2SF (of_uint63 (Uint63.of_Z (Z.pos p)))).
  - rewrite <- FloatAxioms.opp_spec. apply SF2Prim_Prim2SF.
  - rewrite of_uint63_spec, Uint63.of_Z_spec, Z.mod_small; [reflexivity |].
    change wB with (2 ^ 63). lia.
Qed.

Lemma all_from_spec (P : int -> bool) (n : nat) (i : int) :
  all_from P n i = true ->
  forall k, (k < n)%nat -> P (i + Uint63.of_Z (Z.of_nat k))%uint63 = true.
Proof.
  revert i. induction n as [| n IH]; intros i H k Hk; [lia |].
  simpl in H. destruct (P i) eqn:HP; [| discriminate].
  destruct k as [| k].
  - replace (i + Uint63.of_Z (Z.of_nat 0))%uint63 with i; [exact HP |].
    apply to_Z_inj. rewrite Uint63.add_spec, Uint63.of_Z_spec. simpl.
    rewrite Z.mod_0_l by (compute; discriminate).
    rewrite Z.add_0_r, Z.mod_small; [reflexivity | apply to_Z_bounded].
  - replace (i + Uint63.of_Z (Z.of_nat (S k)))%uint63
      with (i + 1 + Uint63.of_Z (Z.of_nat k))%uint63.
    + apply IH; [exact H | lia].
    + apply to_Z_inj. rewrite !Uint63.add_spec, !Uint63.of_Z_spec.
      rewrite Nat2Z.inj_succ. change (Uint63.to_Z 1) with 1.
      rewrite Z.add_mod_idemp_l, !Z.add_mod_idemp_r by (compute; discriminate).
      f_equal. lia.
Qed.

(** Every day count from 1 to 3,000,000, by computation. *)
Lemma date_range_checked :
  all_from date_exact_at (Z.to_nat 3000000) 1%uint63 = true.
Proof. vm_compute. reflexivity. Qed.

(** On the day counts the date branch converts, subtracting 719163 in
    double arithmetic gives the double of the integer difference: no
    rounding takes place. *)
Lemma date_subtraction_exact (z : Z) :
  0 < z <= 3000000 ->
  (double_of_long z - 719163)%float = double_of_long (z - 719163).
Proof.
  intros Hz.
  pose proof (all_from_spec _ _ _ date_range_checked (Z.to_nat (z - 1)) ltac:(lia))
    as H.
  rewrite Z2Nat.id in H by lia.
  assert ((1 + Uint63.of_Z (z - 1))%uint63 = Uint63.of_Z z) as E.
  { apply to_Z_inj. rewrite Uint63.add_spec, !Uint63.of_Z_spec.
    change (Uint63.to_Z 1) with 1.
    rewrite Z.add_mod_idemp_r by (compute; discriminate).
    f_equal. lia. }
  rewrite E in H. unfold date_exact_at in H.
  apply FloatAxioms.Leibniz.eqb_spec in H.
  assert (wB = 2 ^ 63) as HwB by reflexivity.
  assert (Uint63.to_Z (Uint63.of_Z z) = z) as Hto
    by (rewrite Uint63.of_Z_spec, Z.mod_small; lia).
  rewrite (double_of_long_nonneg z) by lia. rewrite H.
  destruct (Uint63.lebP date_offset (Uint63.of_Z z)) as [Hle | Hgt].
  - change (Uint63.to_Z date_offset) with 719163 in Hle. rewrite Hto in Hle.
    rewrite (double_of_long_nonneg (z - 719163)) by lia. f_equal.
    apply to_Z_inj. rewrite Uint63.sub_spec, Hto, Uint63.of_Z_spec.
    reflexivity.
  - change (Uint63.to_Z date_offset) with 719163 in Hgt. rewrite Hto in Hgt.
    replace (z - 719163) with (- (719163 - z)) by lia.
    rewrite double_of_long_neg by lia.
    rewrite (double_of_long_nonneg (719163 - z)) by lia. do 2 f_equal.
    apply to_Z_inj. rewrite Uint63.sub_spec, Hto, Uint63.of_Z_spec.
    reflexivity.
Qed.

(** C3. A date whose null flag is unset decodes to absent exactly when
    its day count is at most 0 or above 3,000,000; otherwise to the day
    count minus 719163 as a real, the subtraction being the double one of
    the code and its result the double of the integer difference.  Day
    counts 0, -1 and 3000001 give absent and 719163 gives day 0. *)
Theorem date_decoding (val : pxval_t) (w : world) :
  isnull val = false ->
  (fst (px_to_sexp val pxfDate w) = Done R_NilValue
     <-> lval val <= 0 \/ 3000000 < lval val) /\
  (0 < lval val <= 3000000 ->
     px_to_sexp val pxfDate w
     = (Done (ScalarReal (double_of_long (lval val) - 719163)%float), w) /\
     (double_of_long (lval val) - 719163)%float
     = double_of_long (lval val - 719163)) /\
  (lval val = 0 \/ lval val = -1 \/ lval val = 3000001 ->
     px_to_sexp val pxfDate w = (Done R_NilValue, w)) /\
  (lval val = 719163 ->
     px_to_sexp val pxfDate w = (Done (ScalarReal 0%float), w)).
Proof.
  intros Hnull. unfold px_to_sexp, PARADOX_DATE_UPPER_BOUND. rewrite Hnull.
  split; [split |]; [| | split; [| split]].
  - destruct (Z.leb_spec (lval val) 0), (Z.gtb_spec (lval val) 3000000);
      run; intros; try lia; discriminate.
  - destruct (Z.leb_spec (lval val) 0), (Z.gtb_spec (lval val) 3000000);
      run; intros; auto; lia.
  - intros Hrange. split; [| apply date_subtraction_exact, Hrange].
    destruct (Z.leb_spec (lval val) 0), (Z.gtb_spec (lval val) 3000000);
      run; try lia; reflexivity.
  - intros [-> | [-> | ->]]; reflexivity.
  - intros ->. reflexivity.
Qed.

Lemma date_decoding_witness :
  px_to_sexp (date_value 719164) pxfDate empty_world
  = (Done (ScalarReal 1%float), empty_world).
Proof.
  refine (proj1 (proj1 (proj2 (date_decoding (date_value 719164) empty_world _)) _)).
  - reflexivity.
  - simpl. lia.
Defined.

(** C4. A timestamp whose null flag is unset decodes to absent exactly
    when its millisecond count is zero or its count of seconds (the
    milliseconds divided by 1000) is negative; otherwise to that count of
    seconds minus 719163 * 86400.  The count 719163 * 86400 * 1000 gives
    second 0. *)
Theorem timestamp_decoding (val : pxval_t) (w : world) :
  isnull val = false ->
  let paradox_seconds := (dval val / 1000)%float in
  (fst (px_to_sexp val pxfTimestamp w) = Done R_NilValue
     <-> (dval val =? 0)%float = true \/ (paradox_seconds <? 0)%float = true) /\
  ((dval val =? 0)%float = false -> (paradox_seconds <? 0)%float = false ->
     px_to_sexp val pxfTimestamp w
     = (Done (ScalarReal (paradox_seconds - 719163 * 86400)%float), w)) /\
  (dval val = double_of_long (719163 * 86400 * 1000) ->
     px_to_sexp val pxfTimestamp w = (Done (ScalarReal 0%float), w)).
Proof.
  intros Hnull ps. unfold px_to_sexp. rewrite Hnull. fold ps.
  repeat split.
  - destruct (dval val =? 0)%float, (ps <? 0)%float; run;
      intros; auto; discriminate.
  - destruct (dval val =? 0)%float, (ps <? 0)%float; run;
      intros [|]; auto; discriminate.
  - intros -> ->. reflexivity.
  - intros Hd. subst ps. rewrite Hd. reflexivity.
Qed.

Lemma timestamp_decoding_witness :
  px_to_sexp (timestamp_value 62135683201000%float) pxfTimestamp empty_world
  = (Done (ScalarReal 1%float), empty_world).
Proof.
  refine (proj1 (proj2 (timestamp_decoding (timestamp_value 62135683201000%float)
                          empty_world _)) _ _); reflexivity.
Defined.

(** C10. With the null flag unset, a BCD value reaches the comparison
    with the blank pattern whatever its buffer pointer is: a null pointer
    is read through, where the fixed text and the memo types test for it
    first and give the absent marker of their column. *)
Theorem bcd_has_no_null_guard (val : pxval_t) (w : world) :
  isnull val = false ->
  str_val val = None ->
  px_to_sexp val pxfBCD w = (Undefined NullDereference, w) /\
  px_to_sexp val pxfAlpha w = (Done NA_STRING, w) /\
  px_to_sexp val pxfMemoBLOb w = (Done R_NilValue, w) /\
  px_to_sexp val pxfFmtMemoBLOb w = (Done R_NilValue, w).
Proof.
  intros Hnull Hptr. unfold px_to_sexp. rewrite Hnull, Hptr.
  repeat split.
Qed.

Lemma bcd_has_no_null_guard_witness :
  px_to_sexp null_pointer_value pxfBCD empty_world
  = (Undefined NullDereference, empty_world).
Proof.
  refine (proj1 (bcd_has_no_null_guard null_pointer_value empty_world _ _));
    reflexivity.
Defined.

(** With a buffer, the BCD branch is defined as soon as the buffer holds
    a terminated string, and the blank pattern alone gives absent. *)
Lemma strcmp_bytes_eq (a b : list byte) : strcmp_bytes a b = 0 <-> a = b.
Proof.
  revert b. induction a as [| x a IH]; intros [| y b]; simpl; split;
    try discriminate; try reflexivity.
  - destruct (N.compare_spec (Byte.to_N x) (Byte.to_N y)) as [E | E | E];
      try discriminate.
    intros H. apply IH in H. subst b.
    assert (Byte.of_N (Byte.to_N x) = Byte.of_N (Byte.to_N y)) as E'
      by (rewrite E; reflexivity).
    rewrite !Byte.of_to_N in E'. congruence.
  - intros [= -> ->]. rewrite N.compare_refl. apply IH. reflexivity.
Qed.

Lemma bcd_decoding (val : pxval_t) (b : buffer) (s : list byte) (w : world) :
  isnull val = false ->
  str_val val = Some b ->
  c_string (buf_bytes b) = Some s ->
  px_to_sexp val pxfBCD w
  = (Done (if decide (s = BCD_BLANK) then R_NilValue else CharSxp s),
     log_free (buf_addr b) w).
Proof.
  intros Hnull Hptr Hs. unfold px_to_sexp, strcmp, mkChar, pxdoc_free.
  rewrite Hnull, Hptr, Hs. run.
  destruct (Z.eqb_spec (strcmp_bytes s BCD_BLANK) 0) as [E | E];
    rewrite strcmp_bytes_eq in E; destruct (decide (s = BCD_BLANK)); try tauto;
    rewrite ?Hs; reflexivity.
Qed.

(** A value whose null flag is unset, of a buffer-carrying field type and
    with a non-null buffer: on every path on which the decoder returns,
    the buffer has been released exactly once on the way (the blank BCD
    pattern and the zero-length large object included), and nothing was
    warned. *)
Lemma returning_decode_releases_once (val : pxval_t) (t : px_fieldtype)
    (b : buffer) (w w' : world) (r : SEXP) :
  isnull val = false ->
  carries_buffer t = true ->
  str_val val = Some b ->
  px_to_sexp val t w = (Done r, w') ->
  freed w' = freed w ++ [buf_addr b] /\ warnings w' = warnings w.
Proof.
  intros Hnull Ht Hptr. unfold px_to_sexp, mkChar, mkCharLen, strcmp, allocVector,
    memcpy_raw, pxdoc_free. rewrite Hnull, Hptr.
  destruct t; try discriminate Ht; run_cases;
    intros [= <- <-]; simpl; split; reflexivity.
Qed.

(** Every exit of the decoder through an R error leaves the world as it
    was: the calls that can raise ([mkCharLen], [allocVector]) come
    before the release in their branches. *)
Lemma raising_decode_changes_nothing (val : pxval_t) (t : px_fieldtype)
    (w w' : world) (e : r_error) :
  px_to_sexp val t w = (Raised e, w') -> w' = w.
Proof.
  unfold px_to_sexp, mkChar, mkCharLen, strcmp, allocVector, memcpy_raw, pxdoc_free.
  destruct (isnull val); [run; discriminate |].
  destruct t; run_cases; intros H; try discriminate H;
    injection H as _ <-; reflexivity.
Qed.

(** C2.  The decoder does not release the buffer on every branch.  A
    memo value whose null flag is unset and whose three stored bytes
    have a zero in the middle makes [mkCharLen] raise R's error, and the
    [pxdoc->free] that follows it in the branch is never reached: the
    decoder is left with nothing released.  So it is with every exit
    through an R error, whatever the value and the type: the world is as
    before.  The release is there on every path that returns: with the
    null flag unset, the buffer of a buffer-carrying type has then been
    released exactly once. *)
Theorem error_exit_skips_release :
  px_to_sexp (string_value 7%positive [x41; x00; x42] 3) pxfMemoBLOb empty_world
  = (Raised ErrEmbeddedNul, empty_world) /\
  (forall (val : pxval_t) (t : px_fieldtype) (w w' : world) (e : r_error),
     px_to_sexp val t w = (Raised e, w') -> freed w' = freed w) /\
  (forall (val : pxval_t) (t : px_fieldtype) (b : buffer) (w w' : world) (r : SEXP),
     isnull val = false -> carries_buffer t = true -> str_val val = Some b ->
     px_to_sexp val t w = (Done r, w') ->
     freed w' = freed w ++ [buf_addr b]).
Proof.
  split; [reflexivity |]. split.
  - intros val t w w' e H.
    rewrite (raising_decode_changes_nothing val t w w' e H). reflexivity.
  - intros val t b w w' r Hnull Ht Hptr H.
    exact (proj1 (returning_decode_releases_once val t b w w' r Hnull Ht Hptr H)).
Qed.

(** A value of an inline binary field decodes through [mkCharLen]: to a
    character string of the stored length when none of these bytes is
    zero, and to an R error, before the release, when one is. *)
Lemma bytes_decoding (val : pxval_t) (b : buffer) (w : world) :
  isnull val = false ->
  str_val val = Some b ->
  0 < str_len val <= Z.of_nat (length (buf_bytes b)) ->
  px_to_sexp val pxfBytes w
  = if existsb (Byte.eqb x00) (take (Z.to_nat (str_len val)) (buf_bytes b))
    then (Raised ErrEmbeddedNul, w)
    else (Done (CharSxp (take (Z.to_nat (str_len val)) (buf_bytes b))),
          log_free (buf_addr b) w).
Proof.
  intros Hnull Hptr [Hlo Hhi]. unfold px_to_sexp, mkCharLen, pxdoc_free.
  rewrite Hnull, Hptr.
  destruct (Z.ltb_spec (str_len val) 0); [lia |].
  destruct (Z.eqb_spec (str_len val) 0); [lia |].
  destruct (Z.ltb_spec (Z.of_nat (length (buf_bytes b))) (str_len val)); [lia |].
  run. destruct (existsb _ _); reflexivity.
Qed.

(** C6 at a value with a zero byte among its three bytes: the decoder
    raises R's error for a zero byte in a string, before the release, and
    the whole of [pxlib_get_data_c] leaves with it.  Without a zero byte
    the decoder returns a character string, and that is what the list
    column receives; the large binary types return a raw vector of the
    same bytes, zero bytes included. *)
Theorem bytes_with_zero_byte_raise :
  px_to_sexp (string_value 7%positive [x41; x00; x42] 3) pxfBytes empty_world
  = (Raised ErrEmbeddedNul, empty_world) /\
  pxlib_get_data_c (ExtPtr 1) bytes_field_world
  = (Raised ErrEmbeddedNul, bytes_field_world) /\
  px_to_sexp (string_value 7%positive [x41; x42; x43] 3) pxfBytes empty_world
  = (Done (CharSxp [x41; x42; x43]), log_free 7%positive empty_world) /\
  pxlib_get_data_c (ExtPtr 1) plain_bytes_field_world
  = (Done (Some (Dataset (ListVec [ListVec [CharSxp [x41; x42; x43]]])
                         [CharSxp [x42]] [[]])),
     log_free 7%positive plain_bytes_field_world) /\
  px_to_sexp (string_value 7%positive [x41; x00; x42] 3) pxfBLOb empty_world
  = (Done (RawVec [x41; x00; x42]), log_free 7%positive empty_world).
Proof. repeat split. Qed.

(** A buffer that is readable is converted and released: the decoder
    returns. *)
Lemma decode_returns (val : pxval_t) (t : px_fieldtype) (b : buffer) (w : world) :
  isnull val = false ->
  str_val val = Some b ->
  readable t val b ->
  exists r, px_to_sexp val t w = (Done r, log_free (buf_addr b) w).
Proof.
  intros Hnull Hptr. unfold px_to_sexp, mkChar, mkCharLen, strcmp, allocVector,
    memcpy_raw, pxdoc_free. rewrite Hnull, Hptr.
  destruct t; simpl; try contradiction.
  - intros [s Hs]. rewrite Hs. run. eauto.
  - intros [[Hlo Hhi] Hnul]. run.
    destruct (Z.ltb_spec (str_len val) 0); [lia |].
    destruct (Z.eqb_spec (str_len val) 0); run; eauto.
    destruct (Z.ltb_spec (Z.of_nat (length (buf_bytes b))) (str_len val)); [lia |].
    rewrite Hnul. run. eauto.
  - intros [Hlo Hhi]. run.
    destruct (Z.eqb_spec (str_len val) 0); run; eauto.
    destruct (Z.ltb_spec (str_len val) 0); [lia |]. run.
    destruct (Z.ltb_spec (Z.of_nat (length (buf_bytes b))) (str_len val)); [lia |].
    run. eauto.
  - intros [[Hlo Hhi] Hnul]. run.
    destruct (Z.ltb_spec (str_len val) 0); [lia |].
    destruct (Z.eqb_spec (str_len val) 0); run; eauto.
    destruct (Z.ltb_spec (Z.of_nat (length (buf_bytes b))) (str_len val)); [lia |].
    rewrite Hnul. run. eauto.
  - intros [Hlo Hhi]. run.
    destruct (Z.eqb_spec (str_len val) 0); run; eauto.
    destruct (Z.ltb_spec (str_len val) 0); [lia |]. run.
    destruct (Z.ltb_spec (Z.of_nat (length (buf_bytes b))) (str_len val)); [lia |].
    run. eauto.
  - intros [Hlo Hhi]. run.
    destruct (Z.eqb_spec (str_len val) 0); run; eauto.
    destruct (Z.ltb_spec (str_len val) 0); [lia |]. run.
    destruct (Z.ltb_spec (Z.of_nat (length (buf_bytes b))) (str_len val)); [lia |].
    run. eauto.
  - intros [s Hs]. rewrite Hs. run.
    destruct (strcmp_bytes s BCD_BLANK =? 0); run; rewrite ?Hs; run; eauto.
  - intros [[Hlo Hhi] Hnul]. run.
    destruct (Z.ltb_spec (str_len val) 0); [lia |].
    destruct (Z.eqb_spec (str_len val) 0); run; eauto.
    destruct (Z.ltb_spec (Z.of_nat (length (buf_bytes b))) (str_len val)); [lia |].
    rewrite Hnul. run. eauto.
Qed.

(** What the decoder returns is of the kind its column takes, with the
    one exception of the character string of an inline binary value. *)
Lemma px_to_sexp_fits_column (val : pxval_t) (t : px_fieldtype) (w w' : world)
    (r : SEXP) :
  px_to_sexp val t w = (Done r, w') -> fits_column t r.
Proof.
  unfold px_to_sexp, mkChar, mkCharLen, strcmp, allocVector, memcpy_raw,
    pxdoc_free, fits_column.
  destruct (isnull val); [run; intros [= <- _]; auto |].
  destruct t; run_cases; intros [= <- _]; simpl; eauto 6.
Qed.

(** ** The session *)

Lemma fresh_pxdoc (w : world) : pxdocs w !! fresh (dom (pxdocs w)) = None.
Proof. apply not_elem_of_dom. apply is_fresh. Qed.

(** C1, as stated, fails: closing a handle whose address has been
    cleared does not succeed. *)
Lemma close_of_closed_handle_raises :
  ~ (forall (w : world) (id : positive),
       extptr_addr w !! id = Some None ->
       fst (pxlib_close_file_c (ExtPtr id) w) = Done R_NilValue).
Proof.
  intros H. specialize (H closed_handle_world 1%positive eq_refl).
  discriminate H.
Qed.

(** C1, amended.  From a handle on a live document, the explicit close
    and the finalizer do the same thing: one [PX_delete] and the address
    cleared.  After that neither releases anything again: the finalizer
    returns without any action, and the close makes no backend call and
    changes nothing, but raises the closed-or-invalid error. *)
Theorem release_happens_once (w : world) (id d : positive) (doc : pxdoc_t) :
  extptr_addr w !! id = Some (Some d) ->
  pxdocs w !! d = Some doc ->
  let closed :=
    set_extptr_addr <[id := None]>
      (log_call (CallPXdelete d) (set_pxdocs (delete d) w)) in
  pxlib_close_file_c (ExtPtr id) w = (Done R_NilValue, closed) /\
  pxdoc_finalizer (ExtPtr id) w = (Done tt, closed) /\
  pxdoc_finalizer (ExtPtr id) closed = (Done tt, closed) /\
  pxlib_close_file_c (ExtPtr id) closed = (Raised ErrClosedOrInvalid, closed).
Proof.
  intros Hid Hd closed.
  unfold pxlib_close_file_c, pxdoc_finalizer, check_pxdoc_ptr,
    R_ExternalPtrAddr, R_ClearExternalPtr, PX_delete.
  run. rewrite Hid. simpl. rewrite Hid. simpl. rewrite Hd. simpl.
  rewrite lookup_insert_eq. simpl.
  repeat split.
Qed.

Lemma release_happens_once_witness :
  pxlib_close_file_c (ExtPtr 1)
    (snd (pxlib_close_file_c (ExtPtr 1) open_handle_world))
  = (Raised ErrClosedOrInvalid,
     snd (pxlib_close_file_c (ExtPtr 1) open_handle_world)).
Proof.
  pose proof (release_happens_once open_handle_world 1 1
                (PxDoc (Some (PxHead 0 866 0 0 (Some []))) (fun _ => None))
                eq_refl eq_refl) as H.
  simpl in H. destruct H as (Hclose & _ & _ & Hagain).
  rewrite Hclose. simpl. exact Hagain.
Defined.

(** The backend calls on a live document. *)
Lemma PX_new_run (w : world) :
  px_new_succeeds w = true ->
  let d := fresh (dom (pxdocs w)) in
  PX_new w
  = (Done (Some d),
     log_call (CallPXnew d) (set_pxdocs <[d := PxDoc None (fun _ => None)]> w)).
Proof. intros H. unfold PX_new. rewrite H. reflexivity. Qed.

Lemma PX_open_file_run (w : world) (d : positive) (filename : list byte)
    (old doc : pxdoc_t) :
  pxdocs w !! d = Some old ->
  files w filename = Some doc ->
  PX_open_file d filename w
  = (Done 0, log_call (CallPXopen d filename 0) (set_pxdocs <[d := doc]> w)).
Proof. intros H1 H2. unfold PX_open_file. rewrite H1, H2. reflexivity. Qed.

Lemma px_head_field_run {A} (w : world) (d : positive) (field : pxhead_t -> A)
    (doc : pxdoc_t) (h : pxhead_t) :
  pxdocs w !! d = Some doc ->
  px_head doc = Some h ->
  px_head_field d field w = (Done (field h), w).
Proof. intros H1 H2. unfold px_head_field. rewrite H1, H2. reflexivity. Qed.

Lemma PX_close_run (w : world) (d : positive) (doc : pxdoc_t) :
  pxdocs w !! d = Some doc ->
  PX_close d w
  = (Done tt,
     log_call (CallPXclose d) (set_pxdocs <[d := PxDoc None (fun _ => None)]> w)).
Proof. intros H. unfold PX_close. rewrite H. reflexivity. Qed.

Lemma PX_delete_run (w : world) (d : positive) (doc : pxdoc_t) :
  pxdocs w !! d = Some doc ->
  PX_delete d w
  = (Done tt, log_call (CallPXdelete d) (set_pxdocs (delete d) w)).
Proof. intros H. unfold PX_delete. rewrite H. reflexivity. Qed.

(** What is left of a document that was created, opened, closed and
    deleted: nothing. *)
Lemma teardown_restores_pxdocs (m : gmap positive pxdoc_t) (d : positive)
    (a b c : pxdoc_t) :
  m !! d = None ->
  delete d (<[d := c]> (<[d := b]> (<[d := a]> m))) = m.
Proof.
  intros Hfresh. rewrite !delete_insert_eq. apply delete_id, Hfresh.
Qed.

(** The world after a document was created, opened, closed and deleted. *)
Lemma teardown_world (w : world) (d : positive) (filename : list byte)
    (doc : pxdoc_t) :
  pxdocs w !! d = None ->
  log_call (CallPXdelete d)
    (set_pxdocs (delete d)
       (log_call (CallPXclose d)
          (set_pxdocs <[d := PxDoc None (fun _ => None)]>
             (log_call (CallPXopen d filename 0)
                (set_pxdocs <[d := doc]>
                   (log_call (CallPXnew d)
                      (set_pxdocs <[d := PxDoc None (fun _ => None)]> w)))))))
  = World (extptr_addr w) (pxdocs w) (files w) (px_new_succeeds w)
          (calls w ++ [CallPXnew d; CallPXopen d filename 0;
                       CallPXclose d; CallPXdelete d])
          (freed w) (warnings w).
Proof.
  intros Hfresh. destruct w as [e p f n c fr wa]. simpl in Hfresh.
  cbv [log_call set_pxdocs extptr_addr pxdocs files px_new_succeeds calls
       freed warnings].
  rewrite teardown_restores_pxdocs by exact Hfresh.
  rewrite <- !app_assoc. reflexivity.
Qed.

(** The tear-down of the two authentication failures. *)
Lemma close_delete_raise (w : world) (d : positive) (doc : pxdoc_t) (e : r_error) :
  pxdocs w !! d = Some doc ->
  (PX_close d;; PX_delete d;; Rf_error e : M unit) w
  = (Raised e,
     log_call (CallPXdelete d)
       (set_pxdocs (delete d)
          (log_call (CallPXclose d)
             (set_pxdocs <[d := PxDoc None (fun _ => None)]> w)))).
Proof.
  intros H.
  rewrite (bind_Done _ _ _ _ _ (PX_close_run w d doc H)).
  erewrite bind_Done; [reflexivity |].
  apply PX_delete_run with (doc := PxDoc None (fun _ => None)).
  apply lookup_insert_eq.
Qed.

(** C8. When the header of the opened file reports a non-zero
    encryption value, a missing password raises the password-protected
    error and a password whose checksum differs from that value raises
    the incorrect-password error.  Either way the document just created
    has been closed and deleted first: the backend holds the documents it
    held before the call, no external pointer has been made, and the
    calls made are [PX_new], [PX_open_file], [PX_close], [PX_delete]. *)
Theorem open_rejects_and_tears_down (px_passwd_checksum : list byte -> Z)
    (w : world) (filename : list byte) (doc : pxdoc_t) (h : pxhead_t) :
  px_new_succeeds w = true ->
  files w filename = Some doc ->
  px_head doc = Some h ->
  px_encryption h <> 0 ->
  let d := fresh (dom (pxdocs w)) in
  let torn_down :=
    World (extptr_addr w) (pxdocs w) (files w) (px_new_succeeds w)
          (calls w ++ [CallPXnew d; CallPXopen d filename 0;
                       CallPXclose d; CallPXdelete d])
          (freed w) (warnings w) in
  pxlib_open_file_c px_passwd_checksum (StrVec [CharSxp filename]) R_NilValue w
  = (Raised ErrPasswordProtected, torn_down) /\
  (forall pw : list byte,
     ulong_of_long (px_passwd_checksum pw) <> px_encryption h ->
     pxlib_open_file_c px_passwd_checksum (StrVec [CharSxp filename])
       (StrVec [CharSxp pw]) w
     = (Raised ErrIncorrectPassword, torn_down)).
Proof.
  intros Hnew Hfile Hhead Henc d torn_down.
  pose proof (fresh_pxdoc w) as Hfresh. fold d in Hfresh.
  pose proof (PX_new_run w Hnew) as Hrun_new. simpl in Hrun_new. fold d in Hrun_new.
  set (w1 := log_call (CallPXnew d)
               (set_pxdocs <[d := PxDoc None (fun _ => None)]> w)) in *.
  set (w2 := log_call (CallPXopen d filename 0) (set_pxdocs <[d := doc]> w1)).
  assert (PX_open_file d filename w1 = (Done 0, w2)) as Hrun_open.
  { apply PX_open_file_run with (old := PxDoc None (fun _ => None)).
    - apply lookup_insert_eq.
    - exact Hfile. }
  assert (pxdocs w2 !! d = Some doc) as Hdoc by apply lookup_insert_eq.
  assert (forall e : r_error,
    (PX_close d;; PX_delete d;; Rf_error e : M unit) w2 = (Raised e, torn_down))
    as Hteardown.
  { intros e. rewrite (close_delete_raise w2 d doc e Hdoc). f_equal.
    apply teardown_world, Hfresh. }
  clearbody torn_down.
  assert (forall password : option (list byte),
    (pxdoc ← PX_new;
     match pxdoc with
     | None => Rf_error ErrPXNew
     | Some d =>
         status ← PX_open_file d filename;
         if negb (status =? 0) then
           PX_delete d;;
           Rf_warning (WarnOpenFailed filename);;
           mret R_NilValue
         else
           encryption ← px_head_field d px_encryption;
           (if negb (encryption =? 0) then
              match password with
              | None =>
                  PX_close d;;
                  PX_delete d;;
                  Rf_error ErrPasswordProtected
              | Some pw =>
                  let checksum := px_passwd_checksum pw in
                  if negb (ulong_of_long checksum =? encryption) then
                    PX_close d;;
                    PX_delete d;;
                    Rf_error ErrIncorrectPassword
                  else mret tt
              end
            else mret tt);;
           R_MakeExternalPtr d
     end) w
    = match password with
      | None => (Raised ErrPasswordProtected, torn_down)
      | Some pw =>
          if ulong_of_long (px_passwd_checksum pw) =? px_encryption h
          then
            (R_MakeExternalPtr d) w2
          else (Raised ErrIncorrectPassword, torn_down)
      end) as Hbody.
  { intros password.
    rewrite (bind_Done _ _ _ _ _ Hrun_new).
    rewrite (bind_Done _ _ _ _ _ Hrun_open).
    change (negb (0 =? 0)) with false. cbv iota.
    rewrite (bind_Done _ _ _ _ _ (px_head_field_run w2 d px_encryption doc h Hdoc Hhead)).
    destruct (Z.eqb_spec (px_encryption h) 0) as [E | _]; [contradiction |].
    cbv [negb]. cbv iota.
    destruct password as [pw |].
    - cbv zeta.
      destruct (ulong_of_long (px_passwd_checksum pw) =? px_encryption h).
      + reflexivity.
      + cbv [negb]. cbv iota.
        apply bind_Raised. apply Hteardown.
    - apply bind_Raised. apply Hteardown. }
  split.
  - unfold pxlib_open_file_c. cbn [single_string Rf_isNull].
    rewrite (bind_Done (mret None) _ w w None eq_refl). apply (Hbody None).
  - intros pw Hpw. unfold pxlib_open_file_c. cbn [single_string Rf_isNull].
    rewrite (bind_Done (mret (Some pw)) _ w w (Some pw) eq_refl).
    etransitivity; [exact (Hbody (Some pw)) |].
    destruct (Z.eqb_spec (ulong_of_long (px_passwd_checksum pw)) (px_encryption h))
      as [E | _]; [contradiction | reflexivity].
Qed.

Lemma open_rejects_and_tears_down_witness :
  pxlib_open_file_c (fun _ => 4) (StrVec [CharSxp [x41]]) (StrVec [CharSxp [x42]])
    encrypted_disk
  = (Raised ErrIncorrectPassword,
     World ∅ ∅ (files encrypted_disk) true
       [CallPXnew 1; CallPXopen 1 [x41] 0; CallPXclose 1; CallPXdelete 1] [] []).
Proof.
  refine (proj2 (open_rejects_and_tears_down (fun _ => 4) encrypted_disk [x41]
                   (PxDoc (Some (PxHead 5 866 0 0 (Some []))) (fun _ => None))
                   (PxHead 5 866 0 0 (Some [])) _ _ _ _) [x42] _);
    try reflexivity; vm_compute; discriminate.
Defined.

(** ** The field type mapper *)

Lemma alloc_columns_run (fields : list pxfield_t) (num_fields num_records : Z)
    (w : world) :
  0 <= num_records ->
  (Z.to_nat num_fields <= length fields)%nat ->
  alloc_columns fields num_fields num_records
    (ListVec (replicate (Z.to_nat num_fields) R_NilValue)) w
  = (Done (ListVec (map (fresh_column num_records)
                      (take (Z.to_nat num_fields) fields))), w).
Proof.
  intros Hn Hlen. unfold alloc_columns.
  set (n := Z.to_nat num_fields) in *.
  destruct (for_loop_invariant
    (fun j data_list =>
       f ← index fields j;
       column ← allocVector (column_type (px_ftype f)) num_records;
       mret (SET_VECTOR_ELT data_list j column))
    (fun j data_list w' =>
       data_list = ListVec (map (fresh_column num_records) (take j fields)
                            ++ replicate (n - j) R_NilValue) /\ w' = w)
    n 0%nat (ListVec (replicate n R_NilValue)) w)
    as (a' & w' & Hrun & Ha & Hw).
  - intros j a w0 Hj [-> ->].
    destruct (lookup_lt_is_Some_2 fields j ltac:(lia)) as [f Hf].
    exists (ListVec (map (fresh_column num_records) (take (S j) fields)
                     ++ replicate (n - S j) R_NilValue)), w.
    split; [| split; reflexivity].
    rewrite (bind_Done _ _ _ _ _ (index_run fields j f w Hf)).
    rewrite (bind_Done _ _ _ _ _ (allocVector_run _ num_records w Hn)).
    unfold mret, M_ret, SET_VECTOR_ELT. do 2 f_equal.
    rewrite (take_S_r fields j f Hf), map_app. simpl.
    replace (n - j)%nat with (S (n - S j)) by lia. simpl.
    rewrite <- app_assoc. simpl.
    assert (length (map (fresh_column num_records) (take j fields)) = j) as Hl
      by (rewrite length_map, length_take; lia).
    rewrite insert_app_r_alt by lia. rewrite Hl, Nat.sub_diag. reflexivity.
  - rewrite Nat.sub_0_r. split; reflexivity.
  - rewrite Hrun, Ha, Hw. simpl. rewrite Nat.sub_diag. simpl.
    rewrite app_nil_r. reflexivity.
Qed.

(** The integer cells are C [int]s. *)
Lemma int_of_long_range (z : Z) : - 2 ^ 31 <= int_of_long z < 2 ^ 31.
Proof.
  unfold int_of_long.
  pose proof (Z.mod_pos_bound (z + 2 ^ 31) (2 ^ 32) ltac:(lia)). lia.
Qed.

(** C5, as stated, fails: allocating the text column of a field with an
    unrecognised type code signals no warning. *)
Lemma unknown_type_maps_without_warning :
  ~ (forall (fields : list pxfield_t) (num_records : Z) (w : world),
       0 < num_records ->
       (exists f code, f ∈ fields /\ px_ftype f = pxfOther code) ->
       warnings (snd (alloc_columns fields (Z.of_nat (length fields)) num_records
                        (ListVec (replicate (length fields) R_NilValue)) w))
       <> warnings w).
Proof.
  intros H.
  apply (H [unknown_field] 1 empty_world); [lia | | reflexivity].
  exists unknown_field, 99. split; [apply list_elem_of_here | reflexivity].
Qed.

(** No warning either from the whole of [pxlib_get_data_c] when the
    values of such a field have their null flag set: the warning is the
    decoder's, for each value it is asked to convert. *)
Example unknown_type_null_record_no_warning :
  pxlib_get_data_c (ExtPtr 1) unknown_type_world
  = (Done (Some (Dataset (ListVec [StrVec [NA_STRING]]) [CharSxp [x58]] [[]])),
     unknown_type_world).
Proof. reflexivity. Qed.

(** A day count beyond 32 bits in a long-integer field: the cell holds
    its low 32 bits, here R's integer NA. *)
Example long_cell_keeps_32_bits :
  px_to_sexp (PxVal false (2 ^ 31) 0%float None 0) pxfLong empty_world
  = (Done (IntVec [NA_INTEGER]), empty_world).
Proof. reflexivity. Qed.

(** C5, amended.  Step 1 allocates one column per field, in field order,
    by the fixed classification: short, long and autoincrement to R's
    integer vector (32-bit cells); number, currency, date, time and
    timestamp to the real vector; logical to the logical vector; fixed
    text, BCD, memo and formatted memo to the character vector; inline
    binary, OLE, graphic and blob to the list; every other type code to
    the character vector.  It raises no error and signals no warning:
    the world is as before.  The warning for a type code that is not
    known is the decoder's, for each value whose null flag is unset. *)
Theorem type_mapper_allocates (fields : list pxfield_t) (num_records : Z)
    (w : world) :
  0 <= num_records ->
  alloc_columns fields (Z.of_nat (length fields)) num_records
    (ListVec (replicate (length fields) R_NilValue)) w
  = (Done (ListVec (map (fresh_column num_records) fields)), w) /\
  (forall f, TYPEOF (fresh_column num_records f) = column_type (px_ftype f)) /\
  (column_type pxfShort = INTSXP /\ column_type pxfLong = INTSXP /\
   column_type pxfAutoInc = INTSXP) /\
  (column_type pxfNumber = REALSXP /\ column_type pxfCurrency = REALSXP /\
   column_type pxfDate = REALSXP /\ column_type pxfTime = REALSXP /\
   column_type pxfTimestamp = REALSXP) /\
  column_type pxfLogical = LGLSXP /\
  (column_type pxfAlpha = STRSXP /\ column_type pxfBCD = STRSXP /\
   column_type pxfMemoBLOb = STRSXP /\ column_type pxfFmtMemoBLOb = STRSXP) /\
  (column_type pxfBytes = VECSXP /\ column_type pxfOLE = VECSXP /\
   column_type pxfGraphic = VECSXP /\ column_type pxfBLOb = VECSXP) /\
  (forall code, column_type (pxfOther code) = STRSXP) /\
  (forall val t w0, column_type t = INTSXP -> isnull val = false ->
     px_to_sexp val t w0 = (Done (IntVec [int_of_long (lval val)]), w0) /\
     - 2 ^ 31 <= int_of_long (lval val) < 2 ^ 31) /\
  (forall val code w0, isnull val = false ->
     px_to_sexp val (pxfOther code) w0
     = (Done R_NilValue, log_warning (WarnUnhandledFieldType (pxfOther code)) w0)).
Proof.
  intros Hn. split; [| split].
  - pose proof (alloc_columns_run fields (Z.of_nat (length fields)) num_records w Hn)
      as H.
    rewrite Nat2Z.id, firstn_all in H. apply H. lia.
  - intros f. unfold fresh_column. destruct (column_type (px_ftype f)) eqn:E;
      try reflexivity; destruct (px_ftype f); discriminate E.
  - do 5 (split; [repeat split |]). split; [reflexivity |]. split.
    + intros val t w0 Ht Hnull. split; [| apply int_of_long_range].
      unfold px_to_sexp. rewrite Hnull.
      destruct t; try discriminate Ht; reflexivity.
    + intros val code w0 Hnull. unfold px_to_sexp. rewrite Hnull. reflexivity.
Qed.

Lemma type_mapper_allocates_witness :
  alloc_columns [unknown_field; PxField [x59] pxfLong 4] 2 1
    (ListVec [R_NilValue; R_NilValue]) empty_world
  = (Done (ListVec [StrVec [CharSxp []]; IntVec [0]]), empty_world).
Proof.
  refine (proj1 (type_mapper_allocates [unknown_field; PxField [x59] pxfLong 4] 1
                   empty_world _)).
  lia.
Defined.

(** ** The dataset *)

Lemma index_Done_inv {A} (l : list A) (j : nat) (x : A) (w w' : world) :
  index l j w = (Done x, w') -> l !! j = Some x /\ w' = w.
Proof.
  unfold index. destruct (l !! j); [| discriminate].
  intros [= -> ->]. split; reflexivity.
Qed.

Lemma px_to_sexp_pxdocs (val : pxval_t) (t : px_fieldtype) (w w' : world)
    (o : outcome SEXP) :
  px_to_sexp val t w = (o, w') -> pxdocs w' = pxdocs w.
Proof.
  intros H. pose proof (px_to_sexp_frame val t w) as F. rewrite H in F.
  simpl in F. tauto.
Qed.

Lemma store_value_run (column : SEXP) (i j : nat) (r_val : SEXP) (w : world) :
  exists column' w',
    store_value column i j r_val w = (Done column', w') /\ pxdocs w' = pxdocs w.
Proof.
  destruct column; simpl; eauto.
Qed.

Lemma VECTOR_ELT_Done_inv (x column : SEXP) (j : nat) (w w' : world) :
  VECTOR_ELT x j w = (Done column, w') -> w' = w.
Proof.
  destruct x; try discriminate. simpl. intros H.
  apply index_Done_inv in H. tauto.
Qed.

(** Filling a record leaves the backend's documents and the external
    pointers as they are. *)
Lemma fill_record_frame (fields : list pxfield_t) (num_fields : Z)
    (record_values : list pxval_t) (i : nat) (a a' : SEXP) (w w' : world) :
  fill_record fields num_fields record_values i a w = (Done a', w') ->
  pxdocs w' = pxdocs w /\ extptr_addr w' = extptr_addr w.
Proof.
  unfold fill_record.
  apply (for_loop_keeps _
           (fun w1 => pxdocs w1 = pxdocs w /\ extptr_addr w1 = extptr_addr w));
    [| split; reflexivity].
  intros j a0 w0 a1 w1 [HQ1 HQ2] Hrun.
  apply bind_Done_inv in Hrun as (val & w2 & Hval & Hrun).
  apply index_Done_inv in Hval as [_ ->].
  apply bind_Done_inv in Hrun as (f & w2 & Hf & Hrun).
  apply index_Done_inv in Hf as [_ ->].
  apply bind_Done_inv in Hrun as (r_val & w2 & Hdec & Hrun).
  pose proof (px_to_sexp_frame val (px_ftype f) w0) as F.
  rewrite Hdec in F. simpl in F. destruct F as (F1 & F2 & _).
  apply bind_Done_inv in Hrun as (column & w3 & Hcol & Hrun).
  apply VECTOR_ELT_Done_inv in Hcol as ->.
  apply bind_Done_inv in Hrun as (column' & w3 & Hstore & Hrun).
  injection Hrun as _ <-.
  destruct column; simpl in Hstore; injection Hstore as _ <-; simpl;
    split; congruence.
Qed.

Lemma fill_record_pxdocs (fields : list pxfield_t) (num_fields : Z)
    (record_values : list pxval_t) (i : nat) (a a' : SEXP) (w w' : world) :
  fill_record fields num_fields record_values i a w = (Done a', w') ->
  pxdocs w' = pxdocs w.
Proof. intros H. apply fill_record_frame in H. tauto. Qed.

Lemma fill_record_extptr (fields : list pxfield_t) (num_fields : Z)
    (record_values : list pxval_t) (i : nat) (a a' : SEXP) (w w' : world) :
  fill_record fields num_fields record_values i a w = (Done a', w') ->
  extptr_addr w' = extptr_addr w.
Proof. intros H. apply fill_record_frame in H. tauto. Qed.

Lemma fill_step_pxdocs (d : positive) (fields : list pxfield_t) (num_fields : Z)
    (i : nat) (a a' : SEXP) (w w' : world) :
  fill_step d fields num_fields i a w = (Done a', w') ->
  pxdocs w' = pxdocs w.
Proof.
  unfold fill_step, PX_retrieve_record, mbind, M_bind.
  destruct (pxdocs w !! d); [| discriminate].
  destruct (px_records p (Z.of_nat i)); [| discriminate].
  apply fill_record_pxdocs.
Qed.

(** The step of a record that cannot be retrieved raises the error that
    carries its 1-based number. *)
Lemma fill_step_raises (d : positive) (doc : pxdoc_t) (fields : list pxfield_t)
    (num_fields : Z) (i : nat) (a : SEXP) (w : world) :
  pxdocs w !! d = Some doc ->
  px_records doc (Z.of_nat i) = None ->
  fill_step d fields num_fields i a w
  = (Raised (ErrRetrieveRecord (Z.of_nat i + 1)), w).
Proof.
  intros Hd Hrec. unfold fill_step, PX_retrieve_record, mbind, M_bind.
  rewrite Hd, Hrec. reflexivity.
Qed.

Lemma check_pxdoc_ptr_run (w : world) (id d : positive) :
  extptr_addr w !! id = Some (Some d) ->
  check_pxdoc_ptr (ExtPtr id) w = (Done (Some d), w).
Proof.
  intros Hid. unfold check_pxdoc_ptr, R_ExternalPtrAddr, gets, mbind, M_bind.
  rewrite Hid. simpl. rewrite Hid. reflexivity.
Qed.

Lemma PX_get_run {A} (w : world) (d : positive) (doc : pxdoc_t) (h : pxhead_t)
    (field : pxhead_t -> A) (none : A) :
  pxdocs w !! d = Some doc ->
  px_head doc = Some h ->
  PX_get d field none w = (Done (field h), w).
Proof. intros Hd Hh. unfold PX_get. rewrite Hd, Hh. reflexivity. Qed.

(** [pxlib_get_data_c] on a live handle of a file with records, down to
    its four steps. *)
Lemma get_data_steps (w : world) (id d : positive) (doc : pxdoc_t) (h : pxhead_t) :
  extptr_addr w !! id = Some (Some d) ->
  pxdocs w !! d = Some doc ->
  px_head doc = Some h ->
  0 < px_numrecords h ->
  pxlib_get_data_c (ExtPtr id) w
  = match px_fields h with
    | None => (Raised ErrFieldDefinitions, w)
    | Some fields =>
        (data_list ← allocVector VECSXP (px_numfields h);
         data_list ← alloc_columns fields (px_numfields h) (px_numrecords h) data_list;
         data_list ← fill_records d fields (px_numfields h) (px_numrecords h) data_list;
         col_names ← column_names fields (px_numfields h);
         attrs ← all_column_attributes fields (px_numfields h);
         mret (Some (Dataset data_list col_names attrs))) w
    end.
Proof.
  intros Hid Hd Hh Hn.
  unfold pxlib_get_data_c, PX_get_num_records, PX_get_num_fields, PX_get_fields.
  rewrite (bind_Done _ _ _ _ _ (check_pxdoc_ptr_run w id d Hid)).
  rewrite (bind_Done _ _ _ _ _ (PX_get_run w d doc h px_numrecords (-1) Hd Hh)).
  rewrite (bind_Done _ _ _ _ _ (PX_get_run w d doc h px_numfields (-1) Hd Hh)).
  destruct (Z.leb_spec (px_numrecords h) 0); [lia |].
  rewrite (bind_Done _ _ _ _ _ (PX_get_run w d doc h px_fields None Hd Hh)).
  destruct (px_fields h); reflexivity.
Qed.

Lemma allocVector_Done_inv (type : SEXPTYPE) (n : Z) (x : SEXP) (w w' : world) :
  allocVector type n w = (Done x, w') -> w' = w.
Proof.
  unfold allocVector. destruct (n <? 0); [discriminate |].
  intros [= _ ->]. reflexivity.
Qed.

Lemma alloc_columns_Done_inv (fields : list pxfield_t) (num_fields num_records : Z)
    (a a' : SEXP) (w w' : world) :
  alloc_columns fields num_fields num_records a w = (Done a', w') -> w' = w.
Proof.
  unfold alloc_columns.
  apply (for_loop_keeps _ (fun w1 => w1 = w)); [| reflexivity].
  intros j a0 w0 a1 w1 -> Hrun.
  apply bind_Done_inv in Hrun as (f & w2 & Hf & Hrun).
  apply index_Done_inv in Hf as [_ ->].
  apply bind_Done_inv in Hrun as (c & w2 & Hc & Hrun).
  apply allocVector_Done_inv in Hc as ->.
  injection Hrun as _ <-. reflexivity.
Qed.

(** A record all of whose values convert fills its cells and returns. *)
Lemma fill_record_run (fields : list pxfield_t) (num_fields : Z)
    (record_values : list pxval_t) (i : nat) (xs : list SEXP) (w : world) :
  length xs = Z.to_nat num_fields ->
  (Z.to_nat num_fields <= length record_values)%nat ->
  (Z.to_nat num_fields <= length fields)%nat ->
  (forall j val f w0,
     record_values !! j = Some val -> fields !! j = Some f ->
     exists r, fst (px_to_sexp val (px_ftype f) w0) = Done r) ->
  exists xs' w',
    fill_record fields num_fields record_values i (ListVec xs) w
    = (Done (ListVec xs'), w') /\
    length xs' = Z.to_nat num_fields /\ pxdocs w' = pxdocs w.
Proof.
  intros Hxs Hvals Hfields Hconv. unfold fill_record.
  set (n := Z.to_nat num_fields) in *.
  destruct (for_loop_invariant
    (fun j data_list =>
       val ← index record_values j;
       f ← index fields j;
       r_val ← px_to_sexp val (px_ftype f);
       column ← VECTOR_ELT data_list j;
       column' ← store_value column i j r_val;
       mret (SET_VECTOR_ELT data_list j column'))
    (fun _ a w1 =>
       (exists ys, a = ListVec ys /\ length ys = n) /\ pxdocs w1 = pxdocs w)
    n 0%nat (ListVec xs) w) as (a' & w' & Hrun & (ys & -> & Hys) & Hw).
  - intros j a w1 Hj [(ys & -> & Hys) Hw1].
    destruct (lookup_lt_is_Some_2 record_values j ltac:(lia)) as [val Hval].
    destruct (lookup_lt_is_Some_2 fields j ltac:(lia)) as [f Hf].
    destruct (lookup_lt_is_Some_2 ys j ltac:(lia)) as [column Hcol].
    destruct (Hconv j val f w1 Hval Hf) as [r Hr].
    destruct (px_to_sexp val (px_ftype f) w1) as [o w2] eqn:Hdec.
    simpl in Hr. subst o.
    destruct (store_value_run column i j r w2) as (column' & w3 & Hstore & Hw3).
    exists (ListVec (<[j := column']> ys)), w3. split.
    + rewrite (bind_Done _ _ _ _ _ (index_run record_values j val w1 Hval)).
      rewrite (bind_Done _ _ _ _ _ (index_run fields j f w1 Hf)).
      rewrite (bind_Done _ _ _ _ _ Hdec).
      rewrite (bind_Done _ _ _ _ _
                 (index_run ys j column w2 Hcol
                  : VECTOR_ELT (ListVec ys) j w2 = _)).
      rewrite (bind_Done _ _ _ _ _ Hstore). reflexivity.
    + split.
      * exists (<[j := column']> ys). split; [reflexivity |].
        rewrite length_insert. exact Hys.
      * apply px_to_sexp_pxdocs in Hdec. congruence.
  - split; [| reflexivity]. exists xs. split; [reflexivity | exact Hxs].
  - exists ys, w'. split; [exact Hrun | split; assumption].
Qed.

(** C9. On a live handle of a file with records, when the raw values of
    some record cannot be retrieved the call does not return: no dataset,
    partial or not, comes back.  When that record is reached, that is
    when the field definitions are there and the records before it were
    retrieved and their values converted, the error raised is the one
    that carries the record's 1-based number; the handle stays live. *)
Theorem retrieval_failure_aborts (w : world) (id d : positive) (doc : pxdoc_t)
    (h : pxhead_t) (i : nat) :
  extptr_addr w !! id = Some (Some d) ->
  pxdocs w !! d = Some doc ->
  px_head doc = Some h ->
  0 < px_numrecords h ->
  Z.of_nat i < px_numrecords h ->
  px_records doc (Z.of_nat i) = None ->
  (forall ds w', pxlib_get_data_c (ExtPtr id) w <> (Done ds, w')) /\
  (forall fields,
     px_fields h = Some fields ->
     0 <= px_numfields h ->
     (Z.to_nat (px_numfields h) <= length fields)%nat ->
     (forall k, (k < i)%nat ->
        exists vals,
          px_records doc (Z.of_nat k) = Some vals /\
          (Z.to_nat (px_numfields h) <= length vals)%nat /\
          forall j val f w0,
            vals !! j = Some val -> fields !! j = Some f ->
            exists r, fst (px_to_sexp val (px_ftype f) w0) = Done r) ->
     exists w',
       pxlib_get_data_c (ExtPtr id) w
       = (Raised (ErrRetrieveRecord (Z.of_nat i + 1)), w') /\
       pxdocs w' = pxdocs w /\ extptr_addr w' = extptr_addr w).
Proof.
  intros Hid Hd Hh Hn Hi Hrec.
  rewrite (get_data_steps w id d doc h Hid Hd Hh Hn).
  split.
  - intros ds w' Hrun. destruct (px_fields h) as [fields |]; [| discriminate].
    apply bind_Done_inv in Hrun as (dl0 & w1 & Halloc & Hrun).
    apply allocVector_Done_inv in Halloc as ->.
    apply bind_Done_inv in Hrun as (dl1 & w1 & Hcols & Hrun).
    apply alloc_columns_Done_inv in Hcols as ->.
    apply bind_Done_inv in Hrun as (dl2 & w1 & Hfill & _).
    revert Hfill. unfold fill_records.
    apply (for_loop_not_done _ (fun w1 => pxdocs w1 = pxdocs w)
             (Z.to_nat (px_numrecords h)) 0%nat i).
    + intros k a w0 a' w0' HQ Hstep.
      apply fill_step_pxdocs in Hstep. congruence.
    + intros a w0 a' w0' HQ.
      rewrite (fill_step_raises d doc fields _ i a w0); [discriminate | | exact Hrec].
      rewrite HQ. exact Hd.
    + lia.
    + reflexivity.
  - intros fields Hf Hnf Hfields Hbefore. rewrite Hf.
    rewrite (bind_Done _ _ _ _ _ (allocVector_run VECSXP (px_numfields h) w Hnf)).
    rewrite (bind_Done _ _ _ _ _
               (alloc_columns_run fields (px_numfields h) (px_numrecords h) w
                  ltac:(lia) Hfields)).
    destruct (for_loop_raises (fill_step d fields (px_numfields h))
      (fun _ a w1 =>
         (exists ys, a = ListVec ys /\ length ys = Z.to_nat (px_numfields h)) /\
         pxdocs w1 = pxdocs w /\ extptr_addr w1 = extptr_addr w)
      (Z.to_nat (px_numrecords h)) i 0%nat
      (ListVec (map (fresh_column (px_numrecords h))
                  (take (Z.to_nat (px_numfields h)) fields)))
      w (ErrRetrieveRecord (Z.of_nat i + 1)))
      as (a' & w' & (_ & Hw' & He') & Hrun).
    + lia.
    + intros k a w1 Hk [(ys & -> & Hys) [Hw1 He1]].
      destruct (Hbefore k ltac:(lia)) as (vals & Hvals & Hlen & Hconv).
      destruct (fill_record_run fields (px_numfields h) vals k ys w1
                  Hys Hlen Hfields Hconv) as (ys' & w2 & Hrun & Hys' & Hw2).
      exists (ListVec ys'), w2. split; [| split; [eauto | split]].
      * unfold fill_step, PX_retrieve_record, mbind, M_bind.
        rewrite Hw1, Hd, Hvals. exact Hrun.
      * congruence.
      * rewrite <- He1. exact (fill_record_extptr _ _ _ _ _ _ _ _ Hrun).
    + intros a w1 (_ & Hw1 & _). apply (fill_step_raises d doc).
      * rewrite Hw1. exact Hd.
      * exact Hrec.
    + split; [| split; reflexivity].
      eexists. split; [reflexivity |].
      rewrite length_map, length_take. lia.
    + exists w'. split; [| split; assumption].
      apply bind_Raised. exact Hrun.
Qed.

Lemma retrieval_failure_aborts_witness :
  exists w',
    pxlib_get_data_c (ExtPtr 1) second_record_lost_world
    = (Raised (ErrRetrieveRecord 2), w') /\
    pxdocs w' = pxdocs second_record_lost_world /\
    extptr_addr w' = extptr_addr second_record_lost_world.
Proof.
  refine (proj2 (retrieval_failure_aborts second_record_lost_world 1 1
                   (PxDoc (Some (PxHead 0 866 2 1 (Some [PxField [x59] pxfLong 4])))
                          (fun i => if i =? 0 then Some [date_value 7] else None))
                   (PxHead 0 866 2 1 (Some [PxField [x59] pxfLong 4]))
                   1 _ _ _ _ _ _) [PxField [x59] pxfLong 4] _ _ _ _);
    try reflexivity; try (simpl; lia).
  intros k Hk. assert (k = 0%nat) as -> by lia.
  exists [date_value 7]. split; [reflexivity | split; [simpl; lia |]].
  intros [| j] val f w0 Hval Hf; [| discriminate Hval].
  injection Hval as <-. injection Hf as <-. eexists. reflexivity.
Defined.

(** * Further properties *)

(** ** More of the value decoder *)

(** The value and the outcome of the decoder do not depend on the world
    it runs in. *)
Lemma px_to_sexp_outcome (val : pxval_t) (t : px_fieldtype) (w w' : world) :
  fst (px_to_sexp val t w) = fst (px_to_sexp val t w').
Proof.
  unfold px_to_sexp, mkChar, mkCharLen, strcmp, allocVector, memcpy_raw, pxdoc_free.
  destruct (isnull val); [reflexivity |].
  destruct t; run_cases; reflexivity.
Qed.

Lemma px_value_Done (val : pxval_t) (t : px_fieldtype) (w w' : world) (r : SEXP) :
  px_to_sexp val t w = (Done r, w') -> px_value val t = Some r.
Proof.
  intros H. unfold px_value.
  rewrite (px_to_sexp_outcome val t empty_world w), H. reflexivity.
Qed.

(** What a returning decoder did to the world: the releases of
    [released], the warnings of [warned], nothing else. *)
Lemma px_to_sexp_effects (val : pxval_t) (t : px_fieldtype) (w w' : world) (r : SEXP) :
  px_to_sexp val t w = (Done r, w') ->
  w' = World (extptr_addr w) (pxdocs w) (files w) (px_new_succeeds w) (calls w)
             (freed w ++ released val t) (warnings w ++ warned val t).
Proof.
  destruct w as [e p f n c fr wa].
  unfold px_to_sexp, mkChar, mkCharLen, strcmp, allocVector, memcpy_raw,
    pxdoc_free, released, warned.
  destruct (isnull val).
  - run. intros [= _ <-]. rewrite !app_nil_r. reflexivity.
  - destruct t; run_cases; intros [= _ <-];
      cbv [log_free log_warning extptr_addr pxdocs files px_new_succeeds calls
           freed warnings]; rewrite ?app_nil_r; reflexivity.
Qed.

(** X1. A value of a type decoded from the integer or the real member
    (short, long, autoincrement, number, currency, logical, date, time,
    timestamp) is decoded without any effect: the decoder returns, the
    world is as before (nothing released, nothing warned, no error), and
    what it returns is absent or a scalar of the very vector type the
    mapper gives the column. *)
Theorem scalar_decoding_has_no_effect (val : pxval_t) (t : px_fieldtype) (w : world) :
  is_scalar t = true ->
  exists r, px_to_sexp val t w = (Done r, w) /\
            (r = R_NilValue \/ (TYPEOF r = column_type t /\ LENGTH r = 1%nat)).
Proof.
  intros Ht. unfold px_to_sexp.
  destruct (isnull val); [run; eauto |].
  destruct t; try discriminate Ht; run_cases; eauto.
Qed.

Lemma scalar_decoding_has_no_effect_witness :
  exists r, px_to_sexp (time_value 3600000) pxfTime empty_world = (Done r, empty_world) /\
            (r = R_NilValue \/ (TYPEOF r = REALSXP /\ LENGTH r = 1%nat)).
Proof.
  apply (scalar_decoding_has_no_effect (time_value 3600000) pxfTime empty_world).
  reflexivity.
Defined.

(** The string at the start of a block ends at the first zero byte. *)
Lemma c_string_app (s rest : list byte) :
  (x00 ∉ s) -> c_string (s ++ x00 :: rest) = Some s.
Proof.
  induction s as [| b s IH]; intros Hs; [reflexivity |].
  simpl. destruct (Byte.eqb b x00) eqn:E.
  - apply Byte.byte_dec_bl in E. subst b. exfalso. apply Hs. left.
  - rewrite IH; [reflexivity |]. intros H. apply Hs. right. exact H.
Qed.

Lemma c_string_inv (bs s : list byte) :
  c_string bs = Some s -> (x00 ∉ s) /\ exists rest, bs = s ++ x00 :: rest.
Proof.
  revert s. induction bs as [| b bs IH]; intros s; [discriminate |].
  simpl. destruct (Byte.eqb b x00) eqn:E.
  - apply Byte.byte_dec_bl in E. subst b. intros [= <-].
    split; [apply not_elem_of_nil | exists bs; reflexivity].
  - destruct (c_string bs) as [s' |]; [| discriminate]. intros [= <-].
    destruct (IH s' eq_refl) as [Hs' [rest ->]]. split.
    + intros H. apply elem_of_cons in H as [H | H]; [| exact (Hs' H)].
      apply Byte.eqb_false in E. congruence.
    + exists rest. reflexivity.
Qed.

Lemma no_zero_byte (s : list byte) :
  (x00 ∉ s) -> existsb (Byte.eqb x00) s = false.
Proof.
  induction s as [| b s IH]; intros Hs; [reflexivity |]. simpl.
  destruct (Byte.eqb x00 b) eqn:E.
  - apply Byte.byte_dec_bl in E. subst b. exfalso. apply Hs. left.
  - apply IH. intros H. apply Hs. right. exact H.
Qed.

(** X2. Fixed text is read as a C string: the decoder returns the bytes
    before the first zero byte of the buffer, whatever follows it and
    whatever the stored length says, and releases the buffer once. *)
Theorem alpha_decoding_stops_at_terminator (val : pxval_t) (a : addr)
    (s rest : list byte) (w : world) :
  isnull val = false ->
  str_val val = Some (Buffer a (s ++ x00 :: rest)) ->
  (x00 ∉ s) ->
  px_to_sexp val pxfAlpha w = (Done (CharSxp s), log_free a w).
Proof.
  intros Hnull Hptr Hs. unfold px_to_sexp, mkChar, pxdoc_free.
  rewrite Hnull, Hptr. simpl. rewrite (c_string_app s rest Hs). reflexivity.
Qed.

Lemma alpha_decoding_stops_at_terminator_witness :
  px_to_sexp (string_value 7%positive [x41; x42; x00; x43] 99) pxfAlpha empty_world
  = (Done (CharSxp [x41; x42]), log_free 7%positive empty_world).
Proof.
  apply (alpha_decoding_stops_at_terminator _ 7%positive [x41; x42] [x43]);
    try reflexivity.
  intros H. repeat (apply elem_of_cons in H as [H | H]; [discriminate H |]).
  exact (not_elem_of_nil _ H).
Defined.

(** X3. Memo text is read by its stored length, not to a terminator:
    the decoder returns exactly the first [str_len] bytes of the buffer,
    which need not be followed by a zero byte, and releases the buffer
    once. *)
Theorem memo_decoding_reads_the_length (val : pxval_t) (t : px_fieldtype)
    (a : addr) (s rest : list byte) (w : world) :
  t = pxfMemoBLOb \/ t = pxfFmtMemoBLOb ->
  isnull val = false ->
  str_val val = Some (Buffer a (s ++ rest)) ->
  str_len val = Z.of_nat (length s) ->
  (x00 ∉ s) ->
  px_to_sexp val t w = (Done (CharSxp s), log_free a w).
Proof.
  intros Ht Hnull Hptr Hlen Hs.
  assert (px_to_sexp val t w
          = (r ← mkCharLen (str_val val) (str_len val);
             pxdoc_free (str_val val);; mret r) w) as ->.
  { unfold px_to_sexp. rewrite Hnull, Hptr. destruct Ht as [-> | ->]; reflexivity. }
  unfold mkCharLen, pxdoc_free. rewrite Hptr, Hlen. simpl buf_bytes.
  destruct (Z.ltb_spec (Z.of_nat (length s)) 0); [lia |].
  destruct (Z.eqb_spec (Z.of_nat (length s)) 0) as [E | E].
  - destruct s; [reflexivity | simpl in E; lia].
  - rewrite length_app.
    destruct (Z.ltb_spec (Z.of_nat (length s + length rest)) (Z.of_nat (length s)));
      [lia |].
    rewrite Nat2Z.id, take_app_length, (no_zero_byte s Hs). reflexivity.
Qed.

Lemma memo_decoding_reads_the_length_witness :
  px_to_sexp (string_value 7%positive [x41; x42; x43] 2) pxfMemoBLOb empty_world
  = (Done (CharSxp [x41; x42]), log_free 7%positive empty_world).
Proof.
  apply (memo_decoding_reads_the_length _ pxfMemoBLOb 7%positive [x41; x42] [x43]);
    try reflexivity; [left; reflexivity |].
  intros H. repeat (apply elem_of_cons in H as [H | H]; [discriminate H |]).
  exact (not_elem_of_nil _ H).
Defined.

(** X4. A large binary object (blob, graphic, OLE) decodes to a raw
    vector holding exactly the first [str_len] bytes of the buffer, zero
    bytes included, or to absent when the stored length is zero; either
    way the buffer is released once. *)
Theorem blob_decoding_copies_the_length (val : pxval_t) (t : px_fieldtype)
    (a : addr) (s rest : list byte) (w : world) :
  t = pxfBLOb \/ t = pxfGraphic \/ t = pxfOLE ->
  isnull val = false ->
  str_val val = Some (Buffer a (s ++ rest)) ->
  str_len val = Z.of_nat (length s) ->
  px_to_sexp val t w
  = (Done (match s with [] => R_NilValue | _ :: _ => RawVec s end), log_free a w).
Proof.
  intros Ht Hnull Hptr Hlen.
  assert (px_to_sexp val t w
          = (if str_len val =? 0 then
               match str_val val with
               | Some _ => pxdoc_free (str_val val)
               | None => mret tt
               end;;
               mret R_NilValue
             else
               _ ← allocVector RAWSXP (str_len val);
               raw_vec ← memcpy_raw (str_val val) (str_len val);
               pxdoc_free (str_val val);;
               mret raw_vec) w) as ->.
  { unfold px_to_sexp. rewrite Hnull. destruct Ht as [-> | [-> | ->]]; reflexivity. }
  destruct s as [| b s]; [rewrite Hptr, Hlen; reflexivity |].
  remember (b :: s) as s' eqn:Es.
  assert (0 < Z.of_nat (length s')) as Hpos by (subst s'; simpl; lia).
  rewrite Hptr, Hlen. unfold allocVector, memcpy_raw, pxdoc_free.
  cbn [buf_bytes buf_addr].
  destruct (Z.eqb_spec (Z.of_nat (length s')) 0) as [E | _]; [lia |].
  unfold mbind, M_bind, mret, M_ret, modify.
  destruct (Z.ltb_spec (Z.of_nat (length s')) 0); [lia |].
  rewrite length_app.
  destruct (Z.ltb_spec (Z.of_nat (length s' + length rest)) (Z.of_nat (length s')));
    [lia |].
  rewrite Nat2Z.id, take_app_length. subst s'. reflexivity.
Qed.

Lemma blob_decoding_copies_the_length_witness :
  px_to_sexp (string_value 7%positive [x41; x00; x42; x43] 3) pxfGraphic empty_world
  = (Done (RawVec [x41; x00; x42]), log_free 7%positive empty_world).
Proof.
  apply (blob_decoding_copies_the_length _ pxfGraphic 7%positive [x41; x00; x42] [x43]);
    try reflexivity.
  right. left. reflexivity.
Defined.

(** X5. A binary-coded decimal decodes to absent exactly when its string
    is the blank pattern, and to that very string otherwise; the buffer is
    released once in both cases. *)
Theorem bcd_decoding_blank_is_absent (val : pxval_t) (a : addr)
    (s rest : list byte) (w : world) :
  isnull val = false ->
  str_val val = Some (Buffer a (s ++ x00 :: rest)) ->
  (x00 ∉ s) ->
  (s = BCD_BLANK -> px_to_sexp val pxfBCD w = (Done R_NilValue, log_free a w)) /\
  (s <> BCD_BLANK -> px_to_sexp val pxfBCD w = (Done (CharSxp s), log_free a w)).
Proof.
  intros Hnull Hptr Hs.
  pose proof (bcd_decoding val (Buffer a (s ++ x00 :: rest)) s w Hnull Hptr
                (c_string_app s rest Hs)) as H.
  simpl in H. destruct (decide (s = BCD_BLANK)); split; intros; congruence.
Qed.

Lemma bcd_decoding_blank_is_absent_witness :
  px_to_sexp (string_value 7%positive [x31; x32; x00] 2) pxfBCD empty_world
  = (Done (CharSxp [x31; x32]), log_free 7%positive empty_world).
Proof.
  refine (proj2 (bcd_decoding_blank_is_absent _ 7%positive [x31; x32] [] empty_world
                   _ _ _) _); try reflexivity.
  - intros H. repeat (apply elem_of_cons in H as [H | H]; [discriminate H |]).
    exact (not_elem_of_nil _ H).
  - discriminate.
Defined.

(** *** Whole seconds of a day convert exactly *)

Lemma time_range_checked :
  all_from time_exact_at (Z.to_nat 86401) 0%uint63 = true.
Proof. vm_compute. reflexivity. Qed.

Lemma time_whole_seconds_exact (k : Z) :
  0 <= k <= 86400 ->
  (double_of_long (1000 * k) / 1000)%float = double_of_long k.
Proof.
  intros Hk.
  pose proof (all_from_spec _ _ _ time_range_checked (Z.to_nat k) ltac:(lia)) as H.
  rewrite Z2Nat.id in H by lia.
  assert (wB = 2 ^ 63) as HwB by reflexivity.
  assert ((0 + Uint63.of_Z k)%uint63 = Uint63.of_Z k) as E.
  { apply to_Z_inj. rewrite Uint63.add_spec, !Uint63.of_Z_spec.
    change (Uint63.to_Z 0) with 0. rewrite Z.add_0_l, Z.mod_mod; [reflexivity |].
    rewrite HwB. lia. }
  rewrite E in H. unfold time_exact_at in H.
  apply FloatAxioms.Leibniz.eqb_spec in H.
  rewrite (double_of_long_nonneg (1000 * k)), (double_of_long_nonneg k) by lia.
  rewrite <- H. do 2 f_equal.
  apply to_Z_inj. rewrite Uint63.mul_spec, !Uint63.of_Z_spec.
  change (Uint63.to_Z 1000) with 1000.
  rewrite Z.mul_mod_idemp_l by (rewrite HwB; lia). f_equal. lia.
Qed.

(** X6. A time of day whose null flag is unset decodes to absent exactly
    when its millisecond count is negative, and otherwise to the count
    divided by 1000 in double arithmetic; for every whole second of a day
    (0 to 86400 seconds) the result is exactly that number of seconds. *)
Theorem time_decoding (val : pxval_t) (w : world) :
  isnull val = false ->
  (fst (px_to_sexp val pxfTime w) = Done R_NilValue <-> lval val < 0) /\
  (0 <= lval val ->
     px_to_sexp val pxfTime w
     = (Done (ScalarReal (double_of_long (lval val) / 1000)%float), w)) /\
  (forall k, 0 <= k <= 86400 -> lval val = 1000 * k ->
     px_to_sexp val pxfTime w = (Done (ScalarReal (double_of_long k)), w)).
Proof.
  intros Hnull. unfold px_to_sexp. rewrite Hnull.
  split; [| split].
  - destruct (Z.ltb_spec (lval val) 0); run; split; intros; try lia; try reflexivity.
    discriminate.
  - intros H. destruct (Z.ltb_spec (lval val) 0); [lia | reflexivity].
  - intros k Hk ->. destruct (Z.ltb_spec (1000 * k) 0); [lia |].
    rewrite (time_whole_seconds_exact k Hk). reflexivity.
Qed.

Lemma time_decoding_witness :
  px_to_sexp (time_value 3600000) pxfTime empty_world
  = (Done (ScalarReal 3600%float), empty_world).
Proof.
  refine (proj2 (proj2 (time_decoding (time_value 3600000) empty_world _)) 3600 _ _);
    try reflexivity.
  lia.
Defined.

(** Storing a value of the kind the column takes into a column of the
    type the mapper gave its field. *)
Lemma store_value_cell (t : px_fieldtype) (column r_val : SEXP) (i j : nat)
    (w : world) :
  TYPEOF column = column_type t ->
  (i < LENGTH column)%nat ->
  fits_column t r_val ->
  exists column',
    store_value column i j r_val w = (Done column', w) /\
    cell_set t i r_val column column'.
Proof.
  intros Ht Hi _. unfold cell_set.
  destruct column; simpl in Ht, Hi; try (destruct t; discriminate Ht);
    rewrite <- Ht; eexists; (split; [reflexivity |]); simpl;
    rewrite length_insert, list_lookup_insert_eq by exact Hi;
    (repeat split; try reflexivity);
    intros i' Hne; rewrite list_lookup_insert_ne by congruence; reflexivity.
Qed.

(** X7. Storing a decoded value (absent, or a value of the kind the
    column of its field takes) into a column of the type the mapper gave
    the field never takes the warning arm of the [switch] on the column's
    type and leaves the world alone; the column keeps its type and its
    length, cell [i] now holds the value (with R's NA of the column for
    an absent one) and every other cell is as before. *)
Theorem store_value_keeps_the_column (t : px_fieldtype) (column r_val : SEXP)
    (i j : nat) (w : world) :
  TYPEOF column = column_type t ->
  (i < LENGTH column)%nat ->
  fits_column t r_val ->
  exists column',
    store_value column i j r_val w = (Done column', w) /\
    TYPEOF column' = column_type t /\
    LENGTH column' = LENGTH column /\
    column_cell column' i = Some (stored_cell (column_type t) r_val) /\
    (forall i', i' <> i -> column_cell column' i' = column_cell column i').
Proof.
  intros Ht Hi Hfits.
  destruct (store_value_cell t column r_val i j w Ht Hi Hfits)
    as (column' & Hrun & Htype & Hlen & Hcell & Hrest).
  rewrite Ht in Htype. exists column'. repeat split; assumption.
Qed.

Lemma store_value_keeps_the_column_witness :
  exists column',
    store_value (IntVec [0; 0]) 1 0 (ScalarInteger 5) empty_world
    = (Done column', empty_world) /\
    TYPEOF column' = INTSXP /\
    LENGTH column' = 2%nat /\
    column_cell column' 1 = Some (CellInt 5) /\
    (forall i', i' <> 1%nat -> column_cell column' i' = column_cell (IntVec [0; 0]) i').
Proof.
  apply (store_value_keeps_the_column pxfLong (IntVec [0; 0]) (ScalarInteger 5) 1 0
           empty_world).
  - reflexivity.
  - simpl. lia.
  - right. simpl. eexists. reflexivity.
Defined.

(** X8. Absent text ends as the same cell whichever way it is absent.
    When the null flag is set the decoder returns [R_NilValue]; when the
    flag is unset and the buffer pointer is null it returns [NA_STRING]
    for fixed text and [R_NilValue] for memo text.  Stored in the
    character column of the field, each is the cell [NA_STRING], and
    nothing is released or warned. *)
Theorem absent_text_is_one_cell (val : pxval_t) (t : px_fieldtype) (w : world) :
  t = pxfAlpha \/ t = pxfMemoBLOb \/ t = pxfFmtMemoBLOb ->
  isnull val = true \/ str_val val = None ->
  px_to_sexp val t w
  = (Done (if isnull val then R_NilValue
           else match t with
                | pxfAlpha => NA_STRING
                | _ => R_NilValue
                end), w) /\
  stored_cell (column_type t) R_NilValue = CellSexp NA_STRING /\
  stored_cell (column_type t) NA_STRING = CellSexp NA_STRING.
Proof.
  intros Ht Habsent. split.
  - unfold px_to_sexp. destruct (isnull val) eqn:Hnull; [reflexivity |].
    destruct Habsent as [Habsent | Hptr]; [discriminate Habsent |].
    rewrite Hptr. destruct Ht as [-> | [-> | ->]]; reflexivity.
  - destruct Ht as [-> | [-> | ->]]; split; reflexivity.
Qed.

Lemma absent_text_is_one_cell_witness :
  px_to_sexp null_pointer_value pxfAlpha empty_world = (Done NA_STRING, empty_world) /\
  stored_cell (column_type pxfAlpha) R_NilValue = CellSexp NA_STRING /\
  stored_cell (column_type pxfAlpha) NA_STRING = CellSexp NA_STRING.
Proof.
  apply (absent_text_is_one_cell null_pointer_value pxfAlpha empty_world).
  - left. reflexivity.
  - right. reflexivity.
Defined.

(** ** Opening *)

(** The world after a document was created and a file opened in it. *)
Lemma opened_world (w : world) (d : positive) (filename : list byte) (doc : pxdoc_t) :
  log_call (CallPXopen d filename 0)
    (set_pxdocs <[d := doc]>
       (log_call (CallPXnew d)
          (set_pxdocs <[d := PxDoc None (fun _ => None)]> w)))
  = World (extptr_addr w) (<[d := doc]> (pxdocs w)) (files w) (px_new_succeeds w)
          (calls w ++ [CallPXnew d; CallPXopen d filename 0])
          (freed w) (warnings w).
Proof.
  destruct w as [e p f n c fr wa].
  cbv [log_call set_pxdocs extptr_addr pxdocs files px_new_succeeds calls
       freed warnings].
  rewrite insert_insert_eq, <- !app_assoc. reflexivity.
Qed.

(** The world after a document was created, no file could be opened in
    it, and it was deleted with a warning. *)
Lemma open_failed_world (w : world) (d : positive) (filename : list byte) :
  pxdocs w !! d = None ->
  log_warning (WarnOpenFailed filename)
    (log_call (CallPXdelete d)
       (set_pxdocs (delete d)
          (log_call (CallPXopen d filename (-1))
             (log_call (CallPXnew d)
                (set_pxdocs <[d := PxDoc None (fun _ => None)]> w)))))
  = World (extptr_addr w) (pxdocs w) (files w) (px_new_succeeds w)
          (calls w ++ [CallPXnew d; CallPXopen d filename (-1); CallPXdelete d])
          (freed w) (warnings w ++ [WarnOpenFailed filename]).
Proof.
  intros Hfresh. destruct w as [e p f n c fr wa]. simpl in Hfresh.
  cbv [log_call log_warning set_pxdocs extptr_addr pxdocs files px_new_succeeds
       calls freed warnings].
  rewrite delete_insert_eq, delete_id by exact Hfresh.
  rewrite <- !app_assoc. reflexivity.
Qed.

(** [pxlib_open_file_c] on a file name and a password argument, in
    closed form. *)
Lemma open_file_run (px_passwd_checksum : list byte -> Z) (filename : list byte)
    (password : option (list byte)) (w : world) :
  px_new_succeeds w = true ->
  let d := fresh (dom (pxdocs w)) in
  let id := fresh (dom (extptr_addr w)) in
  pxlib_open_file_c px_passwd_checksum (StrVec [CharSxp filename])
    (password_sexp password) w
  = match files w filename with
    | None =>
        (Done R_NilValue,
         World (extptr_addr w) (pxdocs w) (files w) (px_new_succeeds w)
           (calls w ++ [CallPXnew d; CallPXopen d filename (-1); CallPXdelete d])
           (freed w) (warnings w ++ [WarnOpenFailed filename]))
    | Some doc =>
        match px_head doc with
        | None =>
            (Undefined NullDereference,
             World (extptr_addr w) (<[d := doc]> (pxdocs w)) (files w)
               (px_new_succeeds w)
               (calls w ++ [CallPXnew d; CallPXopen d filename 0])
               (freed w) (warnings w))
        | Some h =>
            if accepted px_passwd_checksum (px_encryption h) password then
              (Done (ExtPtr id),
               World (<[id := Some d]> (extptr_addr w)) (<[d := doc]> (pxdocs w))
                 (files w) (px_new_succeeds w)
                 (calls w ++ [CallPXnew d; CallPXopen d filename 0])
                 (freed w) (warnings w))
            else
              (Raised match password with
                      | None => ErrPasswordProtected
                      | Some _ => ErrIncorrectPassword
                      end,
               World (extptr_addr w) (pxdocs w) (files w) (px_new_succeeds w)
                 (calls w ++ [CallPXnew d; CallPXopen d filename 0;
                              CallPXclose d; CallPXdelete d])
                 (freed w) (warnings w))
        end
    end.
Proof.
  intros Hnew d id.
  pose proof (fresh_pxdoc w) as Hfresh. fold d in Hfresh.
  unfold pxlib_open_file_c. cbn [single_string].
  assert ((if Rf_isNull (password_sexp password) then mret None
           else match single_string (password_sexp password) with
                | None => Rf_error ErrPassword
                | Some p => mret (Some p)
                end) w = (Done password, w)) as Hpw
    by (destruct password; reflexivity).
  rewrite (bind_Done _ _ _ _ _ Hpw). clear Hpw.
  pose proof (PX_new_run w Hnew) as Hrun_new. simpl in Hrun_new. fold d in Hrun_new.
  rewrite (bind_Done _ _ _ _ _ Hrun_new). cbv iota.
  set (w1 := log_call (CallPXnew d)
               (set_pxdocs <[d := PxDoc None (fun _ => None)]> w)) in *.
  assert (pxdocs w1 !! d = Some (PxDoc None (fun _ => None))) as Hd1
    by apply lookup_insert_eq.
  destruct (files w filename) as [doc |] eqn:Hfile.
  - rewrite (bind_Done _ _ _ _ _ (PX_open_file_run w1 d filename _ doc Hd1 Hfile)).
    change (negb (0 =? 0)) with false. cbv iota.
    set (w2 := log_call (CallPXopen d filename 0) (set_pxdocs <[d := doc]> w1)).
    assert (pxdocs w2 !! d = Some doc) as Hdoc by apply lookup_insert_eq.
    assert (w2 = World (extptr_addr w) (<[d := doc]> (pxdocs w)) (files w)
                   (px_new_succeeds w)
                   (calls w ++ [CallPXnew d; CallPXopen d filename 0])
                   (freed w) (warnings w)) as Hw2 by apply opened_world.
    assert (forall e : r_error,
      (PX_close d;; PX_delete d;; Rf_error e : M unit) w2
      = (Raised e,
         World (extptr_addr w) (pxdocs w) (files w) (px_new_succeeds w)
           (calls w ++ [CallPXnew d; CallPXopen d filename 0;
                        CallPXclose d; CallPXdelete d])
           (freed w) (warnings w))) as Hteardown.
    { intros e. rewrite (close_delete_raise w2 d doc e Hdoc). f_equal.
      apply teardown_world, Hfresh. }
    assert (R_MakeExternalPtr d w2
            = (Done (ExtPtr id),
               World (<[id := Some d]> (extptr_addr w)) (<[d := doc]> (pxdocs w))
                 (files w) (px_new_succeeds w)
                 (calls w ++ [CallPXnew d; CallPXopen d filename 0])
                 (freed w) (warnings w))) as Hmake
      by (rewrite Hw2; reflexivity).
    clearbody w2 w1.
    destruct (px_head doc) as [h |] eqn:Hhead.
    + rewrite (bind_Done _ _ _ _ _
                 (px_head_field_run w2 d px_encryption doc h Hdoc Hhead)).
      unfold accepted.
      destruct (Z.eqb_spec (px_encryption h) 0) as [E | E]; cbn [negb orb].
      * rewrite (bind_Done (mret tt) _ w2 w2 tt eq_refl). exact Hmake.
      * destruct password as [pw |].
        -- cbv zeta.
           destruct (ulong_of_long (px_passwd_checksum pw) =? px_encryption h);
             cbn [negb].
           ++ rewrite (bind_Done (mret tt) _ w2 w2 tt eq_refl). exact Hmake.
           ++ apply bind_Raised. apply Hteardown.
        -- apply bind_Raised. apply Hteardown.
    + erewrite bind_Undefined; [rewrite <- Hw2; reflexivity |].
      unfold px_head_field. rewrite Hdoc, Hhead. reflexivity.
  - assert (PX_open_file d filename w1
            = (Done (-1), log_call (CallPXopen d filename (-1)) w1)) as Hopen.
    { unfold PX_open_file. rewrite Hd1.
      change (files w1 filename) with (files w filename). rewrite Hfile.
      reflexivity. }
    rewrite (bind_Done _ _ _ _ _ Hopen).
    change (negb (-1 =? 0)) with true. cbv iota.
    erewrite bind_Done.
    2: { apply PX_delete_run with (doc := PxDoc None (fun _ => None)). exact Hd1. }
    unfold Rf_warning, mbind, M_bind, mret, M_ret. f_equal.
    apply open_failed_world, Hfresh.
Qed.

(** Without memory for a document the open function raises and changes
    nothing. *)
Lemma open_file_without_memory (px_passwd_checksum : list byte -> Z)
    (filename : list byte) (password : option (list byte)) (w : world) :
  px_new_succeeds w = false ->
  pxlib_open_file_c px_passwd_checksum (StrVec [CharSxp filename])
    (password_sexp password) w
  = (Raised ErrPXNew, w).
Proof.
  intros Hnew. unfold pxlib_open_file_c. cbn [single_string].
  destruct password; cbn [password_sexp Rf_isNull single_string];
    unfold PX_new, mbind, M_bind, mret, M_ret; rewrite Hnew; reflexivity.
Qed.

(** The arguments the open function accepts. *)
Lemma single_string_Some (x : SEXP) (s : list byte) :
  single_string x = Some s -> x = StrVec [CharSxp s].
Proof.
  destruct x as [| | | | | | xs | | |]; try discriminate.
  destruct xs as [| [] [| ? ?]]; try discriminate.
  intros [= ->]. reflexivity.
Qed.

Lemma open_file_arguments (px_passwd_checksum : list byte -> Z)
    (filename_sexp password_arg : SEXP) (w : world) :
  pxlib_open_file_c px_passwd_checksum filename_sexp password_arg w
  = (Raised ErrFilename, w) \/
  pxlib_open_file_c px_passwd_checksum filename_sexp password_arg w
  = (Raised ErrPassword, w) \/
  exists filename password,
    filename_sexp = StrVec [CharSxp filename] /\
    password_arg = password_sexp password.
Proof.
  unfold pxlib_open_file_c.
  destruct (single_string filename_sexp) as [filename |] eqn:Hf; [| left; reflexivity].
  apply single_string_Some in Hf. subst filename_sexp.
  destruct (Rf_isNull password_arg) eqn:Hnull.
  - right. right. exists filename, None. split; [reflexivity |].
    destruct password_arg; try discriminate Hnull. reflexivity.
  - destruct (single_string password_arg) as [pw |] eqn:Hp.
    + right. right. exists filename, (Some pw). split; [reflexivity |].
      exact (single_string_Some _ _ Hp).
    + right. left. reflexivity.
Qed.

(** Every way [pxlib_open_file_c] can end when the files on disk have
    headers: with a new handle on a new document, or with the handles
    and the documents as they were. *)
Lemma open_file_cases (px_passwd_checksum : list byte -> Z)
    (filename_sexp password_arg : SEXP) (w w' : world) (o : outcome SEXP) :
  files_have_headers w ->
  pxlib_open_file_c px_passwd_checksum filename_sexp password_arg w = (o, w') ->
  files w' = files w /\ freed w' = freed w /\
  ((exists doc,
      is_Some (px_head doc) /\
      o = Done (ExtPtr (fresh (dom (extptr_addr w)))) /\
      extptr_addr w'
      = <[fresh (dom (extptr_addr w)) := Some (fresh (dom (pxdocs w)))]>
          (extptr_addr w) /\
      pxdocs w' = <[fresh (dom (pxdocs w)) := doc]> (pxdocs w)) \/
   ((o = Done R_NilValue \/ exists e, o = Raised e) /\
    extptr_addr w' = extptr_addr w /\ pxdocs w' = pxdocs w)).
Proof.
  intros Hfiles Hrun.
  destruct (open_file_arguments px_passwd_checksum filename_sexp password_arg w)
    as [H | [H | (filename & password & -> & ->)]].
  - rewrite H in Hrun. injection Hrun as <- <-. eauto 10.
  - rewrite H in Hrun. injection Hrun as <- <-. eauto 10.
  - destruct (px_new_succeeds w) eqn:Hnew.
    + rewrite (open_file_run _ _ _ _ Hnew) in Hrun. cbv zeta in Hrun.
      destruct (files w filename) as [doc |] eqn:Hfile.
      * destruct (Hfiles filename doc Hfile) as [h Hh]. rewrite Hh in Hrun.
        destruct (accepted px_passwd_checksum (px_encryption h) password);
          injection Hrun as <- <-; simpl; (split; [reflexivity |]);
          (split; [reflexivity |]).
        -- left. exists doc. rewrite Hh. eauto.
        -- right. eauto.
      * injection Hrun as <- <-. simpl. eauto 10.
    + rewrite (open_file_without_memory _ _ _ _ Hnew) in Hrun.
      injection Hrun as <- <-. eauto 10.
Qed.

(** X9. Opening a file the backend can read, which is not encrypted or
    whose encryption value is the checksum of the password given, returns
    a handle that did not exist before on a document that did not exist
    before and now holds the file; the backend was called twice
    ([PX_new], [PX_open_file]), nothing was warned, and a password given
    for a file that is not encrypted is not looked at. *)
Theorem open_returns_a_fresh_handle (px_passwd_checksum : list byte -> Z)
    (filename : list byte) (password : option (list byte)) (w : world)
    (doc : pxdoc_t) (h : pxhead_t) :
  px_new_succeeds w = true ->
  files w filename = Some doc ->
  px_head doc = Some h ->
  px_encryption h = 0 \/
  (exists pw, password = Some pw /\
              ulong_of_long (px_passwd_checksum pw) = px_encryption h) ->
  let d := fresh (dom (pxdocs w)) in
  let id := fresh (dom (extptr_addr w)) in
  extptr_addr w !! id = None /\ pxdocs w !! d = None /\
  pxlib_open_file_c px_passwd_checksum (StrVec [CharSxp filename])
    (password_sexp password) w
  = (Done (ExtPtr id),
     World (<[id := Some d]> (extptr_addr w)) (<[d := doc]> (pxdocs w))
       (files w) (px_new_succeeds w)
       (calls w ++ [CallPXnew d; CallPXopen d filename 0])
       (freed w) (warnings w)).
Proof.
  intros Hnew Hfile Hhead Hpw d id.
  split; [apply not_elem_of_dom, is_fresh |].
  split; [apply fresh_pxdoc |].
  rewrite (open_file_run _ _ _ _ Hnew). cbv zeta. rewrite Hfile, Hhead.
  replace (accepted px_passwd_checksum (px_encryption h) password) with true;
    [reflexivity |].
  symmetry. unfold accepted. destruct Hpw as [-> | (pw & -> & ->)].
  - reflexivity.
  - rewrite Z.eqb_refl. apply orb_true_r.
Qed.

Lemma open_returns_a_fresh_handle_witness :
  pxlib_open_file_c (fun _ => 5) (StrVec [CharSxp [x41]]) (StrVec [CharSxp [x42]])
    encrypted_disk
  = (Done (ExtPtr 1),
     World {[1%positive := Some 1%positive]}
       {[1%positive := PxDoc (Some (PxHead 5 866 0 0 (Some []))) (fun _ => None)]}
       (files encrypted_disk) true [CallPXnew 1; CallPXopen 1 [x41] 0] [] []).
Proof.
  refine (proj2 (proj2 (open_returns_a_fresh_handle (fun _ => 5) [x41] (Some [x42])
                          encrypted_disk
                          (PxDoc (Some (PxHead 5 866 0 0 (Some []))) (fun _ => None))
                          (PxHead 5 866 0 0 (Some [])) _ _ _ _)));
    try reflexivity.
  right. exists [x42]. split; reflexivity.
Defined.

(** X10. When the backend cannot open the file, the open function deletes
    the document it had created, signals one warning that names the
    file, and returns [R_NilValue]: no handle is made and the backend
    holds the documents it held before. *)
Theorem open_of_unreadable_file_warns (px_passwd_checksum : list byte -> Z)
    (filename : list byte) (password : option (list byte)) (w : world) :
  px_new_succeeds w = true ->
  files w filename = None ->
  let d := fresh (dom (pxdocs w)) in
  pxlib_open_file_c px_passwd_checksum (StrVec [CharSxp filename])
    (password_sexp password) w
  = (Done R_NilValue,
     World (extptr_addr w) (pxdocs w) (files w) (px_new_succeeds w)
       (calls w ++ [CallPXnew d; CallPXopen d filename (-1); CallPXdelete d])
       (freed w) (warnings w ++ [WarnOpenFailed filename])).
Proof.
  intros Hnew Hfile d.
  rewrite (open_file_run _ _ _ _ Hnew). cbv zeta. rewrite Hfile. reflexivity.
Qed.

Lemma open_of_unreadable_file_warns_witness :
  pxlib_open_file_c (fun _ => 0) (StrVec [CharSxp [x41]]) R_NilValue empty_world
  = (Done R_NilValue,
     World ∅ ∅ (files empty_world) true
       [CallPXnew 1; CallPXopen 1 [x41] (-1); CallPXdelete 1] []
       [WarnOpenFailed [x41]]).
Proof.
  apply (open_of_unreadable_file_warns (fun _ => 0) [x41] None empty_world);
    reflexivity.
Defined.

(** X11. Whatever its arguments, an open that does not return a handle
    leaves nothing behind: when the files on disk have headers, the call
    ends with [R_NilValue] or an R error, never in undefined behaviour,
    and the handles and the backend's documents are those from before
    the call. *)
Theorem failed_open_leaves_nothing_behind (px_passwd_checksum : list byte -> Z)
    (filename_sexp password_arg : SEXP) (w w' : world) (o : outcome SEXP) :
  files_have_headers w ->
  pxlib_open_file_c px_passwd_checksum filename_sexp password_arg w = (o, w') ->
  (forall id, o <> Done (ExtPtr id)) ->
  (o = Done R_NilValue \/ exists e, o = Raised e) /\
  extptr_addr w' = extptr_addr w /\ pxdocs w' = pxdocs w.
Proof.
  intros Hfiles Hrun Hno.
  destruct (open_file_cases _ _ _ _ _ _ Hfiles Hrun)
    as (_ & _ & [(doc & _ & -> & _) | H]).
  - exfalso. exact (Hno _ eq_refl).
  - exact H.
Qed.

Lemma failed_open_leaves_nothing_behind_witness :
  (Raised ErrIncorrectPassword = Done R_NilValue \/
   exists e, Raised ErrIncorrectPassword = @Raised SEXP e) /\
  extptr_addr
    (snd (pxlib_open_file_c (fun _ => 4) (StrVec [CharSxp [x41]])
            (StrVec [CharSxp [x42]]) encrypted_disk))
  = extptr_addr encrypted_disk /\
  pxdocs
    (snd (pxlib_open_file_c (fun _ => 4) (StrVec [CharSxp [x41]])
            (StrVec [CharSxp [x42]]) encrypted_disk))
  = pxdocs encrypted_disk.
Proof.
  apply (failed_open_leaves_nothing_behind (fun _ => 4) (StrVec [CharSxp [x41]])
           (StrVec [CharSxp [x42]]) encrypted_disk).
  - intros filename doc [= <-]. eexists. reflexivity.
  - vm_compute. reflexivity.
  - intros id. discriminate.
Defined.

(** ** Handles *)

(** The guard every entry point starts with, in closed form. *)
Lemma check_pxdoc_ptr_spec (x : SEXP) (w : world) :
  check_pxdoc_ptr x w
  = match live_handle w x with
    | Some d => (Done (Some d), w)
    | None => (Raised ErrClosedOrInvalid, w)
    end.
Proof.
  destruct x; try reflexivity.
  unfold check_pxdoc_ptr, live_handle, R_ExternalPtrAddr, gets, mbind, M_bind,
    Rf_error.
  destruct (extptr_addr w !! id) as [[d |] |] eqn:E; simpl; try reflexivity.
  rewrite E. reflexivity.
Qed.

Lemma live_handle_Some (w : world) (x : SEXP) (d : positive) :
  live_handle w x = Some d ->
  exists id, x = ExtPtr id /\ extptr_addr w !! id = Some (Some d).
Proof.
  destruct x; try discriminate. simpl. intros H. exists id. split; [reflexivity |].
  destruct (extptr_addr w !! id) as [[d' |] |]; simpl in H; congruence.
Qed.

(** The explicit close and the finalizer on a handle of a live
    document. *)
Lemma release_run (w : world) (id d : positive) (doc : pxdoc_t) :
  extptr_addr w !! id = Some (Some d) ->
  pxdocs w !! d = Some doc ->
  pxlib_close_file_c (ExtPtr id) w = (Done R_NilValue, released_world id d w) /\
  pxdoc_finalizer (ExtPtr id) w = (Done tt, released_world id d w).
Proof.
  intros Hid Hd.
  unfold pxlib_close_file_c, pxdoc_finalizer, check_pxdoc_ptr,
    R_ExternalPtrAddr, R_ClearExternalPtr, PX_delete, released_world.
  run. rewrite Hid. simpl. rewrite Hid. simpl. rewrite Hd. simpl.
  split; reflexivity.
Qed.

(** X12. A handle argument that is not an external pointer, or whose
    address has been cleared, is refused by every entry point that takes
    a handle with the closed-or-invalid error before anything else
    happens: the world is as before.  The finalizer returns at once. *)
Theorem dead_handle_is_refused (px_ftype_code : px_fieldtype -> Z) (x : SEXP)
    (w : world) :
  live_handle w x = None ->
  pxlib_close_file_c x w = (Raised ErrClosedOrInvalid, w) /\
  pxlib_get_codepage_c x w = (Raised ErrClosedOrInvalid, w) /\
  pxlib_get_metadata_c px_ftype_code x w = (Raised ErrClosedOrInvalid, w) /\
  pxlib_get_data_c x w = (Raised ErrClosedOrInvalid, w) /\
  pxdoc_finalizer x w = (Done tt, w).
Proof.
  intros H.
  assert (check_pxdoc_ptr x w = (Raised ErrClosedOrInvalid, w)) as Hcheck
    by (rewrite check_pxdoc_ptr_spec, H; reflexivity).
  unfold pxlib_close_file_c, pxlib_get_codepage_c, pxlib_get_metadata_c,
    pxlib_get_data_c.
  rewrite !(bind_Raised _ _ _ _ _ Hcheck).
  repeat (split; [reflexivity |]).
  destruct x; try reflexivity. simpl in H.
  unfold pxdoc_finalizer, R_ExternalPtrAddr, gets, mbind, M_bind.
  rewrite H. reflexivity.
Qed.

Lemma dead_handle_is_refused_witness :
  pxlib_get_data_c (ExtPtr 1) closed_handle_world
  = (Raised ErrClosedOrInvalid, closed_handle_world).
Proof.
  refine (proj1 (proj2 (proj2 (proj2
            (dead_handle_is_refused (fun _ => 0) (ExtPtr 1) closed_handle_world _))))).
  reflexivity.
Defined.

(** The invariant looks at the handles and the documents only. *)
Lemma handles_live_same (w w' : world) :
  extptr_addr w' = extptr_addr w -> pxdocs w' = pxdocs w ->
  handles_live w -> handles_live w'.
Proof. unfold handles_live. intros -> ->. exact id. Qed.

Lemma released_world_live (w : world) (id d : positive) :
  handles_live w ->
  extptr_addr w !! id = Some (Some d) ->
  handles_live (released_world id d w).
Proof.
  intros Hlive Hid id0 d0. unfold released_world. simpl.
  intros H0.
  destruct (decide (id0 = id)) as [-> | Hne].
  { rewrite lookup_insert_eq in H0. discriminate. }
  rewrite lookup_insert_ne in H0 by congruence.
  destruct (Hlive id0 d0 H0) as [(doc & Hdoc & Hhead) Huniq].
  assert (d0 <> d) as Hd.
  { intros ->. apply Hne. symmetry. exact (Huniq id Hid). }
  split.
  - exists doc. split; [| exact Hhead].
    rewrite lookup_delete_ne by congruence. exact Hdoc.
  - intros id' H'.
    destruct (decide (id' = id)) as [-> | Hne'].
    { rewrite lookup_insert_eq in H'. discriminate. }
    rewrite lookup_insert_ne in H' by congruence. exact (Huniq id' H').
Qed.

(** X13. Closing one handle releases its document and no other: the
    handle is dead afterwards, and every other live handle still holds
    its address, whose document is the one it was. *)
Theorem closing_one_handle_keeps_the_others (w : world) (id d : positive) :
  handles_live w ->
  extptr_addr w !! id = Some (Some d) ->
  exists w',
    pxlib_close_file_c (ExtPtr id) w = (Done R_NilValue, w') /\
    live_handle w' (ExtPtr id) = None /\
    pxdocs w' !! d = None /\
    calls w' = calls w ++ [CallPXdelete d] /\
    forall id' d',
      id' <> id ->
      extptr_addr w !! id' = Some (Some d') ->
      extptr_addr w' !! id' = Some (Some d') /\
      pxdocs w' !! d' = pxdocs w !! d'.
Proof.
  intros Hlive Hid.
  destruct (Hlive id d Hid) as [(doc & Hdoc & _) Huniq].
  exists (released_world id d w).
  split; [exact (proj1 (release_run w id d doc Hid Hdoc)) |].
  unfold released_world. simpl.
  split; [rewrite lookup_insert_eq; reflexivity |].
  split; [apply lookup_delete_eq |].
  split; [reflexivity |].
  intros id' d' Hne H'. split.
  - rewrite lookup_insert_ne by congruence. exact H'.
  - apply lookup_delete_ne. intros ->. apply Hne. exact (Huniq id' H').
Qed.

Lemma closing_one_handle_keeps_the_others_witness :
  exists w',
    pxlib_close_file_c (ExtPtr 1) open_handle_world = (Done R_NilValue, w') /\
    live_handle w' (ExtPtr 1) = None /\
    pxdocs w' !! 1%positive = None /\
    calls w' = calls open_handle_world ++ [CallPXdelete 1] /\
    forall id' d',
      id' <> 1%positive ->
      extptr_addr open_handle_world !! id' = Some (Some d') ->
      extptr_addr w' !! id' = Some (Some d') /\
      pxdocs w' !! d' = pxdocs open_handle_world !! d'.
Proof.
  apply (closing_one_handle_keeps_the_others open_handle_world 1 1).
  - intros id d H. unfold open_handle_world in *. simpl in *.
    apply lookup_singleton_Some in H as [<- [= <-]]. split.
    + eexists. split; [apply lookup_singleton_eq | eexists; reflexivity].
    + intros id' H'. apply lookup_singleton_Some in H' as [<- _]. reflexivity.
  - reflexivity.
Defined.

(** ** What holds of the world however a call ends *)

Lemma bind_keeps {A B} (Q : world -> Prop) (m : M A) (k : A -> M B) (w : world) :
  Q (snd (m w)) ->
  (forall a w1, Q w1 -> Q (snd (k a w1))) ->
  Q (snd ((m ≫= k) w)).
Proof.
  unfold mbind, M_bind. destruct (m w) as [[a | e | f] w1]; simpl; auto.
Qed.

Lemma for_loop_always {A} (body : nat -> A -> M A) (Q : world -> Prop)
    (n start : nat) (a : A) (w : world) :
  (forall k a w1, Q w1 -> Q (snd (body k a w1))) ->
  Q w ->
  Q (snd (for_loop n start body a w)).
Proof.
  intros Hbody. revert start a w.
  induction n as [| n IH]; intros start a w HQ; [exact HQ |].
  simpl. apply bind_keeps; [apply Hbody, HQ |].
  intros a1 w1 H1. apply IH, H1.
Qed.

Lemma same_session_refl (w : world) : same_session w w.
Proof. repeat split. Qed.

Lemma same_session_trans (w w1 w2 : world) :
  same_session w w1 -> same_session w1 w2 -> same_session w w2.
Proof. unfold same_session. intuition congruence. Qed.

Lemma index_world {A} (l : list A) (j : nat) (w : world) : snd (index l j w) = w.
Proof. unfold index. destruct (l !! j); reflexivity. Qed.

Lemma allocVector_world (type : SEXPTYPE) (n : Z) (w : world) :
  snd (allocVector type n w) = w.
Proof. unfold allocVector. destruct (n <? 0); reflexivity. Qed.

Lemma PX_get_world {A} (d : positive) (field : pxhead_t -> A) (none : A) (w : world) :
  snd (PX_get d field none w) = w.
Proof.
  unfold PX_get. destruct (pxdocs w !! d) as [doc |]; [| reflexivity].
  destruct (px_head doc); reflexivity.
Qed.

Lemma check_pxdoc_ptr_world (x : SEXP) (w : world) : snd (check_pxdoc_ptr x w) = w.
Proof. rewrite check_pxdoc_ptr_spec. destruct (live_handle w x); reflexivity. Qed.

Lemma store_value_same_session (column : SEXP) (i j : nat) (r_val : SEXP) (w : world) :
  same_session w (snd (store_value column i j r_val w)).
Proof. destruct column; simpl; repeat split. Qed.

Lemma px_to_sexp_same_session (val : pxval_t) (t : px_fieldtype) (w : world) :
  same_session w (snd (px_to_sexp val t w)).
Proof. exact (px_to_sexp_frame val t w). Qed.

Lemma fill_record_same_session (fields : list pxfield_t) (num_fields : Z)
    (record_values : list pxval_t) (i : nat) (a : SEXP) (w : world) :
  same_session w (snd (fill_record fields num_fields record_values i a w)).
Proof.
  unfold fill_record.
  apply (for_loop_always _ (same_session w)); [| apply same_session_refl].
  intros j a0 w0 H0.
  apply (bind_keeps (same_session w)); [rewrite index_world; exact H0 |].
  intros val w1 H1.
  apply (bind_keeps (same_session w)); [rewrite index_world; exact H1 |].
  intros f w2 H2.
  apply (bind_keeps (same_session w)).
  { exact (same_session_trans _ _ _ H2 (px_to_sexp_same_session _ _ w2)). }
  intros r_val w3 H3.
  apply (bind_keeps (same_session w)).
  { unfold VECTOR_ELT. destruct a0; try exact H3. rewrite index_world. exact H3. }
  intros column w4 H4.
  apply (bind_keeps (same_session w)).
  { exact (same_session_trans _ _ _ H4 (store_value_same_session _ _ _ _ w4)). }
  intros column' w5 H5. exact H5.
Qed.

Lemma fill_records_same_session (d : positive) (fields : list pxfield_t)
    (num_fields num_records : Z) (a : SEXP) (w : world) :
  same_session w (snd (fill_records d fields num_fields num_records a w)).
Proof.
  unfold fill_records.
  apply (for_loop_always _ (same_session w)); [| apply same_session_refl].
  intros i a0 w0 H0. unfold fill_step.
  apply (bind_keeps (same_session w)).
  { unfold PX_retrieve_record. destruct (pxdocs w0 !! d); exact H0. }
  intros [record_values |] w1 H1; [| exact H1].
  exact (same_session_trans _ _ _ H1 (fill_record_same_session _ _ _ _ _ w1)).
Qed.

Lemma loop_of_index_world {A B} (fields : list A) (n : nat) (g : nat -> A -> B -> B)
    (b : B) (w : world) :
  snd (for_loop n 0 (fun j acc => f ← index fields j; mret (g j f acc)) b w) = w.
Proof.
  apply (for_loop_always _ (fun w' => w' = w)); [| reflexivity].
  intros j acc w1 ->.
  apply (bind_keeps (fun w' => w' = w)); [apply index_world |].
  intros f w1 ->. reflexivity.
Qed.

Lemma alloc_columns_world (fields : list pxfield_t) (num_fields num_records : Z)
    (a : SEXP) (w : world) :
  snd (alloc_columns fields num_fields num_records a w) = w.
Proof.
  unfold alloc_columns.
  apply (for_loop_always _ (fun w' => w' = w)); [| reflexivity].
  intros j acc w1 ->.
  apply (bind_keeps (fun w' => w' = w)); [apply index_world |].
  intros f w1 ->.
  apply (bind_keeps (fun w' => w' = w)); [apply allocVector_world |].
  intros c w1 ->. reflexivity.
Qed.

(** [pxlib_get_data_c] reads: however it ends, the handles, the
    documents, the disk and the log of backend calls are as before. *)
Lemma get_data_same_session (x : SEXP) (w : world) :
  same_session w (snd (pxlib_get_data_c x w)).
Proof.
  unfold pxlib_get_data_c.
  apply (bind_keeps (same_session w)).
  { rewrite check_pxdoc_ptr_world. apply same_session_refl. }
  intros [d |] w1 H1; [| exact H1].
  apply (bind_keeps (same_session w));
    [unfold PX_get_num_records; rewrite PX_get_world; exact H1 |].
  intros num_records w2 H2.
  apply (bind_keeps (same_session w));
    [unfold PX_get_num_fields; rewrite PX_get_world; exact H2 |].
  intros num_fields w3 H3.
  destruct (num_records <=? 0); [exact H3 |].
  apply (bind_keeps (same_session w));
    [unfold PX_get_fields; rewrite PX_get_world; exact H3 |].
  intros [fields |] w4 H4; [| exact H4].
  apply (bind_keeps (same_session w)); [rewrite allocVector_world; exact H4 |].
  intros dl0 w5 H5.
  apply (bind_keeps (same_session w)); [rewrite alloc_columns_world; exact H5 |].
  intros dl1 w6 H6.
  apply (bind_keeps (same_session w)).
  { exact (same_session_trans _ _ _ H6 (fill_records_same_session _ _ _ _ _ w6)). }
  intros dl2 w7 H7.
  apply (bind_keeps (same_session w)).
  { unfold column_names. rewrite loop_of_index_world. exact H7. }
  intros names w8 H8.
  apply (bind_keeps (same_session w)).
  { unfold all_column_attributes. rewrite loop_of_index_world. exact H8. }
  intros attrs w9 H9. exact H9.
Qed.

(** The code page and the metadata entry points leave the world as it
    is, however they end. *)
Lemma get_codepage_world (x : SEXP) (w : world) :
  snd (pxlib_get_codepage_c x w) = w.
Proof.
  unfold pxlib_get_codepage_c.
  apply (bind_keeps (fun w' => w' = w)); [apply check_pxdoc_ptr_world |].
  intros [d |] w1 ->; [| reflexivity].
  apply (bind_keeps (fun w' => w' = w)).
  { unfold px_head_field. destruct (pxdocs w !! d) as [doc |]; [| reflexivity].
    destruct (px_head doc); reflexivity. }
  intros codepage w1 ->.
  destruct (0 <? codepage); [| reflexivity].
  unfold mkString_buffer. destruct (c_string _); reflexivity.
Qed.

Lemma metadata_columns_world (px_ftype_code : px_fieldtype -> Z)
    (fields : option (list pxfield_t)) (num_fields : Z)
    (cols : SEXP * SEXP * SEXP) (w : world) :
  snd (metadata_columns px_ftype_code fields num_fields cols w) = w.
Proof.
  unfold metadata_columns.
  apply (for_loop_always _ (fun w' => w' = w)); [| reflexivity].
  intros i [[name_col type_col] size_col] w1 ->.
  apply (bind_keeps (fun w' => w' = w)).
  { destruct fields; [apply index_world | reflexivity]. }
  intros f w1 ->. reflexivity.
Qed.

Lemma get_metadata_world (px_ftype_code : px_fieldtype -> Z) (x : SEXP) (w : world) :
  snd (pxlib_get_metadata_c px_ftype_code x w) = w.
Proof.
  unfold pxlib_get_metadata_c.
  apply (bind_keeps (fun w' => w' = w)); [apply check_pxdoc_ptr_world |].
  intros [d |] w1 ->; [| reflexivity].
  apply (bind_keeps (fun w' => w' = w)); [apply PX_get_world |].
  intros num_fields w1 ->.
  apply (bind_keeps (fun w' => w' = w)); [apply PX_get_world |].
  intros fields w1 ->.
  apply (bind_keeps (fun w' => w' = w)).
  { destruct fields; [reflexivity |]. destruct (0 <? num_fields); reflexivity. }
  intros _ w1 ->.
  apply (bind_keeps (fun w' => w' = w)); [apply allocVector_world |].
  intros result_list w1 ->.
  apply (bind_keeps (fun w' => w' = w)); [apply PX_get_world |].
  intros num_records w1 ->. cbv zeta.
  do 4 (apply (bind_keeps (fun w' => w' = w)); [apply allocVector_world |];
        intros ? w1 ->).
  apply (bind_keeps (fun w' => w' = w)); [apply metadata_columns_world |].
  intros [[name_col type_col] size_col] w1 ->. reflexivity.
Qed.

(** X14. The three entry points that report on a file only read:
    however [pxlib_get_data_c] ends, the handles, the backend's
    documents, the disk and the log of backend calls are as before (it
    adds to the logs of releases and warnings only), and the code page
    and metadata entry points leave the whole world as it was. *)
Theorem reading_leaves_the_session_alone (px_ftype_code : px_fieldtype -> Z)
    (x : SEXP) (w : world) :
  same_session w (snd (pxlib_get_data_c x w)) /\
  snd (pxlib_get_codepage_c x w) = w /\
  snd (pxlib_get_metadata_c px_ftype_code x w) = w.
Proof.
  split; [apply get_data_same_session |].
  split; [apply get_codepage_world | apply get_metadata_world].
Qed.

(** ** The code page name *)

Lemma digit_spec (d : Z) :
  0 <= d < 10 -> digit_value (digit d) = d /\ is_digit (digit d) = true.
Proof.
  intros H.
  assert (d = 0 \/ d = 1 \/ d = 2 \/ d = 3 \/ d = 4 \/ d = 5 \/ d = 6 \/ d = 7 \/
          d = 8 \/ d = 9) as Hd by lia.
  repeat (destruct Hd as [-> | Hd]; [split; reflexivity |]).
  subst d. split; reflexivity.
Qed.

Lemma is_digit_not_zero (s : list byte) :
  forallb is_digit s = true -> x00 ∉ s.
Proof.
  induction s as [| b s IH]; simpl; intros H; [apply not_elem_of_nil |].
  apply andb_true_iff in H as [Hb Hs]. intros Hin.
  apply elem_of_cons in Hin as [<- | Hin]; [discriminate Hb | exact (IH Hs Hin)].
Qed.

Lemma decimal_spec (fuel : nat) (n : Z) (acc : list byte) :
  0 <= n < 10 ^ Z.of_nat fuel ->
  forallb is_digit acc = true ->
  forallb is_digit (decimal fuel n acc) = true /\
  fold_left (fun a b => 10 * a + digit_value b) (decimal fuel n acc) 0
  = fold_left (fun a b => 10 * a + digit_value b) acc n /\
  (length acc <= length (decimal fuel n acc) <= fuel + length acc)%nat /\
  (0 < fuel -> length acc < length (decimal fuel n acc))%nat.
Proof.
  revert n acc. induction fuel as [| fuel IH]; intros n acc Hn Hacc.
  - simpl in *. assert (n = 0) as -> by lia.
    repeat split; try lia; assumption.
  - cbn [decimal].
    destruct (digit_spec (n mod 10) (Z.mod_pos_bound n 10 ltac:(lia))) as [Hv Hd].
    destruct (Z.ltb_spec n 10) as [Hlt | Hge].
    + rewrite Z.mod_small in * by lia.
      repeat split; simpl; try lia.
      * rewrite Hd. exact Hacc.
      * rewrite Hv. reflexivity.
    + assert (0 <= n / 10 < 10 ^ Z.of_nat fuel) as Hq.
      { split; [apply Z.div_pos; lia |].
        apply Z.div_lt_upper_bound; [lia |].
        rewrite Nat2Z.inj_succ, Z.pow_succ_r in Hn by lia. lia. }
      destruct (IH (n / 10) (digit (n mod 10) :: acc) Hq) as (H1 & H2 & H3 & _).
      { simpl. rewrite Hd. exact Hacc. }
      split; [exact H1 |]. split.
      * rewrite H2. simpl. rewrite Hv. f_equal.
        pose proof (Z.div_mod n 10 ltac:(lia)). lia.
      * simpl in H3. split; lia.
Qed.

(** [pxlib_get_codepage_c] on a live handle, in closed form. *)
Lemma get_codepage_run (w : world) (id d : positive) (doc : pxdoc_t) (h : pxhead_t) :
  extptr_addr w !! id = Some (Some d) ->
  pxdocs w !! d = Some doc ->
  px_head doc = Some h ->
  let codepage := int_of_long (px_doscodepage h) in
  pxlib_get_codepage_c (ExtPtr id) w
  = (Done (if 0 <? codepage
           then StrVec [CharSxp ([x43; x50] ++ decimal 10 codepage [])]
           else R_NilValue), w).
Proof.
  intros Hid Hd Hh codepage. unfold pxlib_get_codepage_c.
  rewrite (bind_Done _ _ _ _ _ (check_pxdoc_ptr_run w id d Hid)).
  rewrite (bind_Done _ _ _ _ _
             (px_head_field_run w d (fun h => int_of_long (px_doscodepage h))
                doc h Hd Hh)).
  fold codepage.
  destruct (Z.ltb_spec 0 codepage) as [Hpos | Hneg]; [| reflexivity].
  pose proof (int_of_long_range (px_doscodepage h)) as Hrange. fold codepage in Hrange.
  destruct (decimal_spec 10 codepage [] ltac:(simpl; lia) eq_refl)
    as (Hdig & _ & Hlen & _).
  unfold mkString_buffer, snprintf_CP, printf_d.
  destruct (Z.ltb_spec codepage 0); [lia |].
  rewrite take_ge by (rewrite length_app; simpl in *; lia).
  rewrite c_string_app; [reflexivity |].
  intros Hin. apply elem_of_app in Hin as [Hin | Hin].
  - repeat (apply elem_of_cons in Hin as [Hin | Hin]; [discriminate Hin |]).
    exact (not_elem_of_nil _ Hin).
  - exact (is_digit_not_zero _ Hdig Hin).
Qed.

(** X15. On a live handle the code page entry point returns
    [R_NilValue] when the header's code page, as a C [int], is not
    positive.  Otherwise it returns the two letters CP followed by one to
    ten decimal digits that read back as that number: the 30-byte buffer
    never cuts the name short.  The world is as before. *)
Theorem codepage_name_reads_back (w : world) (id d : positive) (doc : pxdoc_t)
    (h : pxhead_t) :
  extptr_addr w !! id = Some (Some d) ->
  pxdocs w !! d = Some doc ->
  px_head doc = Some h ->
  let codepage := int_of_long (px_doscodepage h) in
  (codepage <= 0 -> pxlib_get_codepage_c (ExtPtr id) w = (Done R_NilValue, w)) /\
  (0 < codepage ->
   exists digits,
     pxlib_get_codepage_c (ExtPtr id) w
     = (Done (StrVec [CharSxp ([x43; x50] ++ digits)]), w) /\
     forallb is_digit digits = true /\
     read_decimal digits = codepage /\
     (1 <= length digits <= 10)%nat).
Proof.
  intros Hid Hd Hh codepage.
  pose proof (get_codepage_run w id d doc h Hid Hd Hh) as Hrun.
  cbv zeta in Hrun. fold codepage in Hrun.
  split; intros Hc.
  - rewrite Hrun. destruct (Z.ltb_spec 0 codepage); [lia | reflexivity].
  - pose proof (int_of_long_range (px_doscodepage h)) as Hrange.
    fold codepage in Hrange.
    destruct (decimal_spec 10 codepage [] ltac:(simpl; lia) eq_refl)
      as (Hdig & Hread & Hlen & Hpos).
    exists (decimal 10 codepage []).
    split; [| split; [exact Hdig | split; [exact Hread |]]].
    + rewrite Hrun. destruct (Z.ltb_spec 0 codepage); [reflexivity | lia].
    + cbn [length] in Hlen, Hpos. specialize (Hpos ltac:(lia)). lia.
Qed.

Lemma codepage_name_reads_back_witness :
  exists digits,
    pxlib_get_codepage_c (ExtPtr 1) open_handle_world
    = (Done (StrVec [CharSxp ([x43; x50] ++ digits)]), open_handle_world) /\
    forallb is_digit digits = true /\
    read_decimal digits = 866 /\
    (1 <= length digits <= 10)%nat.
Proof.
  refine (proj2 (codepage_name_reads_back open_handle_world 1 1
                   (PxDoc (Some (PxHead 0 866 0 0 (Some []))) (fun _ => None))
                   (PxHead 0 866 0 0 (Some [])) _ _ _) _);
    try reflexivity.
Defined.

(** ** Sessions *)

Lemma drop_result {A} (m : M A) (w : world) :
  (m;; mret tt) w
  = (match fst (m w) with
     | Done _ => Done tt
     | Raised e => Raised e
     | Undefined f => Undefined f
     end, snd (m w)).
Proof. unfold mbind, M_bind. destruct (m w) as [[a | e | f] w1]; reflexivity. Qed.

Lemma close_of_dead_handle (x : SEXP) (w : world) :
  live_handle w x = None ->
  pxlib_close_file_c x w = (Raised ErrClosedOrInvalid, w).
Proof.
  intros H. unfold pxlib_close_file_c. apply bind_Raised.
  rewrite check_pxdoc_ptr_spec, H. reflexivity.
Qed.

Lemma finalizer_of_dead_handle (x : SEXP) (w : world) :
  live_handle w x = None -> pxdoc_finalizer x w = (Done tt, w).
Proof.
  intros H. destruct x; try reflexivity. simpl in H.
  unfold pxdoc_finalizer, R_ExternalPtrAddr, gets, mbind, M_bind.
  rewrite H. reflexivity.
Qed.

Lemma opened_world_live (w w1 : world) (doc : pxdoc_t) :
  handles_live w ->
  is_Some (px_head doc) ->
  extptr_addr w1
  = <[fresh (dom (extptr_addr w)) := Some (fresh (dom (pxdocs w)))]> (extptr_addr w) ->
  pxdocs w1 = <[fresh (dom (pxdocs w)) := doc]> (pxdocs w) ->
  handles_live w1.
Proof.
  intros Hlive Hhead He Hp.
  pose proof (fresh_pxdoc w) as Hd.
  assert (extptr_addr w !! fresh (dom (extptr_addr w)) = None) as Hid
    by apply not_elem_of_dom, is_fresh.
  set (d := fresh (dom (pxdocs w))) in *.
  set (id := fresh (dom (extptr_addr w))) in *.
  clearbody d id.
  assert (forall id0, extptr_addr w !! id0 = Some (Some d) -> False) as Hnone.
  { intros id0 H0. destruct (Hlive id0 d H0) as [(doc0 & Hdoc0 & _) _]. congruence. }
  intros id0 d0. rewrite He, Hp. intros H0.
  destruct (decide (id0 = id)) as [-> | Hne].
  - rewrite lookup_insert_eq in H0. injection H0 as <-. split.
    + exists doc. split; [apply lookup_insert_eq | exact Hhead].
    + intros id' H'. destruct (decide (id' = id)) as [-> | Hne']; [reflexivity |].
      rewrite lookup_insert_ne in H' by congruence. destruct (Hnone id' H').
  - rewrite lookup_insert_ne in H0 by congruence.
    destruct (Hlive id0 d0 H0) as [(doc0 & Hdoc0 & Hhead0) Huniq].
    assert (d0 <> d) as Hd0 by congruence.
    split.
    + exists doc0. split; [| exact Hhead0].
      rewrite lookup_insert_ne by congruence. exact Hdoc0.
    + intros id' H'. destruct (decide (id' = id)) as [-> | Hne'].
      * rewrite lookup_insert_eq in H'. congruence.
      * rewrite lookup_insert_ne in H' by congruence. exact (Huniq id' H').
Qed.

(** What one call does, under the invariant; a call of the session's
    bookkeeping has defined behaviour. *)
Lemma run_call_step (px_passwd_checksum : list byte -> Z)
    (px_ftype_code : px_fieldtype -> Z) (c : api_call) (w w' : world)
    (o : outcome unit) :
  handles_live w ->
  files_have_headers w ->
  run_call px_passwd_checksum px_ftype_code c w = (o, w') ->
  session_step w w' /\ files w' = files w /\
  (is_session_call c = true -> forall f, o <> Undefined f).
Proof.
  intros Hlive Hfiles Hrun.
  destruct c as [filename password | x | x | x | x | x]; cbn [run_call] in Hrun.
  - rewrite drop_result in Hrun.
    destruct (pxlib_open_file_c px_passwd_checksum filename password w)
      as [o1 w1] eqn:E.
    simpl in Hrun. injection Hrun as <- <-.
    destruct (open_file_cases _ _ _ _ _ _ Hfiles E)
      as (Hf & _ & [(doc & Hhead & -> & He & Hp) | (Ho & He & Hp)]).
    + split; [exact (step_opened w w1 doc Hhead He Hp) |].
      split; [exact Hf |]. intros _ f. discriminate.
    + split; [exact (step_same w w1 He Hp) |].
      split; [exact Hf |].
      intros _ f. destruct Ho as [-> | [e ->]]; discriminate.
  - rewrite drop_result in Hrun.
    destruct (live_handle w x) as [d |] eqn:Hx.
    + apply live_handle_Some in Hx as (id & -> & Hid).
      destruct (Hlive id d Hid) as [(doc & Hdoc & _) _].
      rewrite (proj1 (release_run w id d doc Hid Hdoc)) in Hrun.
      simpl in Hrun. injection Hrun as <- <-.
      split; [exact (step_released w (released_world id d w) id d Hid eq_refl eq_refl) |].
      split; [reflexivity |]. intros _ f. discriminate.
    + rewrite (close_of_dead_handle x w Hx) in Hrun.
      simpl in Hrun. injection Hrun as <- <-.
      split; [exact (step_same w w eq_refl eq_refl) |].
      split; [reflexivity |]. intros _ f. discriminate.
  - destruct (live_handle w x) as [d |] eqn:Hx.
    + apply live_handle_Some in Hx as (id & -> & Hid).
      destruct (Hlive id d Hid) as [(doc & Hdoc & _) _].
      rewrite (proj2 (release_run w id d doc Hid Hdoc)) in Hrun.
      injection Hrun as <- <-.
      split; [exact (step_released w (released_world id d w) id d Hid eq_refl eq_refl) |].
      split; [reflexivity |]. intros _ f. discriminate.
    + rewrite (finalizer_of_dead_handle x w Hx) in Hrun.
      injection Hrun as <- <-.
      split; [exact (step_same w w eq_refl eq_refl) |].
      split; [reflexivity |]. intros _ f. discriminate.
  - rewrite drop_result, get_codepage_world in Hrun.
    injection Hrun as <- <-.
    split; [exact (step_same w w eq_refl eq_refl) |].
    split; [reflexivity |]. intros _ f.
    destruct (live_handle w x) as [d |] eqn:Hx.
    + apply live_handle_Some in Hx as (id & -> & Hid).
      destruct (Hlive id d Hid) as [(doc & Hdoc & [h Hh]) _].
      rewrite (get_codepage_run w id d doc h Hid Hdoc Hh). discriminate.
    + unfold pxlib_get_codepage_c.
      rewrite (bind_Raised _ _ w w ErrClosedOrInvalid); [discriminate |].
      rewrite check_pxdoc_ptr_spec, Hx. reflexivity.
  - rewrite drop_result, get_metadata_world in Hrun.
    injection Hrun as <- <-.
    split; [exact (step_same w w eq_refl eq_refl) |].
    split; [reflexivity | discriminate].
  - rewrite drop_result in Hrun. injection Hrun as <- <-.
    destruct (get_data_same_session x w) as (He & Hp & Hf & _).
    split; [exact (step_same w _ He Hp) |].
    split; [exact Hf | discriminate].
Qed.

(** Each kind of step keeps the handles live and the documents held. *)
Lemma session_step_live (w w' : world) :
  session_step w w' -> handles_live w -> handles_live w'.
Proof.
  intros [He Hp | doc Hhead He Hp | id d Hid He Hp] Hlive.
  - exact (handles_live_same w w' He Hp Hlive).
  - exact (opened_world_live w w' doc Hlive Hhead He Hp).
  - apply (handles_live_same (released_world id d w) w' He Hp).
    exact (released_world_live w id d Hlive Hid).
Qed.

Lemma session_step_held (w w' : world) :
  session_step w w' -> handles_live w -> documents_held w -> documents_held w'.
Proof.
  intros [He Hp | doc Hhead He Hp | id d Hid He Hp] Hlive Hheld d0;
    rewrite He, Hp; intros Hd0.
  - exact (Hheld d0 Hd0).
  - assert (extptr_addr w !! fresh (dom (extptr_addr w)) = None) as Hid
      by apply not_elem_of_dom, is_fresh.
    destruct (decide (d0 = fresh (dom (pxdocs w)))) as [-> | Hne].
    + exists (fresh (dom (extptr_addr w))). apply lookup_insert_eq.
    + rewrite lookup_insert_ne in Hd0 by congruence.
      destruct (Hheld d0 Hd0) as [id0 Hid0]. exists id0.
      rewrite lookup_insert_ne by congruence. exact Hid0.
  - destruct (decide (d0 = d)) as [-> | Hne].
    { rewrite lookup_delete_eq in Hd0. destruct Hd0 as [? [=]]. }
    rewrite lookup_delete_ne in Hd0 by congruence.
    destruct (Hheld d0 Hd0) as [id0 Hid0]. exists id0.
    rewrite lookup_insert_ne by congruence. exact Hid0.
Qed.

Lemma reachable_invariants (px_passwd_checksum : list byte -> Z)
    (px_ftype_code : px_fieldtype -> Z) (w0 w : world) :
  handles_live w0 ->
  files_have_headers w0 ->
  reachable px_passwd_checksum px_ftype_code w0 w ->
  handles_live w /\ files_have_headers w /\
  (documents_held w0 -> documents_held w).
Proof.
  intros Hlive Hfiles Hreach.
  induction Hreach as [| c w w' o _ IH Hrun _]; [auto |].
  destruct IH as (IH1 & IH2 & IH3).
  destruct (run_call_step _ _ c w w' o IH1 IH2 Hrun) as (Hstep & Hf & _).
  split; [exact (session_step_live w w' Hstep IH1) |].
  split; [unfold files_have_headers; rewrite Hf; exact IH2 |].
  intros Hheld. exact (session_step_held w w' Hstep IH1 (IH3 Hheld)).
Qed.

(** X16. Handles never dangle.  Start from a world in which every live
    handle holds the address of a document with a header, no two handles
    hold the same address, and the files on disk have headers.  After
    any sequence of calls (open, close, finalizer, code page, metadata,
    data, on any arguments, returning or raising) the same holds, and a
    further open, close, finalizer or code page call uses no released
    document and dereferences no null header. *)
Theorem handles_never_dangle (px_passwd_checksum : list byte -> Z)
    (px_ftype_code : px_fieldtype -> Z) (w0 w : world) :
  handles_live w0 ->
  files_have_headers w0 ->
  reachable px_passwd_checksum px_ftype_code w0 w ->
  handles_live w /\
  forall c, is_session_call c = true ->
    forall f, fst (run_call px_passwd_checksum px_ftype_code c w) <> Undefined f.
Proof.
  intros Hlive Hfiles Hreach.
  destruct (reachable_invariants _ _ w0 w Hlive Hfiles Hreach) as (Hw & Hf & _).
  split; [exact Hw |].
  intros c Hc f.
  destruct (run_call px_passwd_checksum px_ftype_code c w) as [o w'] eqn:Hrun.
  exact (proj2 (proj2 (run_call_step _ _ c w w' o Hw Hf Hrun)) Hc f).
Qed.

Lemma handles_never_dangle_witness :
  handles_live (snd (run_call (fun _ => 5) (fun _ => 0)
                       (CallOpen (StrVec [CharSxp [x41]]) (StrVec [CharSxp [x42]]))
                       encrypted_disk)) /\
  forall c, is_session_call c = true ->
    forall f,
      fst (run_call (fun _ => 5) (fun _ => 0) c
             (snd (run_call (fun _ => 5) (fun _ => 0)
                     (CallOpen (StrVec [CharSxp [x41]]) (StrVec [CharSxp [x42]]))
                     encrypted_disk)))
      <> Undefined f.
Proof.
  apply (handles_never_dangle (fun _ => 5) (fun _ => 0) encrypted_disk).
  - intros id d H. simpl in H. rewrite lookup_empty in H. discriminate H.
  - intros filename doc [= <-]. eexists. reflexivity.
  - apply (reachable_call _ _ _
             (CallOpen (StrVec [CharSxp [x41]]) (StrVec [CharSxp [x42]]))
             encrypted_disk _ (Done tt) (reachable_start _ _ _)).
    + vm_compute. reflexivity.
    + intros f. discriminate.
Defined.

(** X17. Documents never leak.  Start from a world in which every live
    handle holds the address of a document with a header, no two handles
    hold the same address, the files on disk have headers, and every
    document of the backend is held by a handle.  After any sequence of
    calls every document of the backend is still held by a live handle:
    an open that fails has deleted the document it created, and no call
    drops a handle's address without deleting its document. *)
Theorem documents_never_leak (px_passwd_checksum : list byte -> Z)
    (px_ftype_code : px_fieldtype -> Z) (w0 w : world) :
  handles_live w0 ->
  files_have_headers w0 ->
  documents_held w0 ->
  reachable px_passwd_checksum px_ftype_code w0 w ->
  forall d, is_Some (pxdocs w !! d) ->
    exists id, live_handle w (ExtPtr id) = Some d.
Proof.
  intros Hlive Hfiles Hheld Hreach d Hd.
  destruct (reachable_invariants _ _ w0 w Hlive Hfiles Hreach) as (_ & _ & Hw).
  destruct (Hw Hheld d Hd) as [id Hid].
  exists id. simpl. rewrite Hid. reflexivity.
Qed.

Lemma documents_never_leak_witness :
  exists id,
    live_handle (snd (run_call (fun _ => 5) (fun _ => 0)
                        (CallOpen (StrVec [CharSxp [x41]]) (StrVec [CharSxp [x42]]))
                        encrypted_disk)) (ExtPtr id) = Some 1%positive.
Proof.
  apply (documents_never_leak (fun _ => 5) (fun _ => 0) encrypted_disk).
  - intros id d H. simpl in H. rewrite lookup_empty in H. discriminate H.
  - intros filename doc [= <-]. eexists. reflexivity.
  - intros d [doc H]. simpl in H. rewrite lookup_empty in H. discriminate H.
  - apply (reachable_call _ _ _
             (CallOpen (StrVec [CharSxp [x41]]) (StrVec [CharSxp [x42]]))
             encrypted_disk _ (Done tt) (reachable_start _ _ _)).
    + vm_compute. reflexivity.
    + intros f. discriminate.
  - eexists. vm_compute. reflexivity.
Defined.

(** An open that returns a handle took the path to the end. *)
Lemma open_file_Done (px_passwd_checksum : list byte -> Z)
    (filename_sexp password_arg handle : SEXP) (w w1 : world) :
  pxlib_open_file_c px_passwd_checksum filename_sexp password_arg w
  = (Done handle, w1) ->
  handle <> R_NilValue ->
  let d := fresh (dom (pxdocs w)) in
  let id := fresh (dom (extptr_addr w)) in
  exists filename doc,
    handle = ExtPtr id /\
    w1 = World (<[id := Some d]> (extptr_addr w)) (<[d := doc]> (pxdocs w))
           (files w) (px_new_succeeds w)
           (calls w ++ [CallPXnew d; CallPXopen d filename 0])
           (freed w) (warnings w).
Proof.
  intros Hrun Hnil d id.
  destruct (open_file_arguments px_passwd_checksum filename_sexp password_arg w)
    as [H | [H | (filename & password & -> & ->)]];
    try (rewrite H in Hrun; discriminate Hrun).
  destruct (px_new_succeeds w) eqn:Hnew.
  - rewrite (open_file_run _ _ _ _ Hnew) in Hrun. cbv zeta in Hrun.
    fold d id in Hrun.
    destruct (files w filename) as [doc |] eqn:Hfile.
    + destruct (px_head doc) as [h |]; [| discriminate Hrun].
      destruct (accepted px_passwd_checksum (px_encryption h) password);
        [| discriminate Hrun].
      injection Hrun as <- <-. exists filename, doc. rewrite Hnew. split; reflexivity.
    + injection Hrun as <- _. contradiction.
  - rewrite (open_file_without_memory _ _ _ _ Hnew) in Hrun. discriminate Hrun.
Qed.

(** X18. Closing a handle the open function returned undoes the open:
    the close returns, the backend holds exactly the documents it held
    before the open, the handle is dead, and all that remains is the log
    of the three backend calls ([PX_new], [PX_open_file], [PX_delete]);
    nothing was released by [pxdoc->free] and nothing was warned. *)
Theorem close_undoes_open (px_passwd_checksum : list byte -> Z)
    (filename_sexp password_arg handle : SEXP) (w w1 : world) :
  pxlib_open_file_c px_passwd_checksum filename_sexp password_arg w
  = (Done handle, w1) ->
  handle <> R_NilValue ->
  exists w2 d filename,
    pxlib_close_file_c handle w1 = (Done R_NilValue, w2) /\
    pxdocs w2 = pxdocs w /\
    live_handle w2 handle = None /\
    calls w2 = calls w ++ [CallPXnew d; CallPXopen d filename 0; CallPXdelete d] /\
    freed w2 = freed w /\ warnings w2 = warnings w /\ files w2 = files w.
Proof.
  intros Hrun Hnil.
  destruct (open_file_Done _ _ _ _ _ _ Hrun Hnil) as (filename & doc & -> & ->).
  pose proof (fresh_pxdoc w) as Hd.
  set (d := fresh (dom (pxdocs w))) in *.
  set (id := fresh (dom (extptr_addr w))) in *.
  clearbody d id.
  eexists _, d, filename.
  split.
  { refine (proj1 (release_run _ id d doc _ _)); apply lookup_insert_eq. }
  unfold released_world. simpl.
  split; [rewrite delete_insert_eq; apply delete_id, Hd |].
  split; [rewrite lookup_insert_eq; reflexivity |].
  rewrite <- app_assoc. repeat split.
Qed.

Lemma close_undoes_open_witness :
  exists w2 d filename,
    pxlib_close_file_c (ExtPtr 1)
      (World {[1%positive := Some 1%positive]}
         {[1%positive := PxDoc (Some (PxHead 5 866 0 0 (Some []))) (fun _ => None)]}
         (files encrypted_disk) true [CallPXnew 1; CallPXopen 1 [x41] 0] [] [])
    = (Done R_NilValue, w2) /\
    pxdocs w2 = pxdocs encrypted_disk /\
    live_handle w2 (ExtPtr 1) = None /\
    calls w2
    = calls encrypted_disk ++ [CallPXnew d; CallPXopen d filename 0; CallPXdelete d] /\
    freed w2 = freed encrypted_disk /\ warnings w2 = warnings encrypted_disk /\
    files w2 = files encrypted_disk.
Proof.
  apply (close_undoes_open (fun _ => 5) (StrVec [CharSxp [x41]])
           (StrVec [CharSxp [x42]]) (ExtPtr 1) encrypted_disk).
  - vm_compute. reflexivity.
  - discriminate.
Defined.

(** ** The dataset, cell by cell *)

Lemma log_effects_nil (w : world) : log_effects [] [] w = w.
Proof. destruct w. unfold log_effects. simpl. rewrite !app_nil_r. reflexivity. Qed.

Lemma log_effects_app (f1 f2 : list addr) (w1 w2 : list r_warning) (w : world) :
  log_effects f2 w2 (log_effects f1 w1 w) = log_effects (f1 ++ f2) (w1 ++ w2) w.
Proof. unfold log_effects. simpl. rewrite !app_assoc. reflexivity. Qed.

(** A value that converts, converted in any world. *)
Lemma px_to_sexp_run (val : pxval_t) (t : px_fieldtype) (r : SEXP) (w : world) :
  px_value val t = Some r ->
  px_to_sexp val t w = (Done r, log_effects (released val t) (warned val t) w).
Proof.
  unfold px_value. intros H.
  rewrite (px_to_sexp_outcome val t empty_world w) in H.
  destruct (px_to_sexp val t w) as [o w'] eqn:E. simpl in H.
  destruct o as [r' | |]; try discriminate H. injection H as ->.
  rewrite (px_to_sexp_effects val t w w' r E). reflexivity.
Qed.

Lemma fresh_column_holds (num_records : Z) (f : pxfield_t) :
  TYPEOF (fresh_column num_records f) = column_type (px_ftype f) /\
  LENGTH (fresh_column num_records f) = Z.to_nat num_records.
Proof.
  unfold fresh_column.
  destruct (px_ftype f); simpl; rewrite length_replicate; split; reflexivity.
Qed.

(** The loops of steps 3 and 4, in closed form. *)
Lemma loop_of_index_run {A B} (g : A -> B) (fields : list A) (n : nat) (x0 : B)
    (w : world) :
  (n <= length fields)%nat ->
  for_loop n 0 (fun j acc => f ← index fields j; mret (<[j := g f]> acc))
    (replicate n x0) w
  = (Done (map g (take n fields)), w).
Proof.
  intros Hlen.
  destruct (for_loop_invariant
    (fun j acc => f ← index fields j; mret (<[j := g f]> acc))
    (fun j acc w' => acc = map g (take j fields) ++ replicate (n - j) x0 /\ w' = w)
    n 0%nat (replicate n x0) w) as (a' & w' & Hrun & Ha & Hw).
  - intros j a w0 Hj [-> ->].
    destruct (lookup_lt_is_Some_2 fields j ltac:(lia)) as [f Hf].
    exists (map g (take (S j) fields) ++ replicate (n - S j) x0), w.
    split; [| split; reflexivity].
    rewrite (bind_Done _ _ _ _ _ (index_run fields j f w Hf)).
    unfold mret, M_ret. do 2 f_equal.
    rewrite (take_S_r fields j f Hf), map_app. simpl.
    replace (n - j)%nat with (S (n - S j)) by lia. simpl.
    rewrite <- app_assoc. simpl.
    assert (length (map g (take j fields)) = j) as Hl
      by (rewrite length_map, length_take; lia).
    rewrite insert_app_r_alt by lia. rewrite Hl, Nat.sub_diag. reflexivity.
  - rewrite Nat.sub_0_r. split; reflexivity.
  - rewrite Hrun, Ha, Hw. simpl. rewrite Nat.sub_diag. simpl.
    rewrite app_nil_r. reflexivity.
Qed.

(** Filling the cells of one record. *)
Lemma fill_record_cells (fields : list pxfield_t) (row : list pxval_t) (i : nat)
    (ys : list SEXP) (w : world) :
  length ys = length fields ->
  length row = length fields ->
  (forall j f col, fields !! j = Some f -> ys !! j = Some col ->
     TYPEOF col = column_type (px_ftype f) /\ (i < LENGTH col)%nat) ->
  (forall j val f, row !! j = Some val -> fields !! j = Some f ->
     is_Some (px_value val (px_ftype f))) ->
  exists zs,
    fill_record fields (Z.of_nat (length fields)) row i (ListVec ys) w
    = (Done (ListVec zs),
       log_effects (record_released fields row) (record_warned fields row) w) /\
    length zs = length fields /\
    forall j f val col,
      fields !! j = Some f -> row !! j = Some val -> ys !! j = Some col ->
      exists col' r,
        zs !! j = Some col' /\ px_value val (px_ftype f) = Some r /\
        cell_set (px_ftype f) i r col col'.
Proof.
  intros Hys Hrow Hcols Hconv. unfold fill_record. rewrite Nat2Z.id.
  set (n := length fields) in *.
  set (rel := fun (val : pxval_t) (f : pxfield_t) => released val (px_ftype f)).
  set (wrn := fun (val : pxval_t) (f : pxfield_t) => warned val (px_ftype f)).
  destruct (for_loop_invariant
    (fun j data_list =>
       val ← index row j;
       f ← index fields j;
       r_val ← px_to_sexp val (px_ftype f);
       column ← VECTOR_ELT data_list j;
       column' ← store_value column i j r_val;
       mret (SET_VECTOR_ELT data_list j column'))
    (fun j a w1 =>
       exists zs, a = ListVec zs /\ length zs = n /\
         (forall j', (j <= j')%nat -> zs !! j' = ys !! j') /\
         (forall j' f val col, (j' < j)%nat ->
            fields !! j' = Some f -> row !! j' = Some val -> ys !! j' = Some col ->
            exists col' r,
              zs !! j' = Some col' /\ px_value val (px_ftype f) = Some r /\
              cell_set (px_ftype f) i r col col') /\
         w1 = log_effects (concat (zip_with rel (take j row) (take j fields)))
                (concat (zip_with wrn (take j row) (take j fields))) w)
    n 0%nat (ListVec ys) w) as (a' & w' & Hrun & zs & -> & Hzs & _ & Hdone & ->).
  - intros j a w1 Hj (zs & -> & Hzs & Hrest & Hdone & ->).
    destruct (lookup_lt_is_Some_2 row j ltac:(lia)) as [val Hval].
    destruct (lookup_lt_is_Some_2 fields j ltac:(lia)) as [f Hf].
    destruct (lookup_lt_is_Some_2 ys j ltac:(lia)) as [col Hcol].
    destruct (Hconv j val f Hval Hf) as [r Hr].
    destruct (Hcols j f col Hf Hcol) as [Htype Hi].
    set (w1 := log_effects (concat (zip_with rel (take j row) (take j fields)))
                 (concat (zip_with wrn (take j row) (take j fields))) w).
    set (w2 := log_effects (released val (px_ftype f)) (warned val (px_ftype f)) w1).
    pose proof (px_to_sexp_fits_column val (px_ftype f) w1 w2 r
                  (px_to_sexp_run val (px_ftype f) r w1 Hr)) as Hfits.
    destruct (store_value_cell (px_ftype f) col r i j w2 Htype Hi Hfits)
      as (col' & Hstore & Hset).
    exists (ListVec (<[j := col']> zs)), w2. split.
    + rewrite (bind_Done _ _ _ _ _ (index_run row j val w1 Hval)).
      rewrite (bind_Done _ _ _ _ _ (index_run fields j f w1 Hf)).
      rewrite (bind_Done _ _ _ _ _ (px_to_sexp_run val (px_ftype f) r w1 Hr)).
      fold w2.
      assert (zs !! j = Some col) as Hzj by (rewrite Hrest by lia; exact Hcol).
      rewrite (bind_Done _ _ _ _ _
                 (index_run zs j col w2 Hzj : VECTOR_ELT (ListVec zs) j w2 = _)).
      rewrite (bind_Done _ _ _ _ _ Hstore). reflexivity.
    + exists (<[j := col']> zs). split; [reflexivity |].
      split; [rewrite length_insert; exact Hzs |].
      split; [| split].
      * intros j' Hj'. rewrite list_lookup_insert_ne by lia. apply Hrest. lia.
      * intros j' f' val' col0 Hj' Hf' Hval' Hcol0.
        destruct (decide (j' = j)) as [-> | Hne].
        -- rewrite Hf in Hf'. rewrite Hval in Hval'. rewrite Hcol in Hcol0.
           injection Hf' as <-. injection Hval' as <-. injection Hcol0 as <-.
           exists col', r. split; [| split; assumption].
           apply list_lookup_insert_eq. lia.
        -- rewrite list_lookup_insert_ne by congruence.
           apply (Hdone j' f' val' col0); [lia | assumption ..].
      * unfold w2, w1. rewrite log_effects_app.
        rewrite (take_S_r row j val Hval), (take_S_r fields j f Hf).
        rewrite !zip_with_app by (rewrite !length_take; lia).
        simpl. rewrite !concat_app. simpl. rewrite !app_nil_r. reflexivity.
  - exists ys. split; [reflexivity |]. split; [exact Hys |].
    split; [reflexivity |]. split; [intros; lia |].
    simpl. rewrite log_effects_nil. reflexivity.
  - exists zs. split; [| split; [exact Hzs |]].
    + rewrite Hrun. simpl. unfold record_released, record_warned.
      rewrite !firstn_all2 by (fold n; lia). reflexivity.
    + intros j f val col Hf Hval Hcol.
      apply (Hdone j f val col); [| assumption ..].
      apply lookup_lt_Some in Hf. simpl. fold n in Hf. lia.
Qed.

(** [pxlib_get_data_c] on a live handle of a file with records all of
    whose values convert: what it returns and what it does. *)
Lemma get_data_run (w : world) (id d : positive) (doc : pxdoc_t)
    (fields : list pxfield_t) (rows : list (list pxval_t)) :
  extptr_addr w !! id = Some (Some d) ->
  pxdocs w !! d = Some doc ->
  holds_file doc fields rows ->
  rows <> [] ->
  convertible fields rows ->
  exists cols,
    pxlib_get_data_c (ExtPtr id) w
    = (Done (Some (Dataset (ListVec cols)
                     (map (fun f => CharSxp (px_fname f)) fields)
                     (map (fun f => column_attributes (px_ftype f)) fields))),
       log_effects (concat (map (record_released fields) rows))
         (concat (map (record_warned fields) rows)) w) /\
    length cols = length fields /\
    forall j f,
      fields !! j = Some f ->
      exists col,
        cols !! j = Some col /\
        TYPEOF col = column_type (px_ftype f) /\
        LENGTH col = length rows /\
        forall i row val,
          rows !! i = Some row -> row !! j = Some val ->
          exists r,
            px_value val (px_ftype f) = Some r /\
            column_cell col i = Some (stored_cell (column_type (px_ftype f)) r).
Proof.
  intros Hid Hd [(h & Hh & Hf & Hnf & Hnr) Hrows] Hne Hconv.
  assert (0 < length rows)%nat as Hpos by (destruct rows; [contradiction | simpl; lia]).
  rewrite (get_data_steps w id d doc h Hid Hd Hh ltac:(lia)). rewrite Hf, Hnf, Hnr.
  set (nf := length fields). set (nr := length rows).
  rewrite (bind_Done _ _ _ _ _ (allocVector_run VECSXP (Z.of_nat nf) w ltac:(lia))).
  pose proof (alloc_columns_run fields (Z.of_nat nf) (Z.of_nat nr) w ltac:(lia)
                ltac:(rewrite Nat2Z.id; reflexivity)) as Halloc.
  rewrite Nat2Z.id in Halloc. unfold nf in Halloc. rewrite firstn_all in Halloc.
  rewrite Nat2Z.id. cbn [fresh_vector].
  rewrite (bind_Done _ _ _ _ _ Halloc). clear Halloc.
  destruct (for_loop_invariant (fill_step d fields (Z.of_nat nf))
    (fun i a w1 =>
       exists ys, a = ListVec ys /\ length ys = nf /\
         (forall j f col, fields !! j = Some f -> ys !! j = Some col ->
            TYPEOF col = column_type (px_ftype f) /\ LENGTH col = nr /\
            forall i' row val, (i' < i)%nat ->
              rows !! i' = Some row -> row !! j = Some val ->
              exists r,
                px_value val (px_ftype f) = Some r /\
                column_cell col i'
                = Some (stored_cell (column_type (px_ftype f)) r)) /\
         w1 = log_effects (concat (map (record_released fields) (take i rows)))
                (concat (map (record_warned fields) (take i rows))) w)
    nr 0%nat (ListVec (map (fresh_column (Z.of_nat nr)) fields)) w)
    as (a' & w' & Hrun & cols & -> & Hcols & Hcells & ->).
  - intros i a w1 Hi (ys & -> & Hys & Hinv & ->).
    destruct (lookup_lt_is_Some_2 rows i ltac:(fold nr; lia)) as [row Hrow].
    destruct (Hrows i row Hrow) as [Hrec Hlen].
    destruct (fill_record_cells fields row i ys
                (log_effects (concat (map (record_released fields) (take i rows)))
                   (concat (map (record_warned fields) (take i rows))) w)
                Hys Hlen) as (zs & Hfill & Hzs & Hset).
    { intros j f col Hfj Hcol. destruct (Hinv j f col Hfj Hcol) as (Ht & Hl & _).
      split; [exact Ht | lia]. }
    { intros j val f Hval Hfj. exact (Hconv i row j val f Hrow Hval Hfj). }
    eexists (ListVec zs), _. split.
    + unfold fill_step, PX_retrieve_record, mbind, M_bind.
      cbn [pxdocs log_effects]. rewrite Hd, Hrec. exact Hfill.
    + exists zs. split; [reflexivity |]. split; [exact Hzs |]. split.
      * intros j f col' Hfj Hcol'.
        destruct (lookup_lt_is_Some_2 ys j) as [col Hcol].
        { apply lookup_lt_Some in Hfj. fold nf in Hfj. lia. }
        destruct (lookup_lt_is_Some_2 row j) as [val Hval].
        { apply lookup_lt_Some in Hfj. lia. }
        destruct (Hset j f val col Hfj Hval Hcol)
          as (col'' & r & Hz & Hr & Ht' & Hl' & Hcell & Hother).
        rewrite Hcol' in Hz. injection Hz as <-.
        destruct (Hinv j f col Hfj Hcol) as (Ht & Hl & Hbefore).
        split; [congruence |]. split; [congruence |].
        intros i' row' val' Hi' Hrow' Hval'.
        destruct (decide (i' = i)) as [-> | Hne'].
        -- rewrite Hrow in Hrow'. injection Hrow' as <-.
           rewrite Hval in Hval'. injection Hval' as <-.
           exists r. split; assumption.
        -- rewrite (Hother i' Hne').
           apply (Hbefore i' row' val'); [lia | assumption ..].
      * rewrite log_effects_app, (take_S_r rows i row Hrow), !map_app, !concat_app.
        simpl. rewrite !app_nil_r. reflexivity.
  - exists (map (fresh_column (Z.of_nat nr)) fields).
    split; [reflexivity |]. split; [apply length_map |]. split.
    + intros j f col Hfj Hcol. rewrite list_lookup_fmap, Hfj in Hcol.
      injection Hcol as <-.
      destruct (fresh_column_holds (Z.of_nat nr) f) as [Ht Hl].
      rewrite Nat2Z.id in Hl. split; [exact Ht |]. split; [exact Hl |].
      intros; lia.
    + simpl. rewrite log_effects_nil. reflexivity.
  - replace (take (0 + nr) rows) with rows in Hrun by (symmetry; apply firstn_all).
    unfold fill_records. rewrite Nat2Z.id.
    rewrite (bind_Done _ _ _ _ _ Hrun).
    unfold column_names, all_column_attributes. rewrite Nat2Z.id.
    rewrite (bind_Done _ _ _ _ _
               (loop_of_index_run (fun f => CharSxp (px_fname f)) fields nf
                  (CharSxp []) _ (Nat.le_refl _))).
    rewrite (bind_Done _ _ _ _ _
               (loop_of_index_run (fun f => column_attributes (px_ftype f)) fields nf
                  [] _ (Nat.le_refl _))).
    unfold nf. rewrite !firstn_all.
    exists cols. split; [reflexivity |]. split; [exact Hcols |].
    intros j f Hfj.
    destruct (lookup_lt_is_Some_2 cols j) as [col Hcol].
    { apply lookup_lt_Some in Hfj. fold nf in Hfj. lia. }
    destruct (Hcells j f col Hfj Hcol) as (Ht & Hl & Hall).
    exists col. split; [exact Hcol |]. split; [exact Ht |]. split; [exact Hl |].
    intros i row val Hrow Hval.
    apply (Hall i row val); [| assumption ..].
    apply lookup_lt_Some in Hrow. simpl. fold nr in Hrow. lia.
Qed.

(** X19. The dataset of a file with records all of whose values
    convert: one column per field, in field order, of the type the mapper
    gives the field and as long as the file has records; the names are
    the field names in field order and the attributes those of each
    field's type; and the cell of record [i] in the column of field [j]
    holds the decoded value of that record's [j]-th value, R's NA of the
    column's type standing for an absent one. *)
Theorem dataset_holds_every_value (w : world) (id d : positive) (doc : pxdoc_t)
    (fields : list pxfield_t) (rows : list (list pxval_t)) :
  extptr_addr w !! id = Some (Some d) ->
  pxdocs w !! d = Some doc ->
  holds_file doc fields rows ->
  rows <> [] ->
  convertible fields rows ->
  exists cols w',
    pxlib_get_data_c (ExtPtr id) w
    = (Done (Some (Dataset (ListVec cols)
                     (map (fun f => CharSxp (px_fname f)) fields)
                     (map (fun f => column_attributes (px_ftype f)) fields))), w') /\
    length cols = length fields /\
    forall j f,
      fields !! j = Some f ->
      exists col,
        cols !! j = Some col /\
        TYPEOF col = column_type (px_ftype f) /\
        LENGTH col = length rows /\
        forall i row val,
          rows !! i = Some row -> row !! j = Some val ->
          exists r,
            px_value val (px_ftype f) = Some r /\
            column_cell col i = Some (stored_cell (column_type (px_ftype f)) r).
Proof.
  intros Hid Hd Hfile Hne Hconv.
  destruct (get_data_run w id d doc fields rows Hid Hd Hfile Hne Hconv)
    as (cols & Hrun & Hrest).
  exists cols. eexists. split; [exact Hrun | exact Hrest].
Qed.

Lemma two_by_two_holds_file : holds_file two_by_two_doc two_fields two_rows.
Proof.
  split.
  - eexists. repeat split.
  - intros [| [| i]] row; simpl; intros [= <-]; split; reflexivity.
Qed.

Lemma two_by_two_convertible : convertible two_fields two_rows.
Proof.
  intros [| [| i]] row [| [| j]] val f; simpl;
    intros [= <-] [= <-] [= <-]; eexists; reflexivity.
Qed.

Lemma dataset_holds_every_value_witness :
  exists cols w',
    pxlib_get_data_c (ExtPtr 1) two_by_two_world
    = (Done (Some (Dataset (ListVec cols)
                     (map (fun f => CharSxp (px_fname f)) two_fields)
                     (map (fun f => column_attributes (px_ftype f)) two_fields))),
       w') /\
    length cols = length two_fields /\
    forall j f,
      two_fields !! j = Some f ->
      exists col,
        cols !! j = Some col /\
        TYPEOF col = column_type (px_ftype f) /\
        LENGTH col = length two_rows /\
        forall i row val,
          two_rows !! i = Some row -> row !! j = Some val ->
          exists r,
            px_value val (px_ftype f) = Some r /\
            column_cell col i = Some (stored_cell (column_type (px_ftype f)) r).
Proof.
  apply (dataset_holds_every_value two_by_two_world 1 1 two_by_two_doc).
  - reflexivity.
  - reflexivity.
  - exact two_by_two_holds_file.
  - discriminate.
  - exact two_by_two_convertible.
Defined.

(** X20. Fetching such a dataset releases, through [pxdoc->free], the
    buffer of every value that has one, is not flagged null and is of a
    type read from a buffer: each once, record by record and field by
    field, and nothing else.  It signals one warning for every value not
    flagged null whose type code is unknown, and touches nothing else of
    the world. *)
Theorem dataset_fetch_releases_in_file_order (w : world) (id d : positive)
    (doc : pxdoc_t) (fields : list pxfield_t) (rows : list (list pxval_t)) :
  extptr_addr w !! id = Some (Some d) ->
  pxdocs w !! d = Some doc ->
  holds_file doc fields rows ->
  rows <> [] ->
  convertible fields rows ->
  snd (pxlib_get_data_c (ExtPtr id) w)
  = World (extptr_addr w) (pxdocs w) (files w) (px_new_succeeds w) (calls w)
      (freed w ++ concat (map (record_released fields) rows))
      (warnings w ++ concat (map (record_warned fields) rows)).
Proof.
  intros Hid Hd Hfile Hne Hconv.
  destruct (get_data_run w id d doc fields rows Hid Hd Hfile Hne Hconv)
    as (cols & Hrun & _).
  rewrite Hrun. reflexivity.
Qed.

Lemma dataset_fetch_releases_in_file_order_witness :
  snd (pxlib_get_data_c (ExtPtr 1) two_by_two_world)
  = World (extptr_addr two_by_two_world) (pxdocs two_by_two_world)
      (files two_by_two_world) true [] [7%positive] [].
Proof.
  apply (dataset_fetch_releases_in_file_order two_by_two_world 1 1 two_by_two_doc
           two_fields two_rows).
  - reflexivity.
  - reflexivity.
  - exact two_by_two_holds_file.
  - discriminate.
  - exact two_by_two_convertible.
Defined.

(** X21. A file without records gives no dataset: on a live handle whose
    header reports a record count of zero or less the call returns
    [R_NilValue] at once, whatever the fields are and even when the
    backend has no field definitions, and the world is as before. *)
Theorem empty_file_gives_no_dataset (w : world) (id d : positive) (doc : pxdoc_t)
    (h : pxhead_t) :
  extptr_addr w !! id = Some (Some d) ->
  pxdocs w !! d = Some doc ->
  px_head doc = Some h ->
  px_numrecords h <= 0 ->
  pxlib_get_data_c (ExtPtr id) w = (Done None, w).
Proof.
  intros Hid Hd Hh Hn.
  unfold pxlib_get_data_c, PX_get_num_records, PX_get_num_fields.
  rewrite (bind_Done _ _ _ _ _ (check_pxdoc_ptr_run w id d Hid)).
  rewrite (bind_Done _ _ _ _ _ (PX_get_run w d doc h px_numrecords (-1) Hd Hh)).
  rewrite (bind_Done _ _ _ _ _ (PX_get_run w d doc h px_numfields (-1) Hd Hh)).
  destruct (Z.leb_spec (px_numrecords h) 0); [reflexivity | lia].
Qed.

Lemma empty_file_gives_no_dataset_witness :
  pxlib_get_data_c (ExtPtr 1) open_handle_world = (Done None, open_handle_world).
Proof.
  apply (empty_file_gives_no_dataset open_handle_world 1 1
           (PxDoc (Some (PxHead 0 866 0 0 (Some []))) (fun _ => None))
           (PxHead 0 866 0 0 (Some [])));
    reflexivity.
Defined.

(** ** The metadata *)

Lemma insert_take_replicate {A B} (g : A -> B) (l : list A) (n j : nat) (x : A)
    (x0 : B) :
  l !! j = Some x ->
  (j < n)%nat ->
  <[j := g x]> (map g (take j l) ++ replicate (n - j) x0)
  = map g (take (S j) l) ++ replicate (n - S j) x0.
Proof.
  intros Hx Hj.
  rewrite (take_S_r l j x Hx), map_app. simpl.
  replace (n - j)%nat with (S (n - S j)) by lia. simpl.
  rewrite <- app_assoc. simpl.
  assert (length (map g (take j l)) = j) as Hl.
  { rewrite length_map, length_take. apply lookup_lt_Some in Hx. lia. }
  rewrite insert_app_r_alt by lia. rewrite Hl, Nat.sub_diag. reflexivity.
Qed.

(** The loop over the fields, in closed form. *)
Lemma metadata_columns_run (px_ftype_code : px_fieldtype -> Z)
    (fields : list pxfield_t) (n : nat) (w : world) :
  (n <= length fields)%nat ->
  metadata_columns px_ftype_code (Some fields) (Z.of_nat n)
    (fresh_vector STRSXP n, fresh_vector INTSXP n, fresh_vector INTSXP n) w
  = (Done (StrVec (map (fun f => CharSxp (px_fname f)) (take n fields)),
           IntVec (map (fun f => px_ftype_code (px_ftype f)) (take n fields)),
           IntVec (map px_flen (take n fields))), w).
Proof.
  intros Hlen. unfold metadata_columns. rewrite Nat2Z.id.
  destruct (for_loop_invariant
    (fun i '(name_col, type_col, size_col) =>
       f ← index fields i;
       mret (SET_STRING_ELT name_col i (CharSxp (px_fname f)),
             SET_INTEGER type_col i (px_ftype_code (px_ftype f)),
             SET_INTEGER size_col i (px_flen f)))
    (fun j a w' =>
       a = (StrVec (map (fun f => CharSxp (px_fname f)) (take j fields)
                    ++ replicate (n - j) (CharSxp [])),
            IntVec (map (fun f => px_ftype_code (px_ftype f)) (take j fields)
                    ++ replicate (n - j) 0),
            IntVec (map px_flen (take j fields) ++ replicate (n - j) 0)) /\
       w' = w)
    n 0%nat (fresh_vector STRSXP n, fresh_vector INTSXP n, fresh_vector INTSXP n) w)
    as (a' & w' & Hrun & Ha & Hw).
  - intros j a w0 Hj [-> ->].
    destruct (lookup_lt_is_Some_2 fields j ltac:(lia)) as [f Hf].
    eexists _, w. split; [| split; reflexivity].
    rewrite (bind_Done _ _ _ _ _ (index_run fields j f w Hf)).
    unfold mret, M_ret, SET_STRING_ELT, SET_INTEGER.
    pose proof (insert_take_replicate (fun f => CharSxp (px_fname f)) fields n j f
                  (CharSxp []) Hf ltac:(lia)) as H1.
    pose proof (insert_take_replicate (fun f => px_ftype_code (px_ftype f)) fields
                  n j f 0 Hf ltac:(lia)) as H2.
    pose proof (insert_take_replicate px_flen fields n j f 0 Hf ltac:(lia)) as H3.
    cbv beta in H1, H2. rewrite H1, H2, H3. reflexivity.
  - rewrite Nat.sub_0_r. split; reflexivity.
  - etransitivity; [exact Hrun |]. rewrite Ha, Hw. simpl.
    rewrite Nat.sub_diag. simpl. rewrite !app_nil_r. reflexivity.
Qed.

(** [pxlib_get_metadata_c] on a live handle of a file with field
    definitions, in closed form. *)
Lemma get_metadata_run (px_ftype_code : px_fieldtype -> Z) (w : world)
    (id d : positive) (doc : pxdoc_t) (h : pxhead_t) (fields : list pxfield_t)
    (n : nat) :
  extptr_addr w !! id = Some (Some d) ->
  pxdocs w !! d = Some doc ->
  px_head doc = Some h ->
  px_fields h = Some fields ->
  px_numfields h = Z.of_nat n ->
  (n <= length fields)%nat ->
  pxlib_get_metadata_c px_ftype_code (ExtPtr id) w
  = (Done (Metadata
             (ListVec
                [ScalarInteger (px_numrecords h); ScalarInteger (Z.of_nat n);
                 ListVec
                   [StrVec (map (fun f => CharSxp (px_fname f)) (take n fields));
                    IntVec (map (fun f => px_ftype_code (px_ftype f))
                              (take n fields));
                    IntVec (map px_flen (take n fields))]])
             names_metadata names_fields
             (IntVec [NA_INTEGER; - Z.of_nat n])
             (mkString "data.frame")), w).
Proof.
  intros Hid Hd Hh Hf Hn Hlen.
  unfold pxlib_get_metadata_c, PX_get_num_fields, PX_get_fields, PX_get_num_records.
  rewrite (bind_Done _ _ _ _ _ (check_pxdoc_ptr_run w id d Hid)).
  rewrite (bind_Done _ _ _ _ _ (PX_get_run w d doc h px_numfields (-1) Hd Hh)).
  rewrite (bind_Done _ _ _ _ _ (PX_get_run w d doc h px_fields None Hd Hh)).
  rewrite Hf, Hn.
  rewrite (bind_Done (mret tt) _ w w tt eq_refl).
  rewrite (bind_Done _ _ _ _ _ (allocVector_run VECSXP 3 w ltac:(lia))).
  rewrite (bind_Done _ _ _ _ _ (PX_get_run w d doc h px_numrecords (-1) Hd Hh)).
  cbv zeta.
  rewrite (bind_Done _ _ _ _ _ (allocVector_run VECSXP 3 w ltac:(lia))).
  rewrite (bind_Done _ _ _ _ _ (allocVector_run STRSXP (Z.of_nat n) w ltac:(lia))).
  rewrite (bind_Done _ _ _ _ _ (allocVector_run INTSXP (Z.of_nat n) w ltac:(lia))).
  rewrite (bind_Done _ _ _ _ _ (allocVector_run INTSXP (Z.of_nat n) w ltac:(lia))).
  rewrite Nat2Z.id.
  rewrite (bind_Done _ _ _ _ _ (metadata_columns_run px_ftype_code fields n w Hlen)).
  reflexivity.
Qed.

(** X22. The metadata of a file with field definitions: the record count
    and the field count of the header as R integers, and a table with
    one row per field, in field order, of the field's name, the numeric
    code of its type and its size; the row names are R's compact form
    for that many rows and the class is [data.frame].  The world is as
    before. *)
Theorem metadata_lists_every_field (px_ftype_code : px_fieldtype -> Z) (w : world)
    (id d : positive) (doc : pxdoc_t) (h : pxhead_t) (fields : list pxfield_t) :
  extptr_addr w !! id = Some (Some d) ->
  pxdocs w !! d = Some doc ->
  px_head doc = Some h ->
  px_fields h = Some fields ->
  px_numfields h = Z.of_nat (length fields) ->
  pxlib_get_metadata_c px_ftype_code (ExtPtr id) w
  = (Done (Metadata
             (ListVec
                [ScalarInteger (px_numrecords h);
                 ScalarInteger (Z.of_nat (length fields));
                 ListVec
                   [StrVec (map (fun f => CharSxp (px_fname f)) fields);
                    IntVec (map (fun f => px_ftype_code (px_ftype f)) fields);
                    IntVec (map px_flen fields)]])
             names_metadata names_fields
             (IntVec [NA_INTEGER; - Z.of_nat (length fields)])
             (mkString "data.frame")), w).
Proof.
  intros Hid Hd Hh Hf Hn.
  rewrite (get_metadata_run px_ftype_code w id d doc h fields (length fields)
             Hid Hd Hh Hf Hn (Nat.le_refl _)).
  rewrite firstn_all. reflexivity.
Qed.

Lemma metadata_lists_every_field_witness :
  pxlib_get_metadata_c (fun _ => 1) (ExtPtr 1) two_by_two_world
  = (Done (Metadata
             (ListVec
                [IntVec [2]; IntVec [2];
                 ListVec [StrVec [CharSxp [x41]; CharSxp [x42]];
                          IntVec [1; 1]; IntVec [3; 4]]])
             names_metadata names_fields (IntVec [NA_INTEGER; -2])
             (mkString "data.frame")), two_by_two_world).
Proof.
  apply (metadata_lists_every_field (fun _ => 1) two_by_two_world 1 1 two_by_two_doc
           (PxHead 0 866 2 2 (Some two_fields)) two_fields);
    reflexivity.
Defined.

(** X23. When the backend has no field definitions, the data entry point
    raises the field-definitions error for a file with records, and the
    metadata entry point raises it when the header reports one field or
    more; with a field count of zero the metadata entry point goes on
    and returns a table without rows.  The world is as before each
    time. *)
Theorem missing_field_definitions (px_ftype_code : px_fieldtype -> Z) (w : world)
    (id d : positive) (doc : pxdoc_t) (h : pxhead_t) :
  extptr_addr w !! id = Some (Some d) ->
  pxdocs w !! d = Some doc ->
  px_head doc = Some h ->
  px_fields h = None ->
  (0 < px_numrecords h ->
   pxlib_get_data_c (ExtPtr id) w = (Raised ErrFieldDefinitions, w)) /\
  (0 < px_numfields h ->
   pxlib_get_metadata_c px_ftype_code (ExtPtr id) w
   = (Raised ErrFieldDefinitions, w)) /\
  (px_numfields h = 0 ->
   pxlib_get_metadata_c px_ftype_code (ExtPtr id) w
   = (Done (Metadata
              (ListVec [ScalarInteger (px_numrecords h); ScalarInteger 0;
                        ListVec [StrVec []; IntVec []; IntVec []]])
              names_metadata names_fields (IntVec [NA_INTEGER; 0])
              (mkString "data.frame")), w)).
Proof.
  intros Hid Hd Hh Hf.
  split; [| split].
  - intros Hn. rewrite (get_data_steps w id d doc h Hid Hd Hh Hn), Hf. reflexivity.
  - intros Hn.
    unfold pxlib_get_metadata_c, PX_get_num_fields, PX_get_fields.
    rewrite (bind_Done _ _ _ _ _ (check_pxdoc_ptr_run w id d Hid)).
    rewrite (bind_Done _ _ _ _ _ (PX_get_run w d doc h px_numfields (-1) Hd Hh)).
    rewrite (bind_Done _ _ _ _ _ (PX_get_run w d doc h px_fields None Hd Hh)).
    rewrite Hf. destruct (Z.ltb_spec 0 (px_numfields h)); [reflexivity | lia].
  - intros Hn.
    unfold pxlib_get_metadata_c, PX_get_num_fields, PX_get_fields,
      PX_get_num_records.
    rewrite (bind_Done _ _ _ _ _ (check_pxdoc_ptr_run w id d Hid)).
    rewrite (bind_Done _ _ _ _ _ (PX_get_run w d doc h px_numfields (-1) Hd Hh)).
    rewrite (bind_Done _ _ _ _ _ (PX_get_run w d doc h px_fields None Hd Hh)).
    rewrite Hf, Hn. cbn [Z.ltb Z.compare].
    rewrite (bind_Done (mret tt) _ w w tt eq_refl).
    rewrite (bind_Done _ _ _ _ _ (allocVector_run VECSXP 3 w ltac:(lia))).
    rewrite (bind_Done _ _ _ _ _ (PX_get_run w d doc h px_numrecords (-1) Hd Hh)).
    reflexivity.
Qed.

Lemma missing_field_definitions_witness :
  pxlib_get_data_c (ExtPtr 1)
    (World {[1%positive := Some 1%positive]}
       {[1%positive := PxDoc (Some (PxHead 0 866 3 2 None)) (fun _ => None)]}
       (fun _ => None) true [] [] [])
  = (Raised ErrFieldDefinitions,
     World {[1%positive := Some 1%positive]}
       {[1%positive := PxDoc (Some (PxHead 0 866 3 2 None)) (fun _ => None)]}
       (fun _ => None) true [] [] []).
Proof.
  refine (proj1 (missing_field_definitions (fun _ => 0) _ 1 1
                   (PxDoc (Some (PxHead 0 866 3 2 None)) (fun _ => None))
                   (PxHead 0 866 3 2 None) _ _ _ _) _);
    reflexivity.
Defined.

(** A loop over the fields that returns stayed within them. *)
Lemma loop_of_index_bound {A B} (g : A -> B) (fields : list A) (n : nat) (x0 : B)
    (w w' : world) (acc' : list B) :
  for_loop n 0 (fun j acc => f ← index fields j; mret (<[j := g f]> acc))
    (replicate n x0) w
  = (Done acc', w') ->
  (n <= length fields)%nat.
Proof.
  intros Hrun. destruct (le_lt_dec n (length fields)) as [Hle | Hlt]; [exact Hle |].
  exfalso. revert Hrun.
  apply (for_loop_not_done _ (fun _ => True) n 0%nat (length fields)).
  - trivial.
  - intros a w0 a' w0' _.
    rewrite (bind_Undefined _ _ w0 w0 ReadOutOfBounds); [discriminate |].
    unfold index. rewrite lookup_ge_None_2 by lia. reflexivity.
  - lia.
  - trivial.
Qed.

(** What a returned dataset tells about the file. *)
Lemma get_data_Done_inv (x : SEXP) (w w' : world) (ds : dataset) :
  pxlib_get_data_c x w = (Done (Some ds), w') ->
  exists id d doc h fields,
    x = ExtPtr id /\
    extptr_addr w !! id = Some (Some d) /\
    pxdocs w !! d = Some doc /\
    px_head doc = Some h /\
    px_fields h = Some fields /\
    0 < px_numrecords h /\
    0 <= px_numfields h /\
    (Z.to_nat (px_numfields h) <= length fields)%nat /\
    ds_names ds
    = map (fun f => CharSxp (px_fname f)) (take (Z.to_nat (px_numfields h)) fields) /\
    ds_attributes ds
    = map (fun f => column_attributes (px_ftype f))
        (take (Z.to_nat (px_numfields h)) fields).
Proof.
  intros H.
  destruct (live_handle w x) as [d |] eqn:Hx.
  2: { unfold pxlib_get_data_c in H.
       rewrite (bind_Raised _ _ w w ErrClosedOrInvalid) in H; [discriminate H |].
       rewrite check_pxdoc_ptr_spec, Hx. reflexivity. }
  apply live_handle_Some in Hx as (id & -> & Hid).
  pose proof H as Hsteps. unfold pxlib_get_data_c in Hsteps.
  rewrite (bind_Done _ _ _ _ _ (check_pxdoc_ptr_run w id d Hid)) in Hsteps.
  unfold PX_get_num_records, PX_get_num_fields in Hsteps.
  destruct (pxdocs w !! d) as [doc |] eqn:Hd.
  2: { rewrite (bind_Undefined _ _ w w UseAfterDelete) in Hsteps;
         [discriminate Hsteps |].
       unfold PX_get. rewrite Hd. reflexivity. }
  destruct (px_head doc) as [h |] eqn:Hh.
  2: { assert (forall (A : Type) (field : pxhead_t -> A) (none : A),
                 PX_get d field none w = (Done none, w)) as Hget
         by (intros; unfold PX_get; rewrite Hd, Hh; reflexivity).
       rewrite (bind_Done _ _ _ _ _ (Hget _ px_numrecords (-1))) in Hsteps.
       rewrite (bind_Done _ _ _ _ _ (Hget _ px_numfields (-1))) in Hsteps.
       discriminate Hsteps. }
  clear Hsteps.
  destruct (Z.ltb_spec 0 (px_numrecords h)) as [Hn | Hn].
  2: { unfold pxlib_get_data_c, PX_get_num_records, PX_get_num_fields in H.
       rewrite (bind_Done _ _ _ _ _ (check_pxdoc_ptr_run w id d Hid)) in H.
       rewrite (bind_Done _ _ _ _ _ (PX_get_run w d doc h px_numrecords (-1) Hd Hh))
         in H.
       rewrite (bind_Done _ _ _ _ _ (PX_get_run w d doc h px_numfields (-1) Hd Hh))
         in H.
       destruct (Z.leb_spec (px_numrecords h) 0); [discriminate H | lia]. }
  rewrite (get_data_steps w id d doc h Hid Hd Hh Hn) in H.
  destruct (px_fields h) as [fields |] eqn:Hf; [| discriminate H].
  apply bind_Done_inv in H as (dl0 & w1 & Halloc & H).
  assert (0 <= px_numfields h) as Hnf.
  { unfold allocVector in Halloc.
    destruct (Z.ltb_spec (px_numfields h) 0); [discriminate Halloc | lia]. }
  apply bind_Done_inv in H as (dl1 & w2 & _ & H).
  apply bind_Done_inv in H as (dl2 & w3 & _ & H).
  apply bind_Done_inv in H as (names & w4 & Hnames & H).
  apply bind_Done_inv in H as (attrs & w5 & Hattrs & H).
  injection H as <- _.
  unfold column_names in Hnames. unfold all_column_attributes in Hattrs.
  pose proof (loop_of_index_bound (fun f => CharSxp (px_fname f)) fields _ _ _ _ _
                Hnames) as Hb.
  rewrite (loop_of_index_run (fun f => CharSxp (px_fname f)) fields _ _ _ Hb)
    in Hnames.
  rewrite (loop_of_index_run (fun f => column_attributes (px_ftype f)) fields _ _ _
             Hb) in Hattrs.
  injection Hnames as <- _. injection Hattrs as <- _.
  exists id, d, doc, h, fields. simpl. repeat split; try assumption; lia.
Qed.

(** X24. The metadata and the dataset of a handle agree.  Whenever the
    data entry point returns a dataset, the metadata entry point returns
    on the same handle, its field count is the number of columns'
    names, the name column of its field table lists the dataset's column
    names in the same order, and its type and size columns have one
    entry per name. *)
Theorem metadata_agrees_with_dataset (px_ftype_code : px_fieldtype -> Z)
    (x : SEXP) (w w' : world) (ds : dataset) :
  pxlib_get_data_c x w = (Done (Some ds), w') ->
  exists num_records types sizes,
    pxlib_get_metadata_c px_ftype_code x w
    = (Done (Metadata
               (ListVec
                  [ScalarInteger num_records;
                   ScalarInteger (Z.of_nat (length (ds_names ds)));
                   ListVec [StrVec (ds_names ds); IntVec types; IntVec sizes]])
               names_metadata names_fields
               (IntVec [NA_INTEGER; - Z.of_nat (length (ds_names ds))])
               (mkString "data.frame")), w) /\
    length types = length (ds_names ds) /\
    length sizes = length (ds_names ds) /\
    length (ds_attributes ds) = length (ds_names ds).
Proof.
  intros H.
  destruct (get_data_Done_inv x w w' ds H)
    as (id & d & doc & h & fields & -> & Hid & Hd & Hh & Hf & _ & Hnf & Hb & Hnames
        & Hattrs).
  set (n := Z.to_nat (px_numfields h)) in *.
  assert (length (ds_names ds) = n) as Hlen
    by (rewrite Hnames, length_map, length_take; lia).
  eexists _, _, _. split; [| split; [| split]].
  - rewrite (get_metadata_run px_ftype_code w id d doc h fields n Hid Hd Hh Hf
               ltac:(unfold n; lia) Hb).
    rewrite Hlen, Hnames. reflexivity.
  - rewrite length_map, length_take. lia.
  - rewrite length_map, length_take. lia.
  - rewrite Hattrs, length_map, length_take. lia.
Qed.

Lemma metadata_agrees_with_dataset_witness :
  exists num_records types sizes,
    pxlib_get_metadata_c (fun _ => 1) (ExtPtr 1) two_by_two_world
    = (Done (Metadata
               (ListVec
                  [ScalarInteger num_records; ScalarInteger 2;
                   ListVec [StrVec [CharSxp [x41]; CharSxp [x42]];
                            IntVec types; IntVec sizes]])
               names_metadata names_fields (IntVec [NA_INTEGER; -2])
               (mkString "data.frame")), two_by_two_world) /\
    length types = 2%nat /\ length sizes = 2%nat /\
    length [@nil (string * SEXP); []] = 2%nat.
Proof.
  apply (metadata_agrees_with_dataset (fun _ => 1) (ExtPtr 1) two_by_two_world
           (log_free 7%positive two_by_two_world)
           (Dataset (ListVec [StrVec [CharSxp [x68; x69]; NA_STRING]; IntVec [5; 6]])
              [CharSxp [x41]; CharSxp [x42]] [[]; []])).
  vm_compute. reflexivity.
Defined.

(** * The encoding negotiation *)

(** What [%d] prints for an [int] fits the buffer and has no zero
    byte. *)
Lemma printf_d_spec (n : Z) :
  - 2 ^ 31 <= n < 2 ^ 31 ->
  (length (printf_d n) <= 11)%nat /\ x00 ∉ printf_d n.
Proof.
  intros Hn. unfold printf_d. destruct (Z.ltb_spec n 0).
  - destruct (decimal_spec 10 (- n) [] ltac:(simpl; lia) eq_refl)
      as (Hdig & _ & Hlen & _).
    cbn [length] in *. split; [lia |].
    intros Hin. apply elem_of_cons in Hin as [Hin | Hin]; [discriminate Hin |].
    exact (is_digit_not_zero _ Hdig Hin).
  - destruct (decimal_spec 10 n [] ltac:(simpl; lia) eq_refl)
      as (Hdig & _ & Hlen & _).
    cbn [length] in *. split; [lia |]. exact (is_digit_not_zero _ Hdig).
Qed.

(** The 30-byte buffer holds the whole name of any code page. *)
Lemma snprintf_CP_string (h : pxhead_t) :
  c_string (snprintf_CP 30 (int_of_long (px_doscodepage h)))
  = Some (Encode.codepage_name h).
Proof.
  unfold snprintf_CP, Encode.codepage_name.
  destruct (printf_d_spec _ (int_of_long_range (px_doscodepage h))) as [Hlen Hz].
  rewrite take_ge by (rewrite length_app; simpl; lia).
  apply c_string_app. intros Hin. apply elem_of_app in Hin as [Hin | Hin].
  - repeat (apply elem_of_cons in Hin as [Hin | Hin]; [discriminate Hin |]).
    exact (not_elem_of_nil _ Hin).
  - exact (Hz Hin).
Qed.

Lemma Riconv_close_owned (cd : positive) (s : Encode.iconv_world) :
  cd ∈ Encode.open_cds s ->
  Encode.Riconv_close cd s
  = Done (Encode.IconvWorld (Encode.supported s) (Encode.open_cds s ∖ {[cd]})
            (Encode.opened s)).
Proof.
  intros H. unfold Encode.Riconv_close.
  destruct (decide (cd ∈ Encode.open_cds s)); [reflexivity | contradiction].
Qed.

(** Set equalities and memberships by unfolding. *)
Ltac sets := set_unfold; try (intros ?); intuition (subst; congruence).

(** X25. The two setters neither leak nor reuse a conversion descriptor.
    When the open descriptors are exactly those the document holds, and
    the document has a header, each setter returns, and afterwards the
    open descriptors are again exactly those the document holds: the
    descriptor held before was closed once, and a failed open leaves no
    descriptor behind. *)
Theorem encoding_setters_keep_descriptors_owned (pxdoc : Encode.pxdoc_t)
    (s : Encode.iconv_world) :
  is_Some (Encode.px_head pxdoc) ->
  Encode.owns pxdoc s ->
  (exists r pxdoc' s',
     Encode.px_set_targetencoding pxdoc s = Done (r, pxdoc', s') /\
     Encode.owns pxdoc' s') /\
  (exists r pxdoc' s',
     Encode.px_set_inputencoding pxdoc s = Done (r, pxdoc', s') /\
     Encode.owns pxdoc' s').
Proof.
  intros [h Hh] [Hopen Hdiff].
  destruct pxdoc as [head target input out inp].
  cbn [Encode.px_head Encode.out_iconvcd Encode.in_iconvcd] in *. subst head.
  split.
  - unfold Encode.px_set_targetencoding.
    cbn [Encode.px_head Encode.out_iconvcd Encode.in_iconvcd Encode.targetencoding
         Encode.inputencoding].
    destruct target as [enc |];
      [| eexists _, _, _; split; [reflexivity |]; split; assumption].
    destruct out as [cd |].
    + rewrite Riconv_close_owned by (rewrite Hopen; clear; simpl; sets).
      rewrite snprintf_CP_string.
      unfold Encode.Riconv_open. cbn [Encode.supported Encode.open_cds Encode.opened].
      specialize (Hdiff cd eq_refl).
      pose proof (is_fresh (Encode.open_cds s ∖ {[cd]})) as Hfresh.
      set (cd' := fresh (Encode.open_cds s ∖ {[cd]})) in *. clearbody cd'.
      destruct (Encode.supported s enc (Encode.codepage_name h));
        eexists _, _, _; (split; [reflexivity |]); split;
        cbn [Encode.open_cds Encode.out_iconvcd Encode.in_iconvcd Encode.cds_of].
      * rewrite Hopen. clear Hopen. destruct inp as [ci |]; simpl; sets.
      * intros c [= <-] ->. apply Hfresh. rewrite Hopen. clear Hopen. simpl. sets.
      * rewrite Hopen. clear Hopen. destruct inp as [ci |]; simpl; sets.
      * discriminate.
    + rewrite snprintf_CP_string.
      unfold Encode.Riconv_open. cbn [Encode.supported Encode.open_cds Encode.opened].
      pose proof (is_fresh (Encode.open_cds s)) as Hfresh.
      set (cd' := fresh (Encode.open_cds s)) in *. clearbody cd'.
      destruct (Encode.supported s enc (Encode.codepage_name h));
        eexists _, _, _; (split; [reflexivity |]); split;
        cbn [Encode.open_cds Encode.out_iconvcd Encode.in_iconvcd Encode.cds_of].
      * rewrite Hopen. clear Hopen. simpl. sets.
      * intros c [= <-] ->. apply Hfresh. rewrite Hopen. clear Hopen. simpl. sets.
      * exact Hopen.
      * discriminate.
  - unfold Encode.px_set_inputencoding.
    cbn [Encode.px_head Encode.out_iconvcd Encode.in_iconvcd Encode.targetencoding
         Encode.inputencoding].
    destruct input as [enc |];
      [| eexists _, _, _; split; [reflexivity |]; split; assumption].
    destruct inp as [cd |].
    + rewrite Riconv_close_owned by (rewrite Hopen; clear; simpl; sets).
      rewrite snprintf_CP_string.
      unfold Encode.Riconv_open. cbn [Encode.supported Encode.open_cds Encode.opened].
      pose proof (is_fresh (Encode.open_cds s ∖ {[cd]})) as Hfresh.
      set (cd' := fresh (Encode.open_cds s ∖ {[cd]})) in *. clearbody cd'.
      destruct (Encode.supported s (Encode.codepage_name h) enc);
        eexists _, _, _; (split; [reflexivity |]); split;
        cbn [Encode.open_cds Encode.out_iconvcd Encode.in_iconvcd Encode.cds_of].
      * rewrite Hopen. clear Hopen.
        destruct out as [co |]; simpl; [specialize (Hdiff co eq_refl) |];
          sets.
      * intros c -> [= <-]. apply Hfresh. rewrite Hopen. clear Hopen. simpl.
        specialize (Hdiff cd' eq_refl). sets.
      * rewrite Hopen. clear Hopen.
        destruct out as [co |]; simpl; [specialize (Hdiff co eq_refl) |];
          sets.
      * intros c _. discriminate.
    + rewrite snprintf_CP_string.
      unfold Encode.Riconv_open. cbn [Encode.supported Encode.open_cds Encode.opened].
      pose proof (is_fresh (Encode.open_cds s)) as Hfresh.
      set (cd' := fresh (Encode.open_cds s)) in *. clearbody cd'.
      destruct (Encode.supported s (Encode.codepage_name h) enc);
        eexists _, _, _; (split; [reflexivity |]); split;
        cbn [Encode.open_cds Encode.out_iconvcd Encode.in_iconvcd Encode.cds_of].
      * rewrite Hopen. clear Hopen. simpl. sets.
      * intros c -> [= <-]. apply Hfresh. rewrite Hopen. clear Hopen. simpl. sets.
      * exact Hopen.
      * intros c _. discriminate.
Qed.

Lemma encoding_setters_keep_descriptors_owned_witness :
  (exists r pxdoc' s',
     Encode.px_set_targetencoding Encode.sample_doc Encode.sample_iconv
     = Done (r, pxdoc', s') /\
     Encode.owns pxdoc' s') /\
  (exists r pxdoc' s',
     Encode.px_set_inputencoding Encode.sample_doc Encode.sample_iconv
     = Done (r, pxdoc', s') /\
     Encode.owns pxdoc' s').
Proof.
  apply (encoding_setters_keep_descriptors_owned Encode.sample_doc
           Encode.sample_iconv).
  - eexists. reflexivity.
  - split; [simpl; sets | discriminate].
Defined.

(** The code page name of a header whose code page is not negative:
    the letters CP and the digits of the number, zero included. *)
Lemma codepage_name_digits (h : pxhead_t) :
  0 <= int_of_long (px_doscodepage h) ->
  exists digits,
    Encode.codepage_name h = [x43; x50] ++ digits /\
    forallb is_digit digits = true /\
    read_decimal digits = int_of_long (px_doscodepage h).
Proof.
  intros Hpos. pose proof (int_of_long_range (px_doscodepage h)) as Hrange.
  destruct (decimal_spec 10 (int_of_long (px_doscodepage h)) []
              ltac:(simpl; lia) eq_refl) as (Hdig & Hread & _).
  exists (decimal 10 (int_of_long (px_doscodepage h)) []).
  split; [| split; assumption].
  unfold Encode.codepage_name, printf_d.
  destruct (Z.ltb_spec (int_of_long (px_doscodepage h)) 0); [lia | reflexivity].
Qed.

(** X26. What the setters ask of the transcoder.  The target setter
    opens a conversion to the document's target encoding from the
    header's code page, the input setter a conversion to the code page
    from the document's input encoding; the code page is named by the
    letters CP and its decimal digits, which the 30-byte buffer always
    holds in full.  Each returns 0 with the new descriptor in its field
    when the transcoder knows the pair, and -1 with the field at
    [(Riconv_t)-1] and no open made when it does not. *)
Theorem encoding_setters_open_by_code_page (pxdoc : Encode.pxdoc_t)
    (s : Encode.iconv_world) (h : pxhead_t) (enc : list byte) :
  Encode.px_head pxdoc = Some h ->
  Encode.owns pxdoc s ->
  0 <= int_of_long (px_doscodepage h) ->
  (exists digits,
     Encode.codepage_name h = [x43; x50] ++ digits /\
     forallb is_digit digits = true /\
     read_decimal digits = int_of_long (px_doscodepage h)) /\
  (Encode.targetencoding pxdoc = Some enc ->
   exists pxdoc' s',
     Encode.px_set_targetencoding pxdoc s
     = Done (if Encode.supported s enc (Encode.codepage_name h) then 0 else -1,
             pxdoc', s') /\
     Encode.in_iconvcd pxdoc' = Encode.in_iconvcd pxdoc /\
     if Encode.supported s enc (Encode.codepage_name h)
     then exists cd,
            Encode.out_iconvcd pxdoc' = Some cd /\
            Encode.opened s'
            = Encode.opened s ++ [(cd, enc, Encode.codepage_name h)]
     else Encode.out_iconvcd pxdoc' = None /\ Encode.opened s' = Encode.opened s) /\
  (Encode.inputencoding pxdoc = Some enc ->
   exists pxdoc' s',
     Encode.px_set_inputencoding pxdoc s
     = Done (if Encode.supported s (Encode.codepage_name h) enc then 0 else -1,
             pxdoc', s') /\
     Encode.out_iconvcd pxdoc' = Encode.out_iconvcd pxdoc /\
     if Encode.supported s (Encode.codepage_name h) enc
     then exists cd,
            Encode.in_iconvcd pxdoc' = Some cd /\
            Encode.opened s'
            = Encode.opened s ++ [(cd, Encode.codepage_name h, enc)]
     else Encode.in_iconvcd pxdoc' = None /\ Encode.opened s' = Encode.opened s).
Proof.
  intros Hh [Hopen _] Hpos.
  split; [exact (codepage_name_digits h Hpos) |].
  destruct pxdoc as [head target input out inp].
  cbn [Encode.px_head Encode.out_iconvcd Encode.in_iconvcd Encode.targetencoding
       Encode.inputencoding] in *.
  subst head. split; intros ->.
  - unfold Encode.px_set_targetencoding.
    cbn [Encode.px_head Encode.out_iconvcd Encode.in_iconvcd Encode.targetencoding
         Encode.inputencoding].
    destruct out as [cd |].
    + rewrite Riconv_close_owned by (rewrite Hopen; clear; simpl; sets).
      rewrite snprintf_CP_string. unfold Encode.Riconv_open.
      cbn [Encode.supported Encode.open_cds Encode.opened].
      destruct (Encode.supported s enc (Encode.codepage_name h));
        eexists _, _; (split; [reflexivity |]); (split; [reflexivity |]); eauto.
    + rewrite snprintf_CP_string. unfold Encode.Riconv_open.
      destruct (Encode.supported s enc (Encode.codepage_name h));
        eexists _, _; (split; [reflexivity |]); (split; [reflexivity |]); eauto.
  - unfold Encode.px_set_inputencoding.
    cbn [Encode.px_head Encode.out_iconvcd Encode.in_iconvcd Encode.targetencoding
         Encode.inputencoding].
    destruct inp as [cd |].
    + rewrite Riconv_close_owned by (rewrite Hopen; clear; simpl; sets).
      rewrite snprintf_CP_string. unfold Encode.Riconv_open.
      cbn [Encode.supported Encode.open_cds Encode.opened].
      destruct (Encode.supported s (Encode.codepage_name h) enc);
        eexists _, _; (split; [reflexivity |]); (split; [reflexivity |]); eauto.
    + rewrite snprintf_CP_string. unfold Encode.Riconv_open.
      destruct (Encode.supported s (Encode.codepage_name h) enc);
        eexists _, _; (split; [reflexivity |]); (split; [reflexivity |]); eauto.
Qed.

Lemma encoding_setters_open_by_code_page_witness :
  exists pxdoc' s',
    Encode.px_set_targetencoding Encode.sample_doc Encode.sample_iconv
    = Done (0, pxdoc', s') /\
    Encode.in_iconvcd pxdoc' = None /\
    exists cd,
      Encode.out_iconvcd pxdoc' = Some cd /\
      Encode.opened s' = [(cd, Encode.utf8, [x43; x50; x38; x36; x36])].
Proof.
  refine (proj1 (proj2 (encoding_setters_open_by_code_page Encode.sample_doc
                          Encode.sample_iconv (PxHead 0 866 0 0 (Some []))
                          Encode.utf8 _ _ _)) _).
  - reflexivity.
  - split; [simpl; sets | discriminate].
  - vm_compute. discriminate.
  - reflexivity.
Defined.
